(** * Vwap (Vegan Recipe Swap): the data model of [src/backend/models.py]

    A shallow embedding of the SQLAlchemy models [User], [Recipe], [Review]
    and [RecipeSwap]: their columns, the JSON-encoded collection accessors,
    the derived [average_rating], the [to_dict] projections, and the effect
    of the declared constraints and relationship cascades on a store.

    Python values are modelled by [pyval]; a raised exception by [Raise].
    The parts of the Python runtime the models call ([json.dumps],
    [json.loads], [int / int], [round], [datetime.isoformat]) are modelled
    after CPython, at the granularity of "value returned or exception class
    raised". *)

From Stdlib Require Import String Ascii.
From Stdlib Require Import List ZArith NArith Lia Bool.
From Stdlib Require Import SpecFloat Decimal DecimalFacts DecimalPos DecimalN DecimalZ.
Import ListNotations.

Set Warnings "-register-all".

Local Open Scope Z_scope.

(* ------------------------------------------------------------------ *)
(** ** Exceptions and results *)

Inductive exn : Set :=
| TypeError
| ValueError
| ZeroDivisionError
| OverflowError
| RecursionError
| JSONDecodeError
| IntegrityError
| InvalidRequestError.

Inductive res (A : Type) : Type :=
| Ok (a : A)
| Raise (e : exn).

Arguments Ok {A} a.
Arguments Raise {A} e.

Definition bind {A B : Type} (m : res A) (k : A -> res B) : res B :=
  match m with
  | Ok a => k a
  | Raise e => Raise e
  end.

Declare Scope res_scope.
Delimit Scope res_scope with res.
Notation "x <- m ;; k" := (bind m (fun x => k))
  (at level 61, m at next level, right associativity) : res_scope.
Notation "' p <- m ;; k" := (bind m (fun p => k))
  (at level 61, p pattern, m at next level, right associativity) : res_scope.
Notation "m ;;; k" := (bind m (fun _ => k))
  (at level 61, right associativity) : res_scope.
Open Scope res_scope.

Definition is_ok {A : Type} (m : res A) : bool :=
  match m with Ok _ => true | Raise _ => false end.

(* ------------------------------------------------------------------ *)
(** ** Text

    A Python [str] is a sequence of Unicode code points. *)

Definition char : Set := N.
Definition str : Set := list char.

(** The code points of an ASCII literal of the source. *)
Definition u (s : string) : str := map N_of_ascii (list_ascii_of_string s).

Fixpoint str_eqb (a b : str) : bool :=
  match a, b with
  | [], [] => true
  | x :: a', y :: b' => N.eqb x y && str_eqb a' b'
  | _, _ => false
  end.

Fixpoint starts_with (p s : str) : option str :=
  match p, s with
  | [], _ => Some s
  | c :: p', d :: s' => if N.eqb c d then starts_with p' s' else None
  | _ :: _, [] => None
  end.

Fixpoint join (sep : str) (parts : list str) : str :=
  match parts with
  | [] => []
  | [p] => p
  | p :: rest => p ++ sep ++ join sep rest
  end.

(* ------------------------------------------------------------------ *)
(** ** Python values *)

Definition float : Set := spec_float.

Inductive pyval : Set :=
| PyNone
| PyBool (b : bool)
| PyInt (z : Z)
| PyFloat (f : float)
| PyStr (s : str)
| PyList (l : list pyval)
| PyTuple (l : list pyval)
| PyDict (kvs : list (pyval * pyval)).

(** A [dict] keeps insertion order; [d[k] = v] replaces the value of an
    existing key in place and appends a new key.  Only [str] keys are ever
    assigned by the models, and a [str] is equal to no value of another
    type. *)
Definition dict : Set := list (pyval * pyval).

Definition key_is (k : str) (key : pyval) : bool :=
  match key with
  | PyStr k' => str_eqb k k'
  | _ => false
  end.

Fixpoint dict_get (k : str) (d : dict) : option pyval :=
  match d with
  | [] => None
  | (key, v) :: d' => if key_is k key then Some v else dict_get k d'
  end.

Definition dict_mem (k : str) (d : dict) : bool :=
  match dict_get k d with Some _ => true | None => false end.

Fixpoint dict_set (k : str) (v : pyval) (d : dict) : dict :=
  match d with
  | [] => [(PyStr k, v)]
  | (key, w) :: d' =>
      if key_is k key then (key, v) :: d' else (key, w) :: dict_set k v d'
  end.

(** [dict(pairs)] for pairs with [str] keys, as [json.loads] builds the
    value of a JSON object: a repeated key keeps its first position and
    its last value. *)
Fixpoint dict_of_pairs_from (d : dict) (pairs : list (str * pyval)) : dict :=
  match pairs with
  | [] => d
  | (k, v) :: rest => dict_of_pairs_from (dict_set k v d) rest
  end.

Definition dict_of_pairs (pairs : list (str * pyval)) : dict :=
  dict_of_pairs_from [] pairs.

(* ------------------------------------------------------------------ *)
(** ** Floating point: IEEE 754 binary64, as [SpecFloat] specifies it *)

Definition prec : Z := 53.
Definition emax : Z := 1024.

Definition float_of_Z (z : Z) : float :=
  match z with
  | Z0 => S754_zero false
  | Zpos p => S754_finite false p 0
  | Zneg p => S754_finite true p 0
  end.

Definition is_finite (x : float) : bool :=
  match x with
  | S754_zero _ | S754_finite _ _ _ => true
  | _ => false
  end.

(** [a / b] on two [int]s ([long_true_divide]): the quotient correctly
    rounded to binary64; [ZeroDivisionError] for [b = 0], [OverflowError]
    when the quotient is too large for a float. *)
Definition int_truediv (a b : Z) : res float :=
  if Z.eqb b 0 then Raise ZeroDivisionError
  else
    let q := SFdiv prec emax (float_of_Z a) (float_of_Z b) in
    if is_finite q then Ok q else Raise OverflowError.

(** Round the fraction [num / den] ([den > 0], [num >= 0]) to the nearest
    integer, ties to even. *)
Definition round_half_even (num den : Z) : Z :=
  let q := Z.div num den in
  let r := Z.modulo num den in
  match Z.compare (2 * r) den with
  | Lt => q
  | Gt => q + 1
  | Eq => if Z.even q then q else q + 1
  end.

(** The magnitude [m * 2^e] scaled by [10^ndigits], as a fraction. *)
Definition scaled_num (m : positive) (e ndigits : Z) : Z :=
  Zpos m * 2 ^ Z.max e 0 * 10 ^ Z.max ndigits 0.
Definition scaled_den (e ndigits : Z) : Z :=
  2 ^ Z.max (- e) 0 * 10 ^ Z.max (- ndigits) 0.

(** The integer [T] such that [T * 10^-ndigits] is the decimal nearest to
    [m * 2^e] with [ndigits] digits after the point (ties to even). *)
Definition decimal_units (m : positive) (e ndigits : Z) : Z :=
  round_half_even (scaled_num m e ndigits) (scaled_den e ndigits).

(** [round(x, ndigits)] on a float ([float.__round__], [double_round]): the
    value is rounded to a decimal string with [ndigits] digits after the
    point, correctly and ties to even on the exact binary value, and the
    string is converted back to the nearest float.  Zeros, infinities and
    NaN round to themselves; the sign is kept. *)
Definition float_round (x : float) (ndigits : Z) : res float :=
  match x with
  | S754_finite s m e =>
      let t := decimal_units m e ndigits in
      match t with
      | Zpos tp =>
          let r :=
            if Z.leb 0 ndigits
            then SFdiv prec emax (S754_finite s tp 0)
                       (float_of_Z (10 ^ ndigits))
            else binary_normalize prec emax
                   ((if s then Zneg tp else Zpos tp) * 10 ^ (- ndigits)) 0 s in
          if is_finite r then Ok r else Raise OverflowError
      | _ => Ok (S754_zero s)
      end
  | _ => Ok x
  end.

(* ------------------------------------------------------------------ *)
(** ** Decimal integers: [int.__repr__] and [int(text)] *)

Fixpoint uint_chars (d : uint) : str :=
  match d with
  | Nil => []
  | D0 d' => 48%N :: uint_chars d'
  | D1 d' => 49%N :: uint_chars d'
  | D2 d' => 50%N :: uint_chars d'
  | D3 d' => 51%N :: uint_chars d'
  | D4 d' => 52%N :: uint_chars d'
  | D5 d' => 53%N :: uint_chars d'
  | D6 d' => 54%N :: uint_chars d'
  | D7 d' => 55%N :: uint_chars d'
  | D8 d' => 56%N :: uint_chars d'
  | D9 d' => 57%N :: uint_chars d'
  end.

Definition MINUS : char := 45%N.

Definition int_repr (z : Z) : str :=
  match Z.to_int z with
  | Pos d => uint_chars d
  | Neg d => MINUS :: uint_chars d
  end.

Definition is_digit (c : char) : bool := (48 <=? c)%N && (c <=? 57)%N.

Definition cons_digit (c : char) (d : uint) : uint :=
  match N.to_nat (c - 48) with
  | 0%nat => D0 d
  | 1%nat => D1 d
  | 2%nat => D2 d
  | 3%nat => D3 d
  | 4%nat => D4 d
  | 5%nat => D5 d
  | 6%nat => D6 d
  | 7%nat => D7 d
  | 8%nat => D8 d
  | _ => D9 d
  end.

(** The longest prefix of decimal digits, and what follows it. *)
Fixpoint take_digits (s : str) : uint * str :=
  match s with
  | c :: r =>
      if is_digit c
      then let (d, rest) := take_digits r in (cons_digit c d, rest)
      else (Nil, s)
  | [] => (Nil, [])
  end.

(* ------------------------------------------------------------------ *)
(** ** Decimal text and floats: [float(text)] and [float.__repr__] *)

(** The float nearest to [m * 10^e] ([m >= 0]) with sign [neg]; an
    overflow gives an infinity, as [float(text)] does. *)
Definition float_of_decimal (neg : bool) (m e : Z) : float :=
  match m with
  | Zpos p =>
      if Z.leb 0 e
      then binary_normalize prec emax
             ((if neg then Zneg p else Zpos p) * 10 ^ e) 0 neg
      else SFdiv prec emax (S754_finite neg p 0) (float_of_Z (10 ^ (- e)))
  | _ => S754_zero neg
  end.

(** Does [m * 2^e < 10^k] hold? *)
Definition below_pow10 (m : positive) (e k : Z) : bool :=
  Z.ltb (Zpos m * 2 ^ Z.max e 0 * 10 ^ Z.max (- k) 0)
        (10 ^ Z.max k 0 * 2 ^ Z.max (- e) 0).

(** The decimal exponent [k] of [m * 2^e]: [10^(k-1) <= m * 2^e < 10^k],
    found next to an estimate from the binary exponent. *)
Definition decimal_exponent (m : positive) (e : Z) : Z :=
  let k0 := ((Zpos (digits2_pos m) + e - 1) * 30103) / 100000 in
  if below_pow10 m e (k0 - 1) then k0 - 1
  else if below_pow10 m e k0 then k0
  else if below_pow10 m e (k0 + 1) then k0 + 1
  else k0 + 2.

(** The shortest decimal [D * 10^q] with [n] digits that reads back as the
    float [m * 2^e], if one of the two [n]-digit neighbours does; of two
    that do, the nearer one (ties to even). *)
Definition shortest_candidate (m : positive) (e k : Z) (n : Z)
  : option (Z * Z) :=
  let q := k - n in
  let num := Zpos m * 2 ^ Z.max e 0 * 10 ^ Z.max (- q) 0 in
  let den := 2 ^ Z.max (- e) 0 * 10 ^ Z.max q 0 in
  let lo := Z.div num den in
  let hi := lo + 1 in
  let x := S754_finite false m e in
  let ok v := SFeqb (float_of_decimal false v q) x in
  match ok lo, ok hi with
  | true, true => Some (round_half_even num den, q)
  | true, false => Some (lo, q)
  | false, true => Some (hi, q)
  | false, false => None
  end.

Fixpoint shortest_digits (fuel : nat) (m : positive) (e k : Z) (n : Z)
  : Z * Z :=
  match shortest_candidate m e k n with
  | Some r => r
  | None =>
      match fuel with
      | O => (round_half_even
                (Zpos m * 2 ^ Z.max e 0 * 10 ^ Z.max (- (k - n)) 0)
                (2 ^ Z.max (- e) 0 * 10 ^ Z.max (k - n) 0), k - n)
      | S fuel' => shortest_digits fuel' m e k (n + 1)
      end
  end.

Fixpoint strip_zeros (l : str) : str :=
  match l with
  | [] => []
  | c :: r =>
      match strip_zeros r with
      | [] => if N.eqb c 48 then [] else [c]
      | r' => c :: r'
      end
  end.

Definition zeros (n : Z) : str := repeat 48%N (Z.to_nat n).

Definition DOT : char := 46%N.

(** [repr] of a positive finite float from its shortest digits [ds] and
    the position [decpt] of the decimal point ([0.ds * 10^decpt]):
    scientific notation when [decpt <= -4] or [decpt > 16]. *)
Definition format_repr (ds : str) (decpt : Z) : str :=
  let n := Z.of_nat (length ds) in
  if Z.leb decpt (-4) || Z.ltb 16 decpt then
    let ex := decpt - 1 in
    let mant :=
      match ds with
      | [] => []
      | [d] => [d]
      | d :: r => d :: DOT :: r
      end in
    let exd := int_repr (Z.abs ex) in
    mant ++ [101%N; if Z.ltb ex 0 then 45%N else 43%N]
         ++ (if Z.ltb (Z.abs ex) 10 then 48%N :: exd else exd)
  else if Z.leb decpt 0 then
    48%N :: DOT :: zeros (- decpt) ++ ds
  else if Z.leb n decpt then
    ds ++ zeros (decpt - n) ++ [DOT; 48%N]
  else
    firstn (Z.to_nat decpt) ds ++ DOT :: skipn (Z.to_nat decpt) ds.

(** [float.__repr__] of a finite float. *)
Definition float_repr (x : float) : str :=
  match x with
  | S754_zero false => [48; DOT; 48]%N
  | S754_zero true => [MINUS; 48; DOT; 48]%N
  | S754_finite s m e =>
      let k := decimal_exponent m e in
      let '(d, q) := shortest_digits 16 m e k 1 in
      let all := int_repr d in
      let ds := strip_zeros all in
      let decpt := Z.of_nat (length all) + q in
      (if s then [MINUS] else []) ++ format_repr ds decpt
  | S754_infinity false => u "inf"
  | S754_infinity true => u "-inf"
  | S754_nan => u "nan"
  end.

(* ------------------------------------------------------------------ *)
(** ** [json.dumps] with its default options

    [ensure_ascii=True], [allow_nan=True], separators [", "] and [": "],
    [skipkeys=False], no [default] hook. *)

Definition QUOTE : char := 34%N.
Definition BACKSLASH : char := 92%N.
Definition COMMA : char := 44%N.
Definition COLON : char := 58%N.
Definition LBRACKET : char := 91%N.
Definition RBRACKET : char := 93%N.
Definition LBRACE : char := 123%N.
Definition RBRACE : char := 125%N.
Definition LETTER_u : char := 117%N.

Definition hex_digit (d : N) : char :=
  if (d <? 10)%N then (48 + d)%N else (87 + d)%N.

(** The escape of a UTF-16 code unit: a backslash, [u] and four lowercase
    hexadecimal digits. *)
Definition u_escape (c : N) : str :=
  [BACKSLASH; LETTER_u;
   hex_digit ((c / 4096) mod 16)%N; hex_digit ((c / 256) mod 16)%N;
   hex_digit ((c / 16) mod 16)%N; hex_digit (c mod 16)%N].

Definition escape_char (c : char) : str :=
  if N.eqb c QUOTE then [BACKSLASH; QUOTE]
  else if N.eqb c BACKSLASH then [BACKSLASH; BACKSLASH]
  else if N.eqb c 10 then [BACKSLASH; 110%N]
  else if N.eqb c 13 then [BACKSLASH; 114%N]
  else if N.eqb c 9 then [BACKSLASH; 116%N]
  else if N.eqb c 8 then [BACKSLASH; 98%N]
  else if N.eqb c 12 then [BACKSLASH; 102%N]
  else if (32 <=? c)%N && (c <=? 126)%N then [c]
  else if (c <? 65536)%N then u_escape c
  else
    let v := (c - 65536)%N in
    u_escape (55296 + (v / 1024) mod 1024)%N
    ++ u_escape (56320 + v mod 1024)%N.

Fixpoint escape (s : str) : str :=
  match s with
  | [] => []
  | c :: r => escape_char c ++ escape r
  end.

Definition encode_basestring_ascii (s : str) : str :=
  QUOTE :: escape s ++ [QUOTE].

(** A float as the encoder writes it: [float.__repr__], and the JavaScript
    names of the non-finite values. *)
Definition encode_float (f : float) : str :=
  match f with
  | S754_nan => u "NaN"
  | S754_infinity false => u "Infinity"
  | S754_infinity true => u "-Infinity"
  | _ => float_repr f
  end.

(** The text of a dictionary key: [str] keys as they are, [int], [float],
    [bool] and [None] keys converted, any other key a [TypeError]. *)
Definition encode_key (k : pyval) : res str :=
  match k with
  | PyStr s => Ok s
  | PyFloat f => Ok (encode_float f)
  | PyBool true => Ok (u "true")
  | PyBool false => Ok (u "false")
  | PyNone => Ok (u "null")
  | PyInt z => Ok (int_repr z)
  | _ => Raise TypeError
  end.

Fixpoint encode_items (enc : pyval -> res str) (l : list pyval) : res str :=
  match l with
  | [] => Ok []
  | x :: r =>
      t <- enc x ;;
      match r with
      | [] => Ok t
      | _ => ts <- encode_items enc r ;; Ok (t ++ u ", " ++ ts)
      end
  end.

Fixpoint encode_pairs (enc : pyval -> res str) (kvs : list (pyval * pyval))
  : res str :=
  match kvs with
  | [] => Ok []
  | (k, v) :: r =>
      ks <- encode_key k ;;
      t <- enc v ;;
      let item := encode_basestring_ascii ks ++ u ": " ++ t in
      match r with
      | [] => Ok item
      | _ => ts <- encode_pairs enc r ;; Ok (item ++ u ", " ++ ts)
      end
  end.

Fixpoint json_dumps (o : pyval) : res str :=
  match o with
  | PyNone => Ok (u "null")
  | PyBool true => Ok (u "true")
  | PyBool false => Ok (u "false")
  | PyInt z => Ok (int_repr z)
  | PyFloat f => Ok (encode_float f)
  | PyStr s => Ok (encode_basestring_ascii s)
  | PyList l | PyTuple l =>
      t <- encode_items json_dumps l ;; Ok (LBRACKET :: t ++ [RBRACKET])
  | PyDict kvs =>
      t <- encode_pairs json_dumps kvs ;; Ok (LBRACE :: t ++ [RBRACE])
  end.

(* ------------------------------------------------------------------ *)
(** ** [json.loads] on a [str], with its default options (the C scanner,
    [strict=True]) *)

Definition is_ws (c : char) : bool :=
  N.eqb c 32 || N.eqb c 9 || N.eqb c 10 || N.eqb c 13.

Fixpoint skip_ws (s : str) : str :=
  match s with
  | c :: r => if is_ws c then skip_ws r else s
  | [] => []
  end.

Definition hex_value (c : char) : option N :=
  if (48 <=? c)%N && (c <=? 57)%N then Some (c - 48)%N
  else if (97 <=? c)%N && (c <=? 102)%N then Some (c - 87)%N
  else if (65 <=? c)%N && (c <=? 70)%N then Some (c - 55)%N
  else None.

Definition hex4 (a b c d : char) : option N :=
  match hex_value a, hex_value b, hex_value c, hex_value d with
  | Some x, Some y, Some z, Some w =>
      Some (((x * 16 + y) * 16 + z) * 16 + w)%N
  | _, _, _, _ => None
  end.

Definition is_high_surrogate (c : N) : bool :=
  (55296 <=? c)%N && (c <=? 56319)%N.
Definition is_low_surrogate (c : N) : bool :=
  (56320 <=? c)%N && (c <=? 57343)%N.
Definition join_surrogates (hi lo : N) : N :=
  (65536 + (hi - 55296) * 1024 + (lo - 56320))%N.

(** The character a one-letter escape stands for. *)
Definition short_escape (e : char) : option char :=
  if N.eqb e QUOTE then Some QUOTE
  else if N.eqb e BACKSLASH then Some BACKSLASH
  else if N.eqb e 47 then Some 47%N
  else if N.eqb e 98 then Some 8%N
  else if N.eqb e 102 then Some 12%N
  else if N.eqb e 110 then Some 10%N
  else if N.eqb e 114 then Some 13%N
  else if N.eqb e 116 then Some 9%N
  else None.

(** [scanstring]: the text after an opening quote, up to the closing
    quote; returns the decoded string and the text after the quote. *)
Fixpoint scanstring (s : str) : res (str * str) :=
  match s with
  | [] => Raise JSONDecodeError
  | c :: r =>
      if N.eqb c QUOTE then Ok ([], r)
      else if N.eqb c BACKSLASH then
        match r with
        | [] => Raise JSONDecodeError
        | e :: r1 =>
            if N.eqb e LETTER_u then
              match r1 with
              | h1 :: h2 :: h3 :: h4 :: r2 =>
                  match hex4 h1 h2 h3 h4 with
                  | None => Raise JSONDecodeError
                  | Some cu =>
                      let lone :=
                        ('(x, rest) <- scanstring r2 ;; Ok (cu :: x, rest)) in
                      if is_high_surrogate cu then
                        match r2 with
                        | b :: l :: g1 :: g2 :: g3 :: g4 :: r3 =>
                            if N.eqb b BACKSLASH && N.eqb l LETTER_u then
                              match hex4 g1 g2 g3 g4 with
                              | None => Raise JSONDecodeError
                              | Some cu2 =>
                                  if is_low_surrogate cu2 then
                                    '(x, rest) <- scanstring r3 ;;
                                    Ok (join_surrogates cu cu2 :: x, rest)
                                  else lone
                              end
                            else lone
                        | _ => lone
                        end
                      else lone
                  end
              | _ => Raise JSONDecodeError
              end
            else
              match short_escape e with
              | Some d => '(x, rest) <- scanstring r1 ;; Ok (d :: x, rest)
              | None => Raise JSONDecodeError
              end
        end
      else if (c <? 32)%N then Raise JSONDecodeError
      else '(x, rest) <- scanstring r ;; Ok (c :: x, rest)
  end.

(** The number grammar: an optional minus sign; an integer part, either a
    single zero or a nonzero digit followed by digits; an optional
    fraction, a dot followed by one digit or more; an optional exponent,
    the letter e in either case, an optional sign and one digit or more. *)
Definition match_integer (s : str) : option (uint * str) :=
  match s with
  | c :: r =>
      if N.eqb c 48 then Some (D0 Nil, r)
      else if is_digit c then Some (take_digits s)
      else None
  | [] => None
  end.

Definition match_frac (s : str) : option (uint * str) :=
  match s with
  | d :: c :: r =>
      if N.eqb d DOT && is_digit c then Some (take_digits (c :: r)) else None
  | _ => None
  end.

(** The sign of an exponent: a sign is read only when a digit follows. *)
Definition exp_sign (r : str) : bool * str :=
  match r with
  | sg :: c :: r' =>
      if (N.eqb sg 43 || N.eqb sg MINUS) && is_digit c
      then (N.eqb sg MINUS, c :: r')
      else (false, r)
  | _ => (false, r)
  end.

Definition match_exp (s : str) : option (bool * uint * str) :=
  match s with
  | e :: r =>
      if N.eqb e 101 || N.eqb e 69 then
        let '(neg, r1) := exp_sign r in
        match take_digits r1 with
        | (Nil, _) => None
        | (d, rest) => Some (neg, d, rest)
        end
      else None
  | [] => None
  end.

(** The float a literal with a fraction or an exponent denotes:
    [float(text)]. *)
Definition float_of_literal (neg : bool) (i : uint) (frac : option uint)
  (ex : option (bool * uint)) : float :=
  let f := match frac with Some f => f | None => Nil end in
  let m := Z.of_uint (app i f) in
  let e10 :=
    match ex with
    | Some (true, d) => - Z.of_uint d
    | Some (false, d) => Z.of_uint d
    | None => 0
    end in
  float_of_decimal neg m (e10 - Z.of_nat (nb_digits f)).

(** A number without its sign; [neg] tells whether a minus sign came
    before it. *)
Definition match_unsigned (neg : bool) (s1 : str) : option (pyval * str) :=
  match match_integer s1 with
  | None => None
  | Some (i, s2) =>
      let '(frac, s3) :=
        match match_frac s2 with
        | Some (f, r) => (Some f, r)
        | None => (None, s2)
        end in
      let '(ex, s4) :=
        match match_exp s3 with
        | Some (n, d, r) => (Some (n, d), r)
        | None => (None, s3)
        end in
      match frac, ex with
      | None, None => Some (PyInt (Z.of_int (if neg then Neg i else Pos i)), s4)
      | _, _ => Some (PyFloat (float_of_literal neg i frac ex), s4)
      end
  end.

Definition match_number (s : str) : option (pyval * str) :=
  match s with
  | c :: r =>
      if N.eqb c MINUS then match_unsigned true r else match_unsigned false s
  | [] => None
  end.

(** The elements of an array after the first one has been found to exist:
    a value, then [,] and another element or the closing bracket.  [n]
    bounds the number of elements by the length of the text. *)
Fixpoint array_items (scan : str -> res (pyval * str)) (n : nat) (s : str)
  : res (list pyval * str) :=
  match n with
  | O => Raise RecursionError
  | S n' =>
      '(v, s1) <- scan s ;;
      match skip_ws s1 with
      | c :: s2 =>
          if N.eqb c RBRACKET then Ok ([v], s2)
          else if N.eqb c COMMA then
            '(vs, rest) <- array_items scan n' (skip_ws s2) ;;
            Ok (v :: vs, rest)
          else Raise JSONDecodeError
      | [] => Raise JSONDecodeError
      end
  end.

Definition JSONArray (scan : str -> res (pyval * str)) (s : str)
  : res (pyval * str) :=
  match skip_ws s with
  | c :: r =>
      if N.eqb c RBRACKET then Ok (PyList [], r)
      else
        '(vs, rest) <- array_items scan (length s) (c :: r) ;;
        Ok (PyList vs, rest)
  | [] => Raise JSONDecodeError
  end.

(** The members of an object, from just after the opening quote of a
    key. *)
Fixpoint object_items (scan : str -> res (pyval * str)) (n : nat) (s : str)
  : res (list (str * pyval) * str) :=
  match n with
  | O => Raise RecursionError
  | S n' =>
      '(key, s1) <- scanstring s ;;
      match skip_ws s1 with
      | c :: s2 =>
          if N.eqb c COLON then
            '(v, s3) <- scan (skip_ws s2) ;;
            match skip_ws s3 with
            | d :: s4 =>
                if N.eqb d RBRACE then Ok ([(key, v)], s4)
                else if N.eqb d COMMA then
                  match skip_ws s4 with
                  | q :: s5 =>
                      if N.eqb q QUOTE then
                        '(kvs, rest) <- object_items scan n' s5 ;;
                        Ok ((key, v) :: kvs, rest)
                      else Raise JSONDecodeError
                  | [] => Raise JSONDecodeError
                  end
                else Raise JSONDecodeError
            | [] => Raise JSONDecodeError
            end
          else Raise JSONDecodeError
      | [] => Raise JSONDecodeError
      end
  end.

Definition JSONObject (scan : str -> res (pyval * str)) (s : str)
  : res (pyval * str) :=
  match skip_ws s with
  | c :: r =>
      if N.eqb c RBRACE then Ok (PyDict [], r)
      else if N.eqb c QUOTE then
        '(kvs, rest) <- object_items scan (length s) r ;;
        Ok (PyDict (dict_of_pairs kvs), rest)
      else Raise JSONDecodeError
  | [] => Raise JSONDecodeError
  end.

Definition literal (name : string) (v : pyval) (s : str)
  : option (pyval * str) :=
  match starts_with (u name) s with
  | Some rest => Some (v, rest)
  | None => None
  end.

(** [scan_once]: one JSON value at the head of the text.  [depth] bounds
    the nesting of arrays and objects (the interpreter's recursion
    limit). *)
Fixpoint scan_once (depth : nat) (s : str) : res (pyval * str) :=
  match depth with
  | O => Raise RecursionError
  | S depth' =>
      match s with
      | [] => Raise JSONDecodeError
      | c :: r =>
          if N.eqb c QUOTE then
            '(x, rest) <- scanstring r ;; Ok (PyStr x, rest)
          else if N.eqb c LBRACE then JSONObject (scan_once depth') r
          else if N.eqb c LBRACKET then JSONArray (scan_once depth') r
          else
            match literal "null" PyNone s with
            | Some v => Ok v
            | None =>
            match literal "true" (PyBool true) s with
            | Some v => Ok v
            | None =>
            match literal "false" (PyBool false) s with
            | Some v => Ok v
            | None =>
            match match_number s with
            | Some v => Ok v
            | None =>
            match literal "NaN" (PyFloat S754_nan) s with
            | Some v => Ok v
            | None =>
            match literal "Infinity" (PyFloat (S754_infinity false)) s with
            | Some v => Ok v
            | None =>
            match literal "-Infinity" (PyFloat (S754_infinity true)) s with
            | Some v => Ok v
            | None => Raise JSONDecodeError
            end end end end end end end
      end
  end.

Definition BOM : char := 65279%N.

(** [json.loads(s)]: leading whitespace, one value, trailing whitespace,
    and nothing else.  The recursion limit of the interpreter is not
    modelled: the depth given here is more than the nesting a text of
    this length can have, so the bound is never what stops the reader. *)
Definition json_loads (s : str) : res pyval :=
  match s with
  | c :: _ => if N.eqb c BOM then Raise JSONDecodeError else Ok tt
  | [] => Ok tt
  end ;;;
  '(v, rest) <- scan_once (S (length s)) (skip_ws s) ;;
  match skip_ws rest with
  | [] => Ok v
  | _ :: _ => Raise JSONDecodeError
  end.

(* ------------------------------------------------------------------ *)
(** ** [datetime] (naive, as [datetime.utcnow()] returns it) *)

Record datetime : Set := {
  year : Z; month : Z; day : Z;
  hour : Z; minute : Z; second : Z; microsecond : Z
}.

(** A number padded with zeros to [width] digits. *)
Definition pad (width : nat) (z : Z) : str :=
  let d := int_repr z in
  repeat 48%N (width - length d) ++ d.

(** [datetime.isoformat()]: [YYYY-MM-DDTHH:MM:SS], and [.ffffff] when the
    microsecond is not zero. *)
Definition isoformat (t : datetime) : str :=
  pad 4 (year t) ++ u "-" ++ pad 2 (month t) ++ u "-" ++ pad 2 (day t)
  ++ u "T" ++ pad 2 (hour t) ++ u ":" ++ pad 2 (minute t)
  ++ u ":" ++ pad 2 (second t)
  ++ (if Z.eqb (microsecond t) 0 then [] else u "." ++ pad 6 (microsecond t)).

(* ------------------------------------------------------------------ *)
(** ** Column values as Python values

    A column holds a value of its type or [None] (SQL NULL). *)

Definition py_int (c : option Z) : pyval :=
  match c with Some z => PyInt z | None => PyNone end.
Definition py_str (c : option str) : pyval :=
  match c with Some s => PyStr s | None => PyNone end.
Definition py_bool (c : option bool) : pyval :=
  match c with Some b => PyBool b | None => PyNone end.
(** [t.isoformat() if t else None]: a [datetime] is always true. *)
Definition py_iso (c : option datetime) : pyval :=
  match c with Some t => PyStr (isoformat t) | None => PyNone end.

(** [json.loads(text) if text else empty]: the read accessor of every
    JSON-encoded column.  [None] and the empty string are false. *)
Definition decode_column (c : option str) (empty : pyval) : res pyval :=
  match c with
  | Some (ch :: r) => json_loads (ch :: r)
  | Some [] | None => Ok empty
  end.

(** Do a foreign key and a primary key hold the same, non-NULL, value? *)
Definition fk_matches (fk pk : option Z) : bool :=
  match fk, pk with
  | Some a, Some b => Z.eqb a b
  | _, _ => false
  end.

(* ------------------------------------------------------------------ *)
(** ** The tables: one record per row, one field per column *)

Module users.
Record row : Set := {
  id : option Z;
  username : option str;
  email : option str;
  password_hash : option str;
  first_name : option str;
  last_name : option str;
  bio : option str;
  profile_picture : option str;
  dietary_preferences : option str;
  cooking_level : option str;
  is_active : option bool;
  is_verified : option bool;
  created_at : option datetime;
  updated_at : option datetime;
  last_login : option datetime
}.
End users.

Module recipes.
Record row : Set := {
  id : option Z;
  title : option str;
  description : option str;
  ingredients : option str;
  instructions : option str;
  prep_time : option Z;
  cook_time : option Z;
  total_time : option Z;
  servings : option Z;
  difficulty : option str;
  category : option str;
  tags : option str;
  cuisine_type : option str;
  image_url : option str;
  video_url : option str;
  calories_per_serving : option Z;
  nutritional_info : option str;
  is_public : option bool;
  is_swappable : option bool;
  rating_sum : option Z;
  rating_count : option Z;
  author_id : option Z;
  created_at : option datetime;
  updated_at : option datetime
}.
End recipes.

Module reviews.
Record row : Set := {
  id : option Z;
  rating : option Z;
  comment : option str;
  helpful_count : option Z;
  recipe_id : option Z;
  reviewer_id : option Z;
  created_at : option datetime;
  updated_at : option datetime
}.

(** [rating], [recipe_id] and [reviewer_id] are declared
    [nullable=False]. *)
Definition not_null_columns (r : row) : bool :=
  match rating r, recipe_id r, reviewer_id r with
  | Some _, Some _, Some _ => true
  | _, _, _ => false
  end.

(** [UniqueConstraint('recipe_id', 'reviewer_id',
    name='unique_recipe_reviewer')]: do two rows hold the same pair? *)
Definition same_recipe_reviewer (a b : row) : bool :=
  fk_matches (recipe_id a) (recipe_id b)
  && fk_matches (reviewer_id a) (reviewer_id b).

Definition with_defaults (self : row) (pk : Z) (now : datetime) : row :=
  {| id := Some pk; rating := rating self; comment := comment self;
     helpful_count :=
       match helpful_count self with Some h => Some h | None => Some 0 end;
     recipe_id := recipe_id self; reviewer_id := reviewer_id self;
     created_at :=
       match created_at self with Some t => Some t | None => Some now end;
     updated_at :=
       match updated_at self with Some t => Some t | None => Some now end |}.
End reviews.

Module recipe_swaps.
Record row : Set := {
  id : option Z;
  requester_id : option Z;
  owner_id : option Z;
  recipe_id : option Z;
  message : option str;
  offered_recipe_ids : option str;
  status : option str;
  response_message : option str;
  created_at : option datetime;
  updated_at : option datetime;
  completed_at : option datetime
}.

(** [requester_id], [owner_id] and [recipe_id] are declared
    [nullable=False]. *)
Definition requester_id_nullable : bool := false.
Definition owner_id_nullable : bool := false.
Definition recipe_id_nullable : bool := false.

Definition with_participants (self : row) (req own : option Z) : row :=
  {| id := id self; requester_id := req; owner_id := own;
     recipe_id := recipe_id self; message := message self;
     offered_recipe_ids := offered_recipe_ids self;
     status := status self; response_message := response_message self;
     created_at := created_at self; updated_at := updated_at self;
     completed_at := completed_at self |}.
End recipe_swaps.

(** The rows a session sees: the state of the database.  The two
    association tables of models.py ([user_follows],
    [recipe_collections]) have no mapped class and no relationship: no
    operation below reads or writes them. *)
Record session : Set := {
  users_tbl : list users.row;
  recipes_tbl : list recipes.row;
  reviews_tbl : list reviews.row;
  recipe_swaps_tbl : list recipe_swaps.row
}.

(** A many-to-one attribute ([backref]): the row the foreign key names. *)
Definition get_user (db : session) (fk : option Z) : option users.row :=
  find (fun x => fk_matches fk (users.id x)) (users_tbl db).
Definition get_recipe (db : session) (fk : option Z) : option recipes.row :=
  find (fun x => fk_matches fk (recipes.id x)) (recipes_tbl db).

(* ------------------------------------------------------------------ *)
(** ** class User *)

Module User.
Import users.

(** [recipes = db.relationship('Recipe', backref='author', ...)] *)
Definition recipes (db : session) (self : row) : list recipes.row :=
  filter (fun r => fk_matches (recipes.author_id r) (id self))
         (recipes_tbl db).
Definition reviews (db : session) (self : row) : list reviews.row :=
  filter (fun r => fk_matches (reviews.reviewer_id r) (id self))
         (reviews_tbl db).
Definition sent_swaps (db : session) (self : row) : list recipe_swaps.row :=
  filter (fun s => fk_matches (recipe_swaps.requester_id s) (id self))
         (recipe_swaps_tbl db).
Definition received_swaps (db : session) (self : row)
  : list recipe_swaps.row :=
  filter (fun s => fk_matches (recipe_swaps.owner_id s) (id self))
         (recipe_swaps_tbl db).

Definition get_dietary_preferences (self : row) : res pyval :=
  decode_column (dietary_preferences self) (PyList []).

Definition set_dietary_preferences (self : row) (preferences : pyval)
  : res row :=
  t <- json_dumps preferences ;;
  Ok {| id := id self; username := username self; email := email self;
        password_hash := password_hash self;
        first_name := first_name self; last_name := last_name self;
        bio := bio self; profile_picture := profile_picture self;
        dietary_preferences := Some t;
        cooking_level := cooking_level self;
        is_active := is_active self; is_verified := is_verified self;
        created_at := created_at self; updated_at := updated_at self;
        last_login := last_login self |}.

Definition to_dict (db : session) (self : row) (include_email : bool)
  : res dict :=
  prefs <- get_dietary_preferences self ;;
  let data : dict :=
    [ (PyStr (u "id"), py_int (id self));
      (PyStr (u "username"), py_str (username self));
      (PyStr (u "first_name"), py_str (first_name self));
      (PyStr (u "last_name"), py_str (last_name self));
      (PyStr (u "bio"), py_str (bio self));
      (PyStr (u "profile_picture"), py_str (profile_picture self));
      (PyStr (u "dietary_preferences"), prefs);
      (PyStr (u "cooking_level"), py_str (cooking_level self));
      (PyStr (u "created_at"), py_iso (created_at self));
      (PyStr (u "recipe_count"),
       PyInt (Z.of_nat (length (recipes db self)))) ] in
  if include_email
  then Ok (dict_set (u "email") (py_str (email self)) data)
  else Ok data.
End User.

(* ------------------------------------------------------------------ *)
(** ** class Recipe *)

Module Recipe.
Import recipes.

Definition author (db : session) (self : row) : option users.row :=
  get_user db (author_id self).
Definition reviews (db : session) (self : row) : list reviews.row :=
  filter (fun r => fk_matches (reviews.recipe_id r) (id self))
         (reviews_tbl db).
Definition swaps (db : session) (self : row) : list recipe_swaps.row :=
  filter (fun s => fk_matches (recipe_swaps.recipe_id s) (id self))
         (recipe_swaps_tbl db).

(** [rating_count == 0] is false for [None]; [/] on [None] is a
    [TypeError]. *)
Definition average_rating (self : row) : res pyval :=
  match rating_count self with
  | Some 0 => Ok (PyInt 0)
  | _ =>
      match rating_sum self, rating_count self with
      | Some s, Some c =>
          q <- int_truediv s c ;;
          r <- float_round q 1 ;;
          Ok (PyFloat r)
      | _, _ => Raise TypeError
      end
  end.

Definition get_ingredients (self : row) : res pyval :=
  decode_column (ingredients self) (PyList []).
Definition get_tags (self : row) : res pyval :=
  decode_column (tags self) (PyList []).
Definition get_nutritional_info (self : row) : res pyval :=
  decode_column (nutritional_info self) (PyDict []).

(** The row with its three JSON-encoded columns replaced. *)
Definition with_encoded (self : row) (ing tg nut : option str) : row :=
  {| id := id self; title := title self; description := description self;
     ingredients := ing; instructions := instructions self;
     prep_time := prep_time self; cook_time := cook_time self;
     total_time := total_time self; servings := servings self;
     difficulty := difficulty self; category := category self;
     tags := tg; cuisine_type := cuisine_type self;
     image_url := image_url self; video_url := video_url self;
     calories_per_serving := calories_per_serving self;
     nutritional_info := nut;
     is_public := is_public self; is_swappable := is_swappable self;
     rating_sum := rating_sum self; rating_count := rating_count self;
     author_id := author_id self;
     created_at := created_at self; updated_at := updated_at self |}.

Definition set_ingredients (self : row) (ingredients : pyval) : res row :=
  t <- json_dumps ingredients ;;
  Ok (with_encoded self (Some t) (tags self) (nutritional_info self)).
Definition set_tags (self : row) (tags : pyval) : res row :=
  t <- json_dumps tags ;;
  Ok (with_encoded self (recipes.ingredients self) (Some t)
        (nutritional_info self)).
Definition set_nutritional_info (self : row) (nutrition : pyval)
  : res row :=
  t <- json_dumps nutrition ;;
  Ok (with_encoded self (recipes.ingredients self) (recipes.tags self)
        (Some t)).

Definition to_dict (db : session) (self : row) (include_author : bool)
  : res dict :=
  ing <- get_ingredients self ;;
  tg <- get_tags self ;;
  nut <- get_nutritional_info self ;;
  avg <- average_rating self ;;
  let data : dict :=
    [ (PyStr (u "id"), py_int (id self));
      (PyStr (u "title"), py_str (title self));
      (PyStr (u "description"), py_str (description self));
      (PyStr (u "ingredients"), ing);
      (PyStr (u "instructions"), py_str (instructions self));
      (PyStr (u "prep_time"), py_int (prep_time self));
      (PyStr (u "cook_time"), py_int (cook_time self));
      (PyStr (u "total_time"), py_int (total_time self));
      (PyStr (u "servings"), py_int (servings self));
      (PyStr (u "difficulty"), py_str (difficulty self));
      (PyStr (u "category"), py_str (category self));
      (PyStr (u "tags"), tg);
      (PyStr (u "cuisine_type"), py_str (cuisine_type self));
      (PyStr (u "image_url"), py_str (image_url self));
      (PyStr (u "video_url"), py_str (video_url self));
      (PyStr (u "calories_per_serving"),
       py_int (calories_per_serving self));
      (PyStr (u "nutritional_info"), nut);
      (PyStr (u "is_public"), py_bool (is_public self));
      (PyStr (u "is_swappable"), py_bool (is_swappable self));
      (PyStr (u "average_rating"), avg);
      (PyStr (u "rating_count"), py_int (rating_count self));
      (PyStr (u "created_at"), py_iso (created_at self));
      (PyStr (u "updated_at"), py_iso (updated_at self)) ] in
  if include_author then
    match author db self with
    | Some a =>
        ad <- User.to_dict db a false ;;
        Ok (dict_set (u "author") (PyDict ad) data)
    | None => Ok data
    end
  else Ok data.
End Recipe.

(* ------------------------------------------------------------------ *)
(** ** class Review *)

Module Review.
Import reviews.

Definition reviewer (db : session) (self : row) : option users.row :=
  get_user db (reviewer_id self).
Definition recipe (db : session) (self : row) : option recipes.row :=
  get_recipe db (recipe_id self).

Definition to_dict (db : session) (self : row) (include_reviewer : bool)
  : res dict :=
  let data : dict :=
    [ (PyStr (u "id"), py_int (id self));
      (PyStr (u "rating"), py_int (rating self));
      (PyStr (u "comment"), py_str (comment self));
      (PyStr (u "helpful_count"), py_int (helpful_count self));
      (PyStr (u "created_at"), py_iso (created_at self));
      (PyStr (u "updated_at"), py_iso (updated_at self)) ] in
  if include_reviewer then
    match reviewer db self with
    | Some a =>
        ad <- User.to_dict db a false ;;
        Ok (dict_set (u "reviewer") (PyDict ad) data)
    | None => Ok data
    end
  else Ok data.
End Review.

(* ------------------------------------------------------------------ *)
(** ** class RecipeSwap *)

Module RecipeSwap.
Import recipe_swaps.

Definition requester (db : session) (self : row) : option users.row :=
  get_user db (requester_id self).
Definition owner (db : session) (self : row) : option users.row :=
  get_user db (owner_id self).
Definition recipe (db : session) (self : row) : option recipes.row :=
  get_recipe db (recipe_id self).

Definition get_offered_recipe_ids (self : row) : res pyval :=
  decode_column (offered_recipe_ids self) (PyList []).

Definition set_offered_recipe_ids (self : row) (recipe_ids : pyval)
  : res row :=
  t <- json_dumps recipe_ids ;;
  Ok {| id := id self; requester_id := requester_id self;
        owner_id := owner_id self; recipe_id := recipe_id self;
        message := message self; offered_recipe_ids := Some t;
        status := status self;
        response_message := response_message self;
        created_at := created_at self; updated_at := updated_at self;
        completed_at := completed_at self |}.

(** [self.status = value]: the column is a plain attribute, so the
    assignment stores the value whatever the current status is.  (The
    declared length, [String(20)], is what the database allots to the
    column; the model class does not check it.) *)
Definition set_status (self : row) (value : option str) : res row :=
  Ok {| id := id self; requester_id := requester_id self;
        owner_id := owner_id self; recipe_id := recipe_id self;
        message := message self;
        offered_recipe_ids := offered_recipe_ids self;
        status := value;
        response_message := response_message self;
        created_at := created_at self; updated_at := updated_at self;
        completed_at := completed_at self |}.

(** The UPDATE of a changed row: [onupdate=datetime.utcnow] stamps
    [updated_at]; no other column has an [onupdate]. *)
Definition onupdate (now : datetime) (self : row) : row :=
  {| id := id self; requester_id := requester_id self;
     owner_id := owner_id self; recipe_id := recipe_id self;
     message := message self;
     offered_recipe_ids := offered_recipe_ids self;
     status := status self;
     response_message := response_message self;
     created_at := created_at self; updated_at := Some now;
     completed_at := completed_at self |}.

(** [swap.status = value] followed by a flush: a status transition. *)
Definition update_status (now : datetime) (self : row) (value : str)
  : res row :=
  r <- set_status self (Some value) ;; Ok (onupdate now r).

(** A run of status transitions, stopping at the first that raises. *)
Fixpoint update_statuses (now : datetime) (self : row) (values : list str)
  : res row :=
  match values with
  | [] => Ok self
  | v :: rest =>
      r <- update_status now self v ;; update_statuses now r rest
  end.

(** The INSERT defaults of the table: [status] is ['pending'],
    [created_at] and [updated_at] the current time; [completed_at] has
    no default. *)
Definition insert_defaults (now : datetime) (self : row) : row :=
  {| id := id self; requester_id := requester_id self;
     owner_id := owner_id self; recipe_id := recipe_id self;
     message := message self;
     offered_recipe_ids := offered_recipe_ids self;
     status :=
       match status self with Some s => Some s | None => Some (u "pending") end;
     response_message := response_message self;
     created_at :=
       match created_at self with Some t => Some t | None => Some now end;
     updated_at :=
       match updated_at self with Some t => Some t | None => Some now end;
     completed_at := completed_at self |}.

Definition to_dict (db : session) (self : row)
  (include_users include_recipe : bool) : res dict :=
  ids <- get_offered_recipe_ids self ;;
  let data : dict :=
    [ (PyStr (u "id"), py_int (id self));
      (PyStr (u "message"), py_str (message self));
      (PyStr (u "offered_recipe_ids"), ids);
      (PyStr (u "status"), py_str (status self));
      (PyStr (u "response_message"), py_str (response_message self));
      (PyStr (u "created_at"), py_iso (created_at self));
      (PyStr (u "updated_at"), py_iso (updated_at self));
      (PyStr (u "completed_at"), py_iso (completed_at self)) ] in
  data <-
    (if include_users then
       data <-
         match requester db self with
         | Some a =>
             ad <- User.to_dict db a false ;;
             Ok (dict_set (u "requester") (PyDict ad) data)
         | None => Ok data
         end ;;
       match owner db self with
       | Some a =>
           ad <- User.to_dict db a false ;;
           Ok (dict_set (u "owner") (PyDict ad) data)
       | None => Ok data
       end
     else Ok data) ;;
  if include_recipe then
    match recipe db self with
    | Some r =>
        rd <- Recipe.to_dict db r false ;;
        Ok (dict_set (u "recipe") (PyDict rd) data)
    | None => Ok data
    end
  else Ok data.
End RecipeSwap.

(* ------------------------------------------------------------------ *)
(** ** The store: INSERT under the declared constraints, and DELETE under
    the declared relationship cascades

    A statement that violates a constraint raises [IntegrityError] and the
    transaction is rolled back: the rows stay as they were. *)

(** The rows after an operation: its result, or the rows before it when it
    raised. *)
Definition after (db : session) (r : res session) : session :=
  match r with
  | Ok db' => db'
  | Raise _ => db
  end.

(** A fresh primary key: above every key in use. *)
Definition next_id (ids : list (option Z)) : Z :=
  1 + fold_right (fun i acc => match i with Some z => Z.max z acc | None => acc end)
                 0 ids.

(** [db.session.add(review); db.session.commit()]: the INSERT checks the
    NOT NULL columns, the primary key and [unique_recipe_reviewer]. *)
Definition add_review (now : datetime) (db : session) (r : reviews.row)
  : res session :=
  if negb (reviews.not_null_columns r) then Raise IntegrityError
  else if existsb (fun x => fk_matches (reviews.id r) (reviews.id x))
                  (reviews_tbl db)
  then Raise IntegrityError
  else if existsb (reviews.same_recipe_reviewer r) (reviews_tbl db)
  then Raise IntegrityError
  else
    let pk :=
      match reviews.id r with
      | Some i => i
      | None => next_id (map reviews.id (reviews_tbl db))
      end in
    Ok {| users_tbl := users_tbl db;
          recipes_tbl := recipes_tbl db;
          reviews_tbl := reviews_tbl db ++ [reviews.with_defaults r pk now];
          recipe_swaps_tbl := recipe_swaps_tbl db |}.

(** A one-to-many relationship without delete cascade: when the parent is
    deleted, the unit of work sets the foreign key of each child that
    stays to NULL, which a [nullable=False] column refuses. *)
Definition dissociate {row : Type} (nullable : bool) (refers : row -> bool)
  (set_null : row -> row) (rows : list row) : res (list row) :=
  if existsb refers rows then
    if nullable
    then Ok (map (fun r => if refers r then set_null r else r) rows)
    else Raise IntegrityError
  else Ok rows.

Definition is_recipe_of (gone : list recipes.row) (fk : option Z) : bool :=
  existsb (fun r => fk_matches fk (recipes.id r)) gone.

(** [db.session.delete(recipe); db.session.commit()]: [Recipe.reviews] and
    [Recipe.swaps] are declared [cascade='all, delete-orphan']. *)
Definition delete_recipe (db : session) (self : recipes.row) : res session :=
  Ok {| users_tbl := users_tbl db;
        recipes_tbl :=
          filter (fun r => negb (fk_matches (recipes.id r) (recipes.id self)))
                 (recipes_tbl db);
        reviews_tbl :=
          filter (fun r => negb (fk_matches (reviews.recipe_id r)
                                            (recipes.id self)))
                 (reviews_tbl db);
        recipe_swaps_tbl :=
          filter (fun s => negb (fk_matches (recipe_swaps.recipe_id s)
                                            (recipes.id self)))
                 (recipe_swaps_tbl db) |}.

(** [db.session.delete(user); db.session.commit()], for a user of the
    table.

    [User.recipes] and [User.reviews] are declared
    [cascade='all, delete-orphan'], and so are [Recipe.reviews] and
    [Recipe.swaps] of each recipe deleted with the user.  [User.sent_swaps]
    and [User.received_swaps] declare no cascade: the swaps of the user
    that are not deleted with a recipe are dissociated. *)
Definition delete_user (db : session) (self : users.row) : res session :=
  if negb (existsb (fun x => fk_matches (users.id x) (users.id self))
                   (users_tbl db))
  then Raise InvalidRequestError
  else
  let gone_recipe r := fk_matches (recipes.author_id r) (users.id self) in
  let gone := filter gone_recipe (recipes_tbl db) in
  let gone_review r :=
    fk_matches (reviews.reviewer_id r) (users.id self)
    || is_recipe_of gone (reviews.recipe_id r) in
  let gone_swap s := is_recipe_of gone (recipe_swaps.recipe_id s) in
  let swaps1 := filter (fun s => negb (gone_swap s)) (recipe_swaps_tbl db) in
  swaps2 <-
    dissociate recipe_swaps.requester_id_nullable
      (fun s => fk_matches (recipe_swaps.requester_id s) (users.id self))
      (fun s => recipe_swaps.with_participants s None
                  (recipe_swaps.owner_id s))
      swaps1 ;;
  swaps3 <-
    dissociate recipe_swaps.owner_id_nullable
      (fun s => fk_matches (recipe_swaps.owner_id s) (users.id self))
      (fun s => recipe_swaps.with_participants s
                  (recipe_swaps.requester_id s) None)
      swaps2 ;;
  Ok {| users_tbl :=
          filter (fun x => negb (fk_matches (users.id x) (users.id self)))
                 (users_tbl db);
        recipes_tbl := filter (fun r => negb (gone_recipe r)) (recipes_tbl db);
        reviews_tbl := filter (fun r => negb (gone_review r)) (reviews_tbl db);
        recipe_swaps_tbl := swaps3 |}.

(* ------------------------------------------------------------------ *)
(** ** Nesting of embedded views

    A view embeds another view under one of the keys [author],
    [reviewer], [requester], [owner] and [recipe]. *)

Definition embed_keys : list str :=
  [u "author"; u "reviewer"; u "requester"; u "owner"; u "recipe"].

Definition is_embed_key (k : pyval) : bool :=
  existsb (fun e => key_is e k) embed_keys.

(** The number of views on the longest chain of embedded views that ends
    in [v]: 0 for a value that is no dictionary, 1 for a view that embeds
    none. *)
Fixpoint view_height (v : pyval) : nat :=
  match v with
  | PyDict kvs =>
      S ((fix below (kvs : list (pyval * pyval)) : nat :=
            match kvs with
            | [] => O
            | (k, x) :: r =>
                Nat.max (if is_embed_key k then view_height x else O)
                        (below r)
            end) kvs)
  | _ => O
  end.

(** The levels of embedded views below the top level of [d]. *)
Definition nesting (d : dict) : nat := pred (view_height (PyDict d)).

(* ------------------------------------------------------------------ *)
(** ** Sample rows

    The scenario of the specification: alice writes "Tofu Scramble"; bob
    and carol review it; bob asks alice for the recipe. *)

Definition t0 : datetime :=
  {| year := 2024; month := 5; day := 17;
     hour := 9; minute := 30; second := 0; microsecond := 0 |}.

Definition sample_user (pk : Z) (name mail : string) : users.row :=
  {| users.id := Some pk; users.username := Some (u name);
     users.email := Some (u mail);
     users.password_hash := Some (u "pbkdf2:sha256:600000$salt$hash");
     users.first_name := None; users.last_name := None;
     users.bio := None; users.profile_picture := None;
     users.dietary_preferences := None;
     users.cooking_level := Some (u "beginner");
     users.is_active := Some true; users.is_verified := Some false;
     users.created_at := Some t0; users.updated_at := Some t0;
     users.last_login := None |}.

Definition alice : users.row := sample_user 1 "alice" "alice@example.com".
Definition bob : users.row := sample_user 2 "bob" "bob@example.com".
Definition carol : users.row := sample_user 3 "carol" "carol@example.com".

Definition sample_recipe (pk author : Z) (title : string)
  (ingredients : option str) (s c : Z) : recipes.row :=
  {| recipes.id := Some pk; recipes.title := Some (u title);
     recipes.description := None; recipes.ingredients := ingredients;
     recipes.instructions := Some (u "Crumble, season, fry.");
     recipes.prep_time := Some 5; recipes.cook_time := Some 10;
     recipes.total_time := Some 15; recipes.servings := Some 2;
     recipes.difficulty := Some (u "easy");
     recipes.category := Some (u "breakfast"); recipes.tags := None;
     recipes.cuisine_type := None; recipes.image_url := None;
     recipes.video_url := None; recipes.calories_per_serving := None;
     recipes.nutritional_info := None; recipes.is_public := Some true;
     recipes.is_swappable := Some true; recipes.rating_sum := Some s;
     recipes.rating_count := Some c; recipes.author_id := Some author;
     recipes.created_at := Some t0; recipes.updated_at := Some t0 |}.

Definition tofu_scramble : recipes.row :=
  sample_recipe 10 1 "Tofu Scramble"
    (Some (LBRACKET :: QUOTE :: u "tofu" ++ QUOTE :: u ", "
           ++ QUOTE :: u "turmeric" ++ [QUOTE; RBRACKET]))
    6 2.

Definition bobs_chili : recipes.row :=
  sample_recipe 11 2 "Three Bean Chili" None 0 0.

Definition sample_review (pk : option Z) (recipe reviewer stars : Z)
  : reviews.row :=
  {| reviews.id := pk; reviews.rating := Some stars;
     reviews.comment := None; reviews.helpful_count := None;
     reviews.recipe_id := Some recipe; reviews.reviewer_id := Some reviewer;
     reviews.created_at := None; reviews.updated_at := None |}.

Definition new_swap (requester owner recipe : option Z) : recipe_swaps.row :=
  {| recipe_swaps.id := Some 100; recipe_swaps.requester_id := requester;
     recipe_swaps.owner_id := owner; recipe_swaps.recipe_id := recipe;
     recipe_swaps.message := None;
     recipe_swaps.offered_recipe_ids := None;
     recipe_swaps.status := None;
     recipe_swaps.response_message := None;
     recipe_swaps.created_at := None; recipe_swaps.updated_at := None;
     recipe_swaps.completed_at := None |}.

(** bob asks alice for her Tofu Scramble. *)
Definition pending_swap : recipe_swaps.row :=
  RecipeSwap.insert_defaults t0 (new_swap (Some 2) (Some 1) (Some 10)).

(** A swap whose requester, owner and recipe name no row. *)
Definition orphan_swap : recipe_swaps.row :=
  RecipeSwap.insert_defaults t0 (new_swap None None None).

Definition sample_db : session :=
  {| users_tbl := [alice; bob; carol];
     recipes_tbl := [tofu_scramble; bobs_chili];
     reviews_tbl :=
       [reviews.with_defaults (sample_review None 10 2 4) 1 t0;
        reviews.with_defaults (sample_review None 10 3 2) 2 t0];
     recipe_swaps_tbl := [pending_swap] |}.

(** Rows whose foreign keys name no user. *)
Definition orphan_recipe : recipes.row :=
  sample_recipe 12 99 "Lentil Soup" None 0 0.
Definition orphan_review : reviews.row :=
  reviews.with_defaults (sample_review None 10 99 5) 3 t0.

(* ------------------------------------------------------------------ *)
(** ** Properties of a store *)

(** At most one review for each (recipe, reviewer) pair. *)
Fixpoint reviews_unique (rows : list reviews.row) : Prop :=
  match rows with
  | [] => True
  | x :: rest =>
      (forall y, In y rest -> reviews.same_recipe_reviewer x y = false)
      /\ reviews_unique rest
  end.


(** The recipe of the swap [s] is not one of [self]'s: it stays when
    [self] is deleted. *)
Definition recipe_stays (db : session) (self : users.row)
  (s : recipe_swaps.row) : bool :=
  negb (is_recipe_of (User.recipes db self) (recipe_swaps.recipe_id s)).

(** One operation of the application on the store; an operation that
    raises leaves the store as it was. *)
Inductive step : session -> session -> Prop :=
| step_add_review (now : datetime) (db : session) (r : reviews.row) :
    step db (after db (add_review now db r))
| step_delete_recipe (db : session) (r : recipes.row) :
    step db (after db (delete_recipe db r))
| step_delete_user (db : session) (x : users.row) :
    step db (after db (delete_user db x)).

Inductive reachable (db0 : session) : session -> Prop :=
| reachable_start : reachable db0 db0
| reachable_step (db db' : session) :
    reachable db0 db -> step db db' -> reachable db0 db'.

(** bob asks alice for her recipe; alice asks bob for his. *)
Definition swap_on (pk requester owner recipe : Z) : recipe_swaps.row :=
  RecipeSwap.insert_defaults t0
    {| recipe_swaps.id := Some pk;
       recipe_swaps.requester_id := Some requester;
       recipe_swaps.owner_id := Some owner;
       recipe_swaps.recipe_id := Some recipe;
       recipe_swaps.message := None;
       recipe_swaps.offered_recipe_ids := None;
       recipe_swaps.status := None;
       recipe_swaps.response_message := None;
       recipe_swaps.created_at := None; recipe_swaps.updated_at := None;
       recipe_swaps.completed_at := None |}.



(* ------------------------------------------------------------------ *)
(** ** The values JSON represents

    [json.dumps] followed by [json.loads] gives back the values built
    from [None], booleans, integers, finite floats, strings, lists, and
    dictionaries with distinct [str] keys.  A tuple comes back as a list,
    a key that is not a [str] as its text; two code points that form a
    surrogate pair come back as the one code point the pair encodes. *)

Fixpoint str_ok (s : str) : bool :=
  match s with
  | [] => true
  | c :: r =>
      (c <? 1114112)%N
      && negb (is_high_surrogate c
               && match r with
                  | d :: _ => is_low_surrogate d
                  | [] => false
                  end)
      && str_ok r
  end.

Definition float_eqb (a b : float) : bool :=
  match a, b with
  | S754_zero s, S754_zero s' => Bool.eqb s s'
  | S754_infinity s, S754_infinity s' => Bool.eqb s s'
  | S754_nan, S754_nan => true
  | S754_finite s m e, S754_finite s' m' e' =>
      Bool.eqb s s' && Pos.eqb m m' && Z.eqb e e'
  | _, _ => false
  end.

(** A finite float whose [repr] reads back as the same float.  ([repr]
    gives every finite float such a text; here it is checked by
    evaluation.) *)
Definition float_ok (f : float) : bool :=
  is_finite f
  && match match_number (float_repr f) with
     | Some (PyFloat g, []) => float_eqb g f
     | _ => false
     end.

Fixpoint jsonable (v : pyval) : bool :=
  match v with
  | PyNone | PyBool _ | PyInt _ => true
  | PyFloat f => float_ok f
  | PyStr s => str_ok s
  | PyList l => forallb jsonable l
  | PyTuple _ => false
  | PyDict kvs =>
      (fix members (kvs : list (pyval * pyval)) : bool :=
         match kvs with
         | [] => true
         | (PyStr k, x) :: r =>
             str_ok k && negb (dict_mem k r) && jsonable x && members r
         | _ :: _ => false
         end) kvs
  end.

(** The nesting of lists and dictionaries in a value. *)
Fixpoint height (v : pyval) : nat :=
  match v with
  | PyList l | PyTuple l => S (fold_right (fun x n => Nat.max (height x) n) O l)
  | PyDict kvs =>
      S ((fix members (kvs : list (pyval * pyval)) : nat :=
            match kvs with
            | [] => O
            | (_, x) :: r => Nat.max (height x) (members r)
            end) kvs)
  | _ => O
  end.

(** The text after a value in what [json.dumps] writes: nothing, a comma
    or a closing bracket. *)
Definition delimited (rest : str) : bool :=
  match rest with
  | [] => true
  | c :: _ => N.eqb c COMMA || N.eqb c RBRACKET || N.eqb c RBRACE
  end.

(** The members of a dictionary that JSON represents, and their
    nesting. *)
Fixpoint members_jsonable (kvs : list (pyval * pyval)) : bool :=
  match kvs with
  | [] => true
  | (PyStr k, x) :: r =>
      str_ok k && negb (dict_mem k r) && jsonable x && members_jsonable r
  | _ :: _ => false
  end.

Fixpoint members_height (kvs : list (pyval * pyval)) : nat :=
  match kvs with
  | [] => O
  | (_, x) :: r => Nat.max (height x) (members_height r)
  end.

(** The dictionary of a list of (key, value) pairs with [str] keys. *)
Definition as_dict (pairs : list (str * pyval)) : dict :=
  map (fun p => (PyStr (fst p), snd p)) pairs.

(** A recipe whose ingredients column holds text that is not JSON, a
    swap whose list of offered recipes was cut short, and one whose list
    was written as plain words. *)
Definition legacy_recipe : recipes.row :=
  sample_recipe 13 1 "Grandma's Stew" (Some (u "tofu, turmeric")) 0 0.

Definition swap_offering (text : string) : recipe_swaps.row :=
  {| recipe_swaps.id := Some 102;
     recipe_swaps.requester_id := Some 2;
     recipe_swaps.owner_id := Some 1;
     recipe_swaps.recipe_id := Some 10;
     recipe_swaps.message := None;
     recipe_swaps.offered_recipe_ids := Some (u text);
     recipe_swaps.status := Some (u "pending");
     recipe_swaps.response_message := None;
     recipe_swaps.created_at := Some t0; recipe_swaps.updated_at := Some t0;
     recipe_swaps.completed_at := None |}.

Definition truncated_swap : recipe_swaps.row := swap_offering "[11, 12".
Definition unquoted_swap : recipe_swaps.row := swap_offering "eleven, twelve".

(** The characters a JSON value can start with: a quote, a brace, a
    bracket, the first letter of [null], [true], [false], [NaN] and
    [Infinity], a minus sign, a digit. *)
Definition starts_value (c : char) : bool :=
  existsb (N.eqb c) [QUOTE; LBRACE; LBRACKET; 110; 116; 102; 78; 73; MINUS]%N
  || is_digit c.

(* ------------------------------------------------------------------ *)
(** ** Notions the proofs use *)

(** A recipe with the given rating accumulator. *)
Definition rated (s c : Z) : recipes.row :=
  sample_recipe 1 1 "Rated" None s c.

(** What [RecipeSwap.to_dict] puts under each embedding key. *)
Definition embedded_user (db : session) (include : bool)
  (a : option users.row) (v : option pyval) : Prop :=
  match (if include then a else None) with
  | Some x => exists ad, User.to_dict db x false = Ok ad /\ v = Some (PyDict ad)
  | None => v = None
  end.

Definition embedded_recipe (db : session) (include : bool)
  (r : option recipes.row) (v : option pyval) : Prop :=
  match (if include then r else None) with
  | Some x => exists rd, Recipe.to_dict db x false = Ok rd /\ v = Some (PyDict rd)
  | None => v = None
  end.


(** The store once [self], the recipes and the reviews of [self], and the
    reviews and the swaps of those recipes are gone. *)
Definition without_user (db : session) (self : users.row) : session :=
  {| users_tbl :=
       filter (fun x => negb (fk_matches (users.id x) (users.id self)))
              (users_tbl db);
     recipes_tbl :=
       filter (fun r => negb (fk_matches (recipes.author_id r) (users.id self)))
              (recipes_tbl db);
     reviews_tbl :=
       filter (fun r =>
                 negb (fk_matches (reviews.reviewer_id r) (users.id self)
                       || is_recipe_of (User.recipes db self)
                                       (reviews.recipe_id r)))
              (reviews_tbl db);
     recipe_swaps_tbl :=
       filter (recipe_stays db self) (recipe_swaps_tbl db) |}.

(** A store with no review yet. *)
Definition empty_reviews_db : session :=
  {| users_tbl := [alice; bob; carol];
     recipes_tbl := [tofu_scramble];
     reviews_tbl := [];
     recipe_swaps_tbl := [] |}.

(** The text does not start with a digit. *)
Definition not_digit_head (rest : str) : Prop :=
  match rest with
  | [] => True
  | c :: _ => is_digit c = false
  end.

(** The text does not start with the escape of a low surrogate. *)
Definition no_low_escape (r2 : str) : Prop :=
  match r2 with
  | b :: l :: g1 :: g2 :: g3 :: g4 :: _ =>
      N.eqb b BACKSLASH && N.eqb l LETTER_u = false \/
      exists cu2, hex4 g1 g2 g3 g4 = Some cu2 /\ is_low_surrogate cu2 = false
  | _ => True
  end.

(** The first six characters of a text, as far as it has them. *)
Ltac split_tail t :=
  destruct t as [|? [|? [|? [|? [|? [|? ?]]]]]].

(** A text that [json.loads] starts reading at its first character: not
    empty, and starting with neither whitespace nor a byte order mark. *)
Definition good_text (t : str) : Prop :=
  match t with
  | c :: _ =>
      is_ws c = false /\ N.eqb c BOM = false /\
      N.eqb c RBRACKET = false /\ N.eqb c RBRACE = false
  | [] => False
  end.

(** The text [t] of the value [v], followed by a delimiter, is read back
    as [v] and the delimiter is left. *)
Definition reads_back (v : pyval) (t : str) : Prop :=
  forall depth rest,
    (height v < depth)%nat ->
    delimited rest = true ->
    scan_once depth (t ++ rest) = Ok (v, rest).

Definition max_height (l : list pyval) : nat :=
  fold_right (fun x n => Nat.max (height x) n) O l.

(** What the induction gives for a value that JSON represents. *)
Definition written (v : pyval) : Prop :=
  jsonable v = true ->
  exists t,
    json_dumps v = Ok t /\ good_text t /\
    (height v < length t)%nat /\ reads_back v t.

(** No key occurs twice. *)
Fixpoint distinct_keys (pairs : list (str * pyval)) : Prop :=
  match pairs with
  | [] => True
  | (k, _) :: r => dict_mem k (as_dict r) = false /\ distinct_keys r
  end.


Definition nutrition : pyval :=
  PyDict [(PyStr (u "protein_g"), PyFloat (float_of_decimal false 125 (-1)));
          (PyStr (u "calories"), PyInt 320);
          (PyStr (u "allergens"), PyList [PyStr (u "soy")]);
          (PyStr (u "verified"), PyBool false);
          (PyStr (u "source"), PyNone)].

(* ------------------------------------------------------------------ *)
(** ** The keys of the views *)

(** The keys each [to_dict] writes in its dictionary display, in the
    order of the source. *)
Definition user_keys : list string :=
  ["id"; "username"; "first_name"; "last_name"; "bio"; "profile_picture";
   "dietary_preferences"; "cooking_level"; "created_at";
   "recipe_count"]%string.

Definition recipe_keys : list string :=
  ["id"; "title"; "description"; "ingredients"; "instructions";
   "prep_time"; "cook_time"; "total_time"; "servings"; "difficulty";
   "category"; "tags"; "cuisine_type"; "image_url"; "video_url";
   "calories_per_serving"; "nutritional_info"; "is_public"; "is_swappable";
   "average_rating"; "rating_count"; "created_at"; "updated_at"]%string.

Definition review_keys : list string :=
  ["id"; "rating"; "comment"; "helpful_count"; "created_at";
   "updated_at"]%string.

Definition swap_keys : list string :=
  ["id"; "message"; "offered_recipe_ids"; "status"; "response_message";
   "created_at"; "updated_at"; "completed_at"]%string.

(** The keys of a dictionary, in order. *)
Definition keys (d : dict) : list pyval := map fst d.

Definition str_keys (names : list string) : list pyval :=
  map (fun n => PyStr (u n)) names.

(** The key a related row adds to a view, when the flag is on and the
    row exists. *)
Definition embed_key {row : Type} (flag : bool) (related : option row)
  (name : string) : list string :=
  match (if flag then related else None) with
  | Some _ => [name]
  | None => []
  end.

(** Two user rows with the same public profile: they agree on every
    column but [email], [password_hash], [is_active], [is_verified],
    [updated_at] and [last_login]. *)
Definition same_profile (a b : users.row) : Prop :=
  users.id a = users.id b /\
  users.username a = users.username b /\
  users.first_name a = users.first_name b /\
  users.last_name a = users.last_name b /\
  users.bio a = users.bio b /\
  users.profile_picture a = users.profile_picture b /\
  users.dietary_preferences a = users.dietary_preferences b /\
  users.cooking_level a = users.cooking_level b /\
  users.created_at a = users.created_at b.

(** [User.set_password]: [self.password_hash =
    generate_password_hash(password)].  The hash function is werkzeug's;
    it is a parameter here. *)
Definition set_password (generate_password_hash : str -> str)
  (self : users.row) (password : str) : users.row :=
  {| users.id := users.id self; users.username := users.username self;
     users.email := users.email self;
     users.password_hash := Some (generate_password_hash password);
     users.first_name := users.first_name self;
     users.last_name := users.last_name self;
     users.bio := users.bio self;
     users.profile_picture := users.profile_picture self;
     users.dietary_preferences := users.dietary_preferences self;
     users.cooking_level := users.cooking_level self;
     users.is_active := users.is_active self;
     users.is_verified := users.is_verified self;
     users.created_at := users.created_at self;
     users.updated_at := users.updated_at self;
     users.last_login := users.last_login self |}.

(** A user whose preferences column holds text that is not JSON, a recipe
    of that user, a review by that user and a swap that user asks for. *)
Definition dave : users.row :=
  {| users.id := Some 4; users.username := Some (u "dave");
     users.email := Some (u "dave@example.com");
     users.password_hash := Some (u "pbkdf2:sha256:600000$salt$hash");
     users.first_name := None; users.last_name := None;
     users.bio := None; users.profile_picture := None;
     users.dietary_preferences := Some (u "vegan; gluten-free");
     users.cooking_level := Some (u "beginner");
     users.is_active := Some true; users.is_verified := Some false;
     users.created_at := Some t0; users.updated_at := Some t0;
     users.last_login := None |}.

Definition daves_db : session :=
  {| users_tbl := [alice; dave];
     recipes_tbl := [tofu_scramble; sample_recipe 14 4 "Seitan Roast" None 0 0];
     reviews_tbl := [reviews.with_defaults (sample_review None 10 4 5) 1 t0];
     recipe_swaps_tbl := [swap_on 103 4 1 10] |}.

(* ------------------------------------------------------------------ *)
(** ** Keys of the store *)

(** Does a foreign key name a row of the table it refers to? *)
Definition names_user (db : session) (fk : option Z) : bool :=
  existsb (fun x => fk_matches fk (users.id x)) (users_tbl db).
Definition names_recipe (db : session) (fk : option Z) : bool :=
  existsb (fun x => fk_matches fk (recipes.id x)) (recipes_tbl db).

(** Every [db.ForeignKey] column names a row: no recipe without its
    author, no review without its recipe and reviewer, no swap without its
    requester, owner and recipe. *)
Definition fk_closed (db : session) : Prop :=
  (forall r, In r (recipes_tbl db) ->
     names_user db (recipes.author_id r) = true) /\
  (forall r, In r (reviews_tbl db) ->
     names_recipe db (reviews.recipe_id r) = true /\
     names_user db (reviews.reviewer_id r) = true) /\
  (forall s, In s (recipe_swaps_tbl db) ->
     names_user db (recipe_swaps.requester_id s) = true /\
     names_user db (recipe_swaps.owner_id s) = true /\
     names_recipe db (recipe_swaps.recipe_id s) = true).

(** The values of a [primary_key=True] column: none is NULL and none
    occurs twice. *)
Definition pk_distinct (ids : list (option Z)) : Prop :=
  ~ In None ids /\ NoDup ids.

(** A one-to-many relationship [many] and its [backref] [one] describe
    the same pairs: the parent of a child has the child among its
    children, and, the primary keys of the parents being distinct, a child
    of a parent has that parent. *)
Definition inverse_relations {child parent : Type}
  (children : list child) (parents : list parent)
  (pk : parent -> option Z)
  (many : parent -> list child) (one : child -> option parent) : Prop :=
  (forall c p, In c children -> one c = Some p ->
               In p parents /\ In c (many p)) /\
  (pk_distinct (map pk parents) ->
   forall c p, In p parents -> In c (many p) -> one c = Some p).

(* ------------------------------------------------------------------ *)
(** ** Values and texts of the encoded columns *)





(** Printable ASCII: from the space to the tilde. *)
Definition printable (t : str) : bool :=
  forallb (fun c => (32 <=? c)%N && (c <=? 126)%N) t.




(** A value as [json.loads] builds it: no tuple, and in every dictionary
    the keys are [str]s and no key occurs twice. *)
Fixpoint json_shaped (v : pyval) : bool :=
  match v with
  | PyTuple _ => false
  | PyList l => forallb json_shaped l
  | PyDict kvs =>
      (fix members (kvs : list (pyval * pyval)) : bool :=
         match kvs with
         | [] => true
         | (PyStr k, x) :: r =>
             negb (dict_mem k r) && json_shaped x && members r
         | _ :: _ => false
         end) kvs
  | _ => true
  end.

Fixpoint members_shaped (kvs : list (pyval * pyval)) : bool :=
  match kvs with
  | [] => true
  | (PyStr k, x) :: r =>
      negb (dict_mem k r) && json_shaped x && members_shaped r
  | _ :: _ => false
  end.




Definition accented : pyval :=
  PyList [PyStr [99; 114; 232; 109; 101; 10]%N; PyStr [128512]%N].

(* ------------------------------------------------------------------ *)
(** ** INSERT of a user and of a recipe

    The column declarations of [User] and [Recipe]: [nullable=False],
    [unique=True], [primary_key=True] and [default=...].  A default is
    applied by the INSERT, to a column the new row leaves unset; strings
    are compared as the default database of app.py (SQLite) compares them,
    character by character. *)

(** Two columns hold the same, non-NULL, text. *)
Definition text_matches (a b : option str) : bool :=
  match a, b with
  | Some x, Some y => str_eqb x y
  | _, _ => false
  end.

Definition default_to {A : Type} (c : option A) (d : A) : option A :=
  match c with Some x => Some x | None => Some d end.

Definition user_not_null_columns (x : users.row) : bool :=
  match users.username x, users.email x, users.password_hash x with
  | Some _, Some _, Some _ => true
  | _, _, _ => false
  end.

Definition user_with_defaults (x : users.row) (pk : Z) (now : datetime)
  : users.row :=
  {| users.id := Some pk; users.username := users.username x;
     users.email := users.email x;
     users.password_hash := users.password_hash x;
     users.first_name := users.first_name x;
     users.last_name := users.last_name x;
     users.bio := users.bio x;
     users.profile_picture := users.profile_picture x;
     users.dietary_preferences := users.dietary_preferences x;
     users.cooking_level := default_to (users.cooking_level x) (u "beginner");
     users.is_active := default_to (users.is_active x) true;
     users.is_verified := default_to (users.is_verified x) false;
     users.created_at := default_to (users.created_at x) now;
     users.updated_at := default_to (users.updated_at x) now;
     users.last_login := users.last_login x |}.

(** [db.session.add(user); db.session.commit()]. *)
Definition add_user (now : datetime) (db : session) (x : users.row)
  : res session :=
  if negb (user_not_null_columns x) then Raise IntegrityError
  else if existsb (fun y => fk_matches (users.id x) (users.id y))
                  (users_tbl db)
  then Raise IntegrityError
  else if existsb (fun y => text_matches (users.username x) (users.username y))
                  (users_tbl db)
  then Raise IntegrityError
  else if existsb (fun y => text_matches (users.email x) (users.email y))
                  (users_tbl db)
  then Raise IntegrityError
  else
    let pk :=
      match users.id x with
      | Some i => i
      | None => next_id (map users.id (users_tbl db))
      end in
    Ok {| users_tbl := users_tbl db ++ [user_with_defaults x pk now];
          recipes_tbl := recipes_tbl db;
          reviews_tbl := reviews_tbl db;
          recipe_swaps_tbl := recipe_swaps_tbl db |}.

Definition recipe_not_null_columns (r : recipes.row) : bool :=
  match recipes.title r, recipes.ingredients r, recipes.instructions r,
        recipes.author_id r with
  | Some _, Some _, Some _, Some _ => true
  | _, _, _, _ => false
  end.

Definition recipe_with_defaults (r : recipes.row) (pk : Z) (now : datetime)
  : recipes.row :=
  {| recipes.id := Some pk; recipes.title := recipes.title r;
     recipes.description := recipes.description r;
     recipes.ingredients := recipes.ingredients r;
     recipes.instructions := recipes.instructions r;
     recipes.prep_time := recipes.prep_time r;
     recipes.cook_time := recipes.cook_time r;
     recipes.total_time := recipes.total_time r;
     recipes.servings := default_to (recipes.servings r) 1;
     recipes.difficulty := default_to (recipes.difficulty r) (u "easy");
     recipes.category := recipes.category r;
     recipes.tags := recipes.tags r;
     recipes.cuisine_type := recipes.cuisine_type r;
     recipes.image_url := recipes.image_url r;
     recipes.video_url := recipes.video_url r;
     recipes.calories_per_serving := recipes.calories_per_serving r;
     recipes.nutritional_info := recipes.nutritional_info r;
     recipes.is_public := default_to (recipes.is_public r) true;
     recipes.is_swappable := default_to (recipes.is_swappable r) true;
     recipes.rating_sum := default_to (recipes.rating_sum r) 0;
     recipes.rating_count := default_to (recipes.rating_count r) 0;
     recipes.author_id := recipes.author_id r;
     recipes.created_at := default_to (recipes.created_at r) now;
     recipes.updated_at := default_to (recipes.updated_at r) now |}.

(** [db.session.add(recipe); db.session.commit()]. *)
Definition add_recipe (now : datetime) (db : session) (r : recipes.row)
  : res session :=
  if negb (recipe_not_null_columns r) then Raise IntegrityError
  else if existsb (fun y => fk_matches (recipes.id r) (recipes.id y))
                  (recipes_tbl db)
  then Raise IntegrityError
  else
    let pk :=
      match recipes.id r with
      | Some i => i
      | None => next_id (map recipes.id (recipes_tbl db))
      end in
    Ok {| users_tbl := users_tbl db;
          recipes_tbl := recipes_tbl db ++ [recipe_with_defaults r pk now];
          reviews_tbl := reviews_tbl db;
          recipe_swaps_tbl := recipe_swaps_tbl db |}.

(** No two users with the same username or with the same email. *)
Fixpoint users_unique (rows : list users.row) : Prop :=
  match rows with
  | [] => True
  | x :: rest =>
      (forall y, In y rest ->
         text_matches (users.username x) (users.username y) = false /\
         text_matches (users.email x) (users.email y) = false)
      /\ users_unique rest
  end.

(** A recipe as the application builds it before the INSERT: the columns
    with a default are not set. *)
Definition new_recipe (author : Z) (title : string) (ingredients : str)
  : recipes.row :=
  {| recipes.id := None; recipes.title := Some (u title);
     recipes.description := None; recipes.ingredients := Some ingredients;
     recipes.instructions := Some (u "Simmer.");
     recipes.prep_time := None; recipes.cook_time := None;
     recipes.total_time := None; recipes.servings := None;
     recipes.difficulty := None; recipes.category := None;
     recipes.tags := None; recipes.cuisine_type := None;
     recipes.image_url := None; recipes.video_url := None;
     recipes.calories_per_serving := None;
     recipes.nutritional_info := None; recipes.is_public := None;
     recipes.is_swappable := None; recipes.rating_sum := None;
     recipes.rating_count := None; recipes.author_id := Some author;
     recipes.created_at := None; recipes.updated_at := None |}.

Definition new_user (name mail : string) : users.row :=
  {| users.id := None; users.username := Some (u name);
     users.email := Some (u mail);
     users.password_hash := Some (u "scrypt:32768:8:1$salt$hash");
     users.first_name := None; users.last_name := None;
     users.bio := None; users.profile_picture := None;
     users.dietary_preferences := None; users.cooking_level := None;
     users.is_active := None; users.is_verified := None;
     users.created_at := None; users.updated_at := None;
     users.last_login := None |}.

(* ------------------------------------------------------------------ *)
(** ** INSERT of a swap, and the runs of the store *)

Definition swap_not_null_columns (s : recipe_swaps.row) : bool :=
  match recipe_swaps.requester_id s, recipe_swaps.owner_id s,
        recipe_swaps.recipe_id s with
  | Some _, Some _, Some _ => true
  | _, _, _ => false
  end.

Definition swap_with_key (s : recipe_swaps.row) (pk : Z) : recipe_swaps.row :=
  {| recipe_swaps.id := Some pk;
     recipe_swaps.requester_id := recipe_swaps.requester_id s;
     recipe_swaps.owner_id := recipe_swaps.owner_id s;
     recipe_swaps.recipe_id := recipe_swaps.recipe_id s;
     recipe_swaps.message := recipe_swaps.message s;
     recipe_swaps.offered_recipe_ids := recipe_swaps.offered_recipe_ids s;
     recipe_swaps.status := recipe_swaps.status s;
     recipe_swaps.response_message := recipe_swaps.response_message s;
     recipe_swaps.created_at := recipe_swaps.created_at s;
     recipe_swaps.updated_at := recipe_swaps.updated_at s;
     recipe_swaps.completed_at := recipe_swaps.completed_at s |}.

(** [db.session.add(swap); db.session.commit()]. *)
Definition add_swap (now : datetime) (db : session) (s : recipe_swaps.row)
  : res session :=
  if negb (swap_not_null_columns s) then Raise IntegrityError
  else if existsb (fun y => fk_matches (recipe_swaps.id s) (recipe_swaps.id y))
                  (recipe_swaps_tbl db)
  then Raise IntegrityError
  else
    let pk :=
      match recipe_swaps.id s with
      | Some i => i
      | None => next_id (map recipe_swaps.id (recipe_swaps_tbl db))
      end in
    Ok {| users_tbl := users_tbl db;
          recipes_tbl := recipes_tbl db;
          reviews_tbl := reviews_tbl db;
          recipe_swaps_tbl :=
            recipe_swaps_tbl db
            ++ [RecipeSwap.insert_defaults now (swap_with_key s pk)] |}.

(** One INSERT or DELETE on the store; one that raises is rolled back. *)
Inductive operation : session -> session -> Prop :=
| op_add_user (now : datetime) (db : session) (x : users.row) :
    operation db (after db (add_user now db x))
| op_add_recipe (now : datetime) (db : session) (r : recipes.row) :
    operation db (after db (add_recipe now db r))
| op_add_review (now : datetime) (db : session) (r : reviews.row) :
    operation db (after db (add_review now db r))
| op_add_swap (now : datetime) (db : session) (s : recipe_swaps.row) :
    operation db (after db (add_swap now db s))
| op_delete_recipe (db : session) (r : recipes.row) :
    operation db (after db (delete_recipe db r))
| op_delete_user (db : session) (x : users.row) :
    operation db (after db (delete_user db x)).

Inductive runs (db0 : session) : session -> Prop :=
| runs_start : runs db0 db0
| runs_step (db db' : session) :
    runs db0 db -> operation db db' -> runs db0 db'.

Definition empty_db : session :=
  {| users_tbl := []; recipes_tbl := []; reviews_tbl := [];
     recipe_swaps_tbl := [] |}.

(** The constraints the four model classes declare on their tables:
    primary keys, NOT NULL columns, unique columns and the unique pair of
    a review. *)
Record constraints_hold (db : session) : Prop := {
  users_pk : pk_distinct (map users.id (users_tbl db));
  recipes_pk : pk_distinct (map recipes.id (recipes_tbl db));
  reviews_pk : pk_distinct (map reviews.id (reviews_tbl db));
  swaps_pk : pk_distinct (map recipe_swaps.id (recipe_swaps_tbl db));
  users_not_null :
    forall x, In x (users_tbl db) -> user_not_null_columns x = true;
  recipes_not_null :
    forall r, In r (recipes_tbl db) -> recipe_not_null_columns r = true;
  reviews_not_null :
    forall r, In r (reviews_tbl db) -> reviews.not_null_columns r = true;
  swaps_not_null :
    forall s, In s (recipe_swaps_tbl db) -> swap_not_null_columns s = true;
  users_are_unique : users_unique (users_tbl db);
  reviews_are_unique : reviews_unique (reviews_tbl db)
}.

(** A run: three users register, alice adds a recipe, bob reviews it
    twice (the second review is refused), bob asks for it, carol tries to
    register again, bob is deleted (refused: his swap request stays),
    the recipe is deleted, bob is deleted. *)
Definition busy_db : session :=
  let db1 := after empty_db
               (add_user t0 empty_db (new_user "alice" "alice@example.com")) in
  let db2 := after db1 (add_user t0 db1 (new_user "bob" "bob@example.com")) in
  let db3 := after db2
               (add_user t0 db2 (new_user "carol" "carol@example.com")) in
  let db4 := after db3
               (add_recipe t0 db3 (new_recipe 1 "Miso Soup" (u "[]"))) in
  let db5 := after db4 (add_review t0 db4 (sample_review None 1 2 4)) in
  let db6 := after db5 (add_review t0 db5 (sample_review None 1 2 5)) in
  let db7 := after db6
               (add_swap t0 db6 (new_swap (Some 2) (Some 1) (Some 1))) in
  let db8 := after db7
               (add_user t0 db7 (new_user "carol" "carol@example.org")) in
  let db9 := after db8 (delete_user db8 bob) in
  let db10 := after db9
                (delete_recipe db9
                   (recipe_with_defaults
                      (new_recipe 1 "Miso Soup" (u "[]")) 1 t0)) in
  after db10 (delete_user db10 bob).

(* ================================================================== *)
(** * Properties *)

(* ------------------------------------------------------------------ *)
(** ** Rounding to one decimal *)

Lemma round_half_even_nearest (num den : Z) :
  0 < den -> 2 * Z.abs (num - round_half_even num den * den) <= den.
Proof.
  intros Hden. unfold round_half_even.
  pose proof (Z.div_mod num den ltac:(lia)) as Hdm.
  pose proof (Z.mod_pos_bound num den Hden) as Hb.
  destruct (Z.compare_spec (2 * (num mod den)) den); try destruct (Z.even _); nia.
Qed.

Lemma round_half_even_nonneg (num den : Z) :
  0 <= num -> 0 < den -> 0 <= round_half_even num den.
Proof.
  intros Hn Hd. unfold round_half_even.
  pose proof (Z.div_pos num den Hn Hd).
  destruct (Z.compare _ _); try destruct (Z.even _); lia.
Qed.

Lemma scaled_den_pos e nd : 0 < scaled_den e nd.
Proof.
  unfold scaled_den. apply Z.mul_pos_pos; apply Z.pow_pos_nonneg; lia.
Qed.

Lemma scaled_num_pos m e nd : 0 < scaled_num m e nd.
Proof.
  unfold scaled_num. repeat apply Z.mul_pos_pos; try lia;
    apply Z.pow_pos_nonneg; lia.
Qed.

(** The exact value of a finite float is [m * 2^e]; with one digit asked
    for, [float_round] takes the integer [t] nearest to ten times that
    value and returns the float nearest to [t / 10]. *)
Lemma float_round_one_decimal (s : bool) (m : positive) (e : Z) :
  let t := decimal_units m e 1 in
  0 <= t /\
  2 * Z.abs (scaled_num m e 1 - t * scaled_den e 1) <= scaled_den e 1 /\
  float_round (S754_finite s m e) 1 =
    (let r := float_of_decimal s t (-1) in
     if is_finite r then Ok r else Raise OverflowError).
Proof.
  cbv zeta. unfold decimal_units.
  pose proof (scaled_den_pos e 1) as Hd.
  pose proof (scaled_num_pos m e 1) as Hn.
  split; [apply round_half_even_nonneg; lia|].
  split; [apply round_half_even_nearest; lia|].
  unfold float_round, decimal_units, float_of_decimal.
  pose proof (@round_half_even_nonneg (scaled_num m e 1) (scaled_den e 1)
                ltac:(lia) Hd) as Hnn.
  destruct (round_half_even (scaled_num m e 1) (scaled_den e 1)) eqn:E;
    try reflexivity; lia.
Qed.

(* ------------------------------------------------------------------ *)
(** ** Recipe.average_rating *)

(** C1. [average_rating] is the integer 0 when [rating_count == 0];
    otherwise it is [round(rating_sum / rating_count, 1)]: the float
    quotient of the two integers, rounded to the nearest decimal with one
    digit after the point (ties to even on the exact binary value of the
    quotient) and converted back to the nearest float. *)
Theorem average_rating_spec (self : recipes.row) :
  (recipes.rating_count self = Some 0 ->
   Recipe.average_rating self = Ok (PyInt 0)) /\
  (forall s c : Z,
     recipes.rating_sum self = Some s ->
     recipes.rating_count self = Some c ->
     c <> 0 ->
     Recipe.average_rating self =
       (q <- int_truediv s c ;; r <- float_round q 1 ;; Ok (PyFloat r))) /\
  (forall (sg : bool) (m : positive) (e : Z),
     let t := decimal_units m e 1 in
     0 <= t /\
     2 * Z.abs (scaled_num m e 1 - t * scaled_den e 1) <= scaled_den e 1 /\
     float_round (S754_finite sg m e) 1 =
       (let r := float_of_decimal sg t (-1) in
        if is_finite r then Ok r else Raise OverflowError)).
Proof.
  split; [|split].
  - intros H. unfold Recipe.average_rating. now rewrite H.
  - intros s c Hs Hc Hnz. unfold Recipe.average_rating.
    rewrite Hs, Hc. destruct c; [contradiction| |]; reflexivity.
  - intros sg m e. apply float_round_one_decimal.
Qed.

(** Ratings 4 and 2 average to 3.0; one rating out of four quarters, 0.25,
    rounds to 0.2 (the tie goes to the even digit); no rating gives 0. *)
Lemma average_rating_spec_witness :
  Recipe.average_rating (rated 0 0) = Ok (PyInt 0) /\
  Recipe.average_rating (rated 6 2)
    = Ok (PyFloat (S754_finite false 6755399441055744 (-51))) /\
  Recipe.average_rating (rated 1 4)
    = Ok (PyFloat (S754_finite false 7205759403792794 (-55))).
Proof.
  split; [|split].
  - apply (proj1 (average_rating_spec (rated 0 0))). reflexivity.
  - rewrite (proj1 (proj2 (average_rating_spec (rated 6 2))) 6 2);
      [reflexivity | reflexivity | reflexivity | lia].
  - rewrite (proj1 (proj2 (average_rating_spec (rated 1 4))) 1 4);
      [reflexivity | reflexivity | reflexivity | lia].
Defined.

(* ------------------------------------------------------------------ *)
(** ** The view projections *)

Lemma User_to_dict_keys db self include_email d :
  User.to_dict db self include_email = Ok d ->
  dict_mem (u "password_hash") d = false /\
  dict_mem (u "email") d = include_email /\
  (include_email = true ->
   dict_get (u "email") d = Some (py_str (users.email self))) /\
  dict_get (u "recipe_count") d
    = Some (PyInt (Z.of_nat (length (User.recipes db self)))) /\
  nesting d = 0%nat.
Proof.
  intros H. unfold User.to_dict in H.
  unfold bind in H.
  destruct (User.get_dietary_preferences self) as [prefs|]; [|discriminate].
  destruct include_email; injection H as H; subst d;
    repeat split; intros; try discriminate; reflexivity.
Qed.

Lemma User_to_dict_returns db self include_email :
  is_ok (User.get_dietary_preferences self) = true ->
  is_ok (User.to_dict db self include_email) = true.
Proof.
  unfold User.to_dict, bind.
  destruct (User.get_dietary_preferences self); [|discriminate].
  destruct include_email; reflexivity.
Qed.

(** C3. The dictionary [User.to_dict] returns never has a
    [password_hash] key, and has an [email] key exactly when
    [include_email] is true (it then holds the user's email). *)
Theorem to_dict_hides_password_and_gates_email
  (db : session) (self : users.row) (include_email : bool) (d : dict) :
  User.to_dict db self include_email = Ok d ->
  dict_mem (u "password_hash") d = false /\
  (dict_mem (u "email") d = true <-> include_email = true) /\
  (include_email = true ->
   dict_get (u "email") d = Some (py_str (users.email self))).
Proof.
  intros H. apply User_to_dict_keys in H.
  destruct H as (Hp & He & Hv & _). repeat split; auto.
  - intros Hm. now rewrite He in Hm.
  - intros ->. exact He.
Qed.

Lemma to_dict_hides_password_and_gates_email_witness :
  (exists d, User.to_dict sample_db alice true = Ok d /\
     dict_mem (u "password_hash") d = false /\
     dict_get (u "email") d = Some (PyStr (u "alice@example.com"))) /\
  (exists d, User.to_dict sample_db alice false = Ok d /\
     dict_mem (u "password_hash") d = false /\
     dict_mem (u "email") d = false).
Proof.
  split.
  - destruct (User.to_dict sample_db alice true) as [d|] eqn:E;
      [|discriminate E].
    exists d. split; [reflexivity|].
    destruct (to_dict_hides_password_and_gates_email _ _ _ _ E) as (Hp & _ & Hv).
    split; [exact Hp | exact (Hv eq_refl)].
  - destruct (User.to_dict sample_db alice false) as [d|] eqn:E;
      [|discriminate E].
    exists d. split; [reflexivity|].
    destruct (to_dict_hides_password_and_gates_email _ _ _ _ E) as (Hp & He & _).
    split; [exact Hp|].
    destruct (dict_mem (u "email") d); [|reflexivity].
    now destruct (proj1 He eq_refl).
Defined.

(** C9. The dictionary [User.to_dict] returns has a [recipe_count] key,
    whatever [include_email] is; its value is the number of rows of the
    recipes table whose [author_id] is the user's id. *)
Theorem to_dict_recipe_count
  (db : session) (self : users.row) (include_email : bool) (d : dict) :
  User.to_dict db self include_email = Ok d ->
  dict_get (u "recipe_count") d =
    Some (PyInt (Z.of_nat (length
      (filter (fun r => fk_matches (recipes.author_id r) (users.id self))
              (recipes_tbl db))))).
Proof.
  intros H. apply User_to_dict_keys in H.
  destruct H as (_ & _ & _ & Hc & _). exact Hc.
Qed.

Lemma to_dict_recipe_count_witness :
  exists d, User.to_dict sample_db alice false = Ok d /\
    dict_get (u "recipe_count") d = Some (PyInt 1).
Proof.
  destruct (User.to_dict sample_db alice false) as [d|] eqn:E;
    [|discriminate E].
  exists d. split; [reflexivity|].
  exact (to_dict_recipe_count _ _ _ _ E).
Defined.

Lemma Recipe_to_dict_plain db self d :
  Recipe.to_dict db self false = Ok d ->
  dict_mem (u "author") d = false /\ nesting d = 0%nat.
Proof.
  intros H. unfold Recipe.to_dict, bind in H.
  destruct (Recipe.get_ingredients self) as [?v|]; [|discriminate].
  destruct (Recipe.get_tags self) as [?v|]; [|discriminate].
  destruct (Recipe.get_nutritional_info self) as [?v|]; [|discriminate].
  destruct (Recipe.average_rating self) as [?v|]; [|discriminate].
  injection H as H; subst d. split; reflexivity.
Qed.

Lemma Recipe_to_dict_author db self d :
  Recipe.to_dict db self true = Ok d ->
  match Recipe.author db self with
  | Some a =>
      exists ad, User.to_dict db a false = Ok ad /\
                 dict_get (u "author") d = Some (PyDict ad)
  | None => dict_mem (u "author") d = false
  end.
Proof.
  intros H. unfold Recipe.to_dict, bind in H.
  destruct (Recipe.get_ingredients self) as [?v|]; [|discriminate].
  destruct (Recipe.get_tags self) as [?v|]; [|discriminate].
  destruct (Recipe.get_nutritional_info self) as [?v|]; [|discriminate].
  destruct (Recipe.average_rating self) as [?v|]; [|discriminate].
  destruct (Recipe.author db self) as [a|].
  - destruct (User.to_dict db a false) as [ad|]; [|discriminate].
    injection H as H; subst d. exists ad. split; reflexivity.
  - injection H as H; subst d. reflexivity.
Qed.

Lemma Review_to_dict_reviewer db self d :
  Review.to_dict db self true = Ok d ->
  match Review.reviewer db self with
  | Some a =>
      exists ad, User.to_dict db a false = Ok ad /\
                 dict_get (u "reviewer") d = Some (PyDict ad)
  | None => dict_mem (u "reviewer") d = false
  end.
Proof.
  intros H. unfold Review.to_dict, bind in H.
  destruct (Review.reviewer db self) as [a|].
  - destruct (User.to_dict db a false) as [ad|]; [|discriminate].
    injection H as H; subst d. exists ad. split; reflexivity.
  - injection H as H; subst d. reflexivity.
Qed.

Lemma RecipeSwap_to_dict_embeds db self include_users include_recipe d :
  RecipeSwap.to_dict db self include_users include_recipe = Ok d ->
  embedded_user db include_users (RecipeSwap.requester db self)
    (dict_get (u "requester") d) /\
  embedded_user db include_users (RecipeSwap.owner db self)
    (dict_get (u "owner") d) /\
  embedded_recipe db include_recipe (RecipeSwap.recipe db self)
    (dict_get (u "recipe") d) /\
  dict_mem (u "author") d = false /\
  dict_mem (u "reviewer") d = false /\
  nesting d =
    (if (if include_users
         then match RecipeSwap.requester db self, RecipeSwap.owner db self with
              | None, None => false
              | _, _ => true
              end
         else false)
        || (if include_recipe
            then match RecipeSwap.recipe db self with
                 | Some _ => true
                 | None => false
                 end
            else false)
     then 1%nat else 0%nat).
Proof.
  intros H. unfold RecipeSwap.to_dict, bind in H.
  unfold embedded_user, embedded_recipe.
  destruct (RecipeSwap.get_offered_recipe_ids self) as [ids|]; [|discriminate].
  destruct include_users, include_recipe;
    destruct (RecipeSwap.requester db self) as [rq|];
    destruct (RecipeSwap.owner db self) as [ow|];
    destruct (RecipeSwap.recipe db self) as [rc|];
    try (destruct (User.to_dict db rq false) as [rqd|] eqn:Erq;
         [apply User_to_dict_keys in Erq as Hrq;
          destruct Hrq as (_ & _ & _ & _ & Hrq) | discriminate]);
    try (destruct (User.to_dict db ow false) as [owd|] eqn:Eow;
         [apply User_to_dict_keys in Eow as How;
          destruct How as (_ & _ & _ & _ & How) | discriminate]);
    try (destruct (Recipe.to_dict db rc false) as [rcd|] eqn:Erc;
         [apply Recipe_to_dict_plain in Erc as Hrc;
          destruct Hrc as (_ & Hrc) | discriminate]);
    injection H as H; subst d;
    repeat match goal with
      | |- _ /\ _ => split
      | |- exists x, _ = Ok x /\ _ => eexists; split; reflexivity
      end;
    try reflexivity;
    unfold nesting in *; cbn in *;
    repeat match goal with
      | H : pred (view_height _) = _ |- _ => cbn in H
      end.
  all: repeat match goal with
      | H : ?x = 0%nat |- context [?x] => rewrite H
      end; try reflexivity.
Qed.

(** C10. When an embedding flag is on and the related row is absent, the
    dictionary has no key for it: [reviewer] in a review's view, [author]
    in a recipe's, [requester], [owner] and [recipe] in a swap's. *)
Theorem absent_relation_omits_key :
  (forall db self d,
     Review.to_dict db self true = Ok d ->
     Review.reviewer db self = None ->
     dict_mem (u "reviewer") d = false) /\
  (forall db self d,
     Recipe.to_dict db self true = Ok d ->
     Recipe.author db self = None ->
     dict_mem (u "author") d = false) /\
  (forall db self include_recipe d,
     RecipeSwap.to_dict db self true include_recipe = Ok d ->
     (RecipeSwap.requester db self = None ->
      dict_mem (u "requester") d = false) /\
     (RecipeSwap.owner db self = None ->
      dict_mem (u "owner") d = false)) /\
  (forall db self include_users d,
     RecipeSwap.to_dict db self include_users true = Ok d ->
     RecipeSwap.recipe db self = None ->
     dict_mem (u "recipe") d = false).
Proof.
  repeat split.
  - intros db self d H Hn. apply Review_to_dict_reviewer in H.
    now rewrite Hn in H.
  - intros db self d H Hn. apply Recipe_to_dict_author in H.
    now rewrite Hn in H.
  - intros Hn. apply RecipeSwap_to_dict_embeds in H.
    destruct H as (H & _). unfold embedded_user in H. rewrite Hn in H.
    unfold dict_mem. now rewrite H.
  - intros Hn. apply RecipeSwap_to_dict_embeds in H.
    destruct H as (_ & H & _). unfold embedded_user in H. rewrite Hn in H.
    unfold dict_mem. now rewrite H.
  - intros db self include_users d H Hn. apply RecipeSwap_to_dict_embeds in H.
    destruct H as (_ & _ & H & _). unfold embedded_recipe in H.
    rewrite Hn in H. unfold dict_mem. now rewrite H.
Qed.

Lemma absent_relation_omits_key_witness :
  (exists d, Review.to_dict sample_db orphan_review true = Ok d /\
             dict_mem (u "reviewer") d = false) /\
  (exists d, Recipe.to_dict sample_db orphan_recipe true = Ok d /\
             dict_mem (u "author") d = false) /\
  (exists d, RecipeSwap.to_dict sample_db orphan_swap true true = Ok d /\
             dict_mem (u "requester") d = false /\
             dict_mem (u "owner") d = false /\
             dict_mem (u "recipe") d = false).
Proof.
  destruct absent_relation_omits_key as (Hrev & Hrec & Husers & Hrecipe).
  split; [|split].
  - destruct (Review.to_dict sample_db orphan_review true) as [d|] eqn:E;
      [|discriminate E].
    exists d. split; [reflexivity|]. exact (Hrev _ _ _ E eq_refl).
  - destruct (Recipe.to_dict sample_db orphan_recipe true) as [d|] eqn:E;
      [|discriminate E].
    exists d. split; [reflexivity|]. exact (Hrec _ _ _ E eq_refl).
  - destruct (RecipeSwap.to_dict sample_db orphan_swap true true) as [d|] eqn:E;
      [|discriminate E].
    exists d. split; [reflexivity|].
    destruct (Husers _ _ _ _ E) as (Hq & Ho).
    split; [exact (Hq eq_refl)|].
    split; [exact (Ho eq_refl)|].
    exact (Hrecipe _ _ _ _ E eq_refl).
Defined.

(** C8. With [include_recipe] on, what [RecipeSwap.to_dict] puts under
    [recipe] is the requested recipe's view made with
    [include_author=False]: it has no [author] key and embeds no view, so
    the swap's view nests exactly one level.  When the swap names no
    recipe, its view has no [recipe] key. *)
Theorem swap_view_embeds_recipe_without_author
  (db : session) (self : recipe_swaps.row) (include_users : bool) (d : dict) :
  RecipeSwap.to_dict db self include_users true = Ok d ->
  match RecipeSwap.recipe db self with
  | Some r =>
      exists rd,
        Recipe.to_dict db r false = Ok rd /\
        dict_get (u "recipe") d = Some (PyDict rd) /\
        dict_mem (u "author") rd = false /\
        nesting rd = 0%nat /\
        nesting d = 1%nat
  | None => dict_mem (u "recipe") d = false
  end.
Proof.
  intros H. apply RecipeSwap_to_dict_embeds in H.
  destruct H as (_ & _ & Hr & _ & _ & Hn). unfold embedded_recipe in Hr.
  destruct (RecipeSwap.recipe db self) as [r|].
  - destruct Hr as (rd & Hrd & Hget). exists rd.
    destruct (Recipe_to_dict_plain _ _ _ Hrd) as (Ha & Hz).
    repeat split; auto.
    rewrite Hn. now rewrite orb_true_r.
  - unfold dict_mem. now rewrite Hr.
Qed.

(** Whatever the flags are, a swap's view never nests more than one
    level. *)
Lemma swap_view_nesting_bound db self include_users include_recipe d :
  RecipeSwap.to_dict db self include_users include_recipe = Ok d ->
  (nesting d <= 1)%nat.
Proof.
  intros H. apply RecipeSwap_to_dict_embeds in H.
  destruct H as (_ & _ & _ & _ & _ & Hn). rewrite Hn.
  destruct (_ || _); lia.
Qed.

Lemma swap_view_embeds_recipe_without_author_witness :
  exists d rd,
    RecipeSwap.to_dict sample_db pending_swap true true = Ok d /\
    Recipe.to_dict sample_db tofu_scramble false = Ok rd /\
    dict_get (u "recipe") d = Some (PyDict rd) /\
    dict_mem (u "author") rd = false /\
    nesting rd = 0%nat /\
    nesting d = 1%nat.
Proof.
  destruct (RecipeSwap.to_dict sample_db pending_swap true true) as [d|] eqn:E;
    [|discriminate E].
  exists d.
  pose proof (swap_view_embeds_recipe_without_author sample_db pending_swap true d E)
    as H.
  change (RecipeSwap.recipe sample_db pending_swap) with (Some tofu_scramble) in H.
  destruct H as (rd & H1 & H2 & H3 & H4 & H5).
  exists rd. repeat split; assumption.
Defined.

(* ------------------------------------------------------------------ *)
(** ** The status of a swap *)

Lemma update_status_effect now self value :
  exists r,
    RecipeSwap.update_status now self value = Ok r /\
    recipe_swaps.status r = Some value /\
    recipe_swaps.completed_at r = recipe_swaps.completed_at self /\
    recipe_swaps.updated_at r = Some now /\
    recipe_swaps.id r = recipe_swaps.id self /\
    recipe_swaps.requester_id r = recipe_swaps.requester_id self /\
    recipe_swaps.owner_id r = recipe_swaps.owner_id self /\
    recipe_swaps.recipe_id r = recipe_swaps.recipe_id self /\
    recipe_swaps.created_at r = recipe_swaps.created_at self.
Proof.
  eexists. split; [reflexivity|]. repeat split.
Qed.

(** The claim as the specification states it fails on the code: from
    [pending], the direct transition to [completed] does not raise, and
    after [pending], [accepted], [completed] the column [completed_at] is
    still unset. *)
Lemma pending_to_completed_is_accepted :
  recipe_swaps.status pending_swap = Some (u "pending") /\
  (exists r,
     RecipeSwap.update_status t0 pending_swap (u "completed") = Ok r /\
     recipe_swaps.status r = Some (u "completed")) /\
  (exists r,
     RecipeSwap.update_statuses t0 pending_swap [u "accepted"; u "completed"]
       = Ok r /\
     recipe_swaps.status r = Some (u "completed") /\
     recipe_swaps.completed_at r = None).
Proof.
  split; [reflexivity|]. split; eexists; repeat split.
Qed.

Lemma last_cons_default {A : Type} (x : A) (l : list A) (d d' : A) :
  last (x :: l) d = last (x :: l) d'.
Proof.
  revert x. induction l as [|y l IH]; intros x; [reflexivity|].
  change (last (y :: l) d = last (y :: l) d'). apply IH.
Qed.

(** C5, as the code has it.  [status] is a plain text column: every
    status transition succeeds, whatever the current and the new status
    are (so [pending] to [completed] directly, and [pending], [accepted],
    [completed] in turn), for statuses that fit the 20 characters of the
    column; it stores the new status, and it leaves [completed_at] as it
    was: no transition sets [completed_at]. *)
Theorem status_transitions_are_unchecked
  (now : datetime) (self : recipe_swaps.row) (values : list str) :
  Forall (fun v => (length v <= 20)%nat) values ->
  exists r,
    RecipeSwap.update_statuses now self values = Ok r /\
    recipe_swaps.status r
      = last (map Some values) (recipe_swaps.status self) /\
    recipe_swaps.completed_at r = recipe_swaps.completed_at self.
Proof.
  intros _. revert self. induction values as [|v rest IH]; intros self.
  - exists self. repeat split.
  - destruct (update_status_effect now self v) as (r1 & E1 & Hs & Hc & _).
    destruct (IH r1) as (r & E & Hst & Hct).
    exists r. cbn [RecipeSwap.update_statuses]. rewrite E1. cbn [bind].
    split; [exact E|]. split.
    + rewrite Hst, Hs. destruct rest as [|w rest]; [reflexivity|].
      change (last (Some w :: map Some rest) (Some v)
              = last (Some w :: map Some rest) (recipe_swaps.status self)).
      apply last_cons_default.
    + now rewrite Hct.
Qed.

(** From [pending]: declined and then accepted and then completed, each
    transition is taken, and [completed_at] stays unset. *)
Lemma status_transitions_are_unchecked_witness :
  exists r,
    RecipeSwap.update_statuses t0 pending_swap
      [u "declined"; u "accepted"; u "completed"] = Ok r /\
    recipe_swaps.status r = Some (u "completed") /\
    recipe_swaps.completed_at r = None.
Proof.
  apply (status_transitions_are_unchecked t0 pending_swap
           [u "declined"; u "accepted"; u "completed"]).
  repeat constructor; cbn; lia.
Defined.

(* ------------------------------------------------------------------ *)
(** ** The uniqueness constraint of reviews *)

Lemma fk_matches_sym a b : fk_matches a b = fk_matches b a.
Proof.
  destruct a, b; cbn; try reflexivity. apply Z.eqb_sym.
Qed.

Lemma same_recipe_reviewer_sym a b :
  reviews.same_recipe_reviewer a b = reviews.same_recipe_reviewer b a.
Proof.
  unfold reviews.same_recipe_reviewer.
  now rewrite (fk_matches_sym (reviews.recipe_id a)),
              (fk_matches_sym (reviews.reviewer_id a)).
Qed.

Lemma same_recipe_reviewer_defaults r pk now x :
  reviews.same_recipe_reviewer (reviews.with_defaults r pk now) x
  = reviews.same_recipe_reviewer r x.
Proof. reflexivity. Qed.

Lemma reviews_unique_app rows x :
  reviews_unique rows ->
  (forall y, In y rows -> reviews.same_recipe_reviewer x y = false) ->
  reviews_unique (rows ++ [x]).
Proof.
  induction rows as [|a rows IH]; intros Hu Hx; cbn.
  - split; [intros y []|exact I].
  - destruct Hu as (Ha & Hu). split.
    + intros y Hy. apply in_app_or in Hy. destruct Hy as [Hy|[<-|[]]].
      * now apply Ha.
      * rewrite same_recipe_reviewer_sym. apply Hx. now left.
    + apply IH; [exact Hu|]. intros y Hy. apply Hx. now right.
Qed.

Lemma reviews_unique_filter f rows :
  reviews_unique rows -> reviews_unique (filter f rows).
Proof.
  induction rows as [|a rows IH]; intros Hu; cbn; [exact I|].
  destruct Hu as (Ha & Hu). destruct (f a); cbn; [|now apply IH].
  split; [|now apply IH].
  intros y Hy. apply filter_In in Hy. now apply Ha.
Qed.

Lemma add_review_refused now db r x :
  In x (reviews_tbl db) ->
  reviews.same_recipe_reviewer r x = true ->
  add_review now db r = Raise IntegrityError.
Proof.
  intros Hin Hsame. unfold add_review.
  destruct (negb (reviews.not_null_columns r)); [reflexivity|].
  destruct (existsb _ (reviews_tbl db)); [reflexivity|].
  destruct (existsb (reviews.same_recipe_reviewer r) (reviews_tbl db)) eqn:E;
    [reflexivity|].
  assert (existsb (reviews.same_recipe_reviewer r) (reviews_tbl db) = true)
    as E' by (apply existsb_exists; now exists x).
  congruence.
Qed.

Lemma add_review_accepted now db r db1 :
  add_review now db r = Ok db1 ->
  reviews.not_null_columns r = true /\
  (forall y, In y (reviews_tbl db) ->
             reviews.same_recipe_reviewer r y = false) /\
  exists pk,
    reviews_tbl db1 = reviews_tbl db ++ [reviews.with_defaults r pk now] /\
    users_tbl db1 = users_tbl db /\
    recipes_tbl db1 = recipes_tbl db /\
    recipe_swaps_tbl db1 = recipe_swaps_tbl db.
Proof.
  unfold add_review. intros H.
  destruct (reviews.not_null_columns r); [|discriminate H]. cbn [negb] in H.
  destruct (existsb _ (reviews_tbl db)); [discriminate H|].
  destruct (existsb (reviews.same_recipe_reviewer r) (reviews_tbl db)) eqn:E;
    [discriminate H|].
  injection H as <-. split; [reflexivity|]. split.
  - intros y Hy.
    destruct (reviews.same_recipe_reviewer r y) eqn:Ey; [|reflexivity].
    assert (existsb (reviews.same_recipe_reviewer r) (reviews_tbl db) = true)
      as E' by (apply existsb_exists; now exists y).
    congruence.
  - eexists. cbn. repeat split.
Qed.

Lemma add_review_keeps_unique now db r :
  reviews_unique (reviews_tbl db) ->
  reviews_unique (reviews_tbl (after db (add_review now db r))).
Proof.
  intros Hu. destruct (add_review now db r) as [db1|] eqn:Hadd; cbn [after];
    [|exact Hu].
  destruct (add_review_accepted _ _ _ _ Hadd) as (_ & Hfresh & pk & Htbl & _).
  rewrite Htbl. apply reviews_unique_app; [exact Hu|].
  intros y Hy. rewrite same_recipe_reviewer_defaults. now apply Hfresh.
Qed.

(** C6. [unique_recipe_reviewer] keeps at most one review for each
    (recipe, reviewer) pair, and the INSERT enforces it: adding a review
    whose pair a row of the table already holds raises [IntegrityError]
    (the database's uniqueness violation) and adds nothing; so once a
    review has been added, a second one for the same pair is refused; and
    a table with at most one review for each pair stays so. *)
Theorem unique_recipe_reviewer_enforced
  (now : datetime) (db : session) (r : reviews.row) :
  (forall x,
     In x (reviews_tbl db) ->
     reviews.same_recipe_reviewer r x = true ->
     add_review now db r = Raise IntegrityError /\
     after db (add_review now db r) = db) /\
  (forall db1 now' r',
     add_review now db r = Ok db1 ->
     reviews.recipe_id r' = reviews.recipe_id r ->
     reviews.reviewer_id r' = reviews.reviewer_id r ->
     add_review now' db1 r' = Raise IntegrityError) /\
  (reviews_unique (reviews_tbl db) ->
   reviews_unique (reviews_tbl (after db (add_review now db r)))).
Proof.
  split; [|split].
  - intros x Hin Hsame. rewrite (add_review_refused now db r x Hin Hsame).
    split; reflexivity.
  - intros db1 now' r' Hadd Hrec Hrev.
    destruct (add_review_accepted _ _ _ _ Hadd) as (Hnn & _ & pk & Htbl & _).
    apply add_review_refused with (x := reviews.with_defaults r pk now).
    + rewrite Htbl. apply in_or_app. right. now left.
    + unfold reviews.same_recipe_reviewer. cbn. rewrite Hrec, Hrev.
      unfold reviews.not_null_columns in Hnn.
      destruct (reviews.rating r); [|discriminate].
      destruct (reviews.recipe_id r); [|discriminate].
      destruct (reviews.reviewer_id r); [|discriminate].
      cbn. now rewrite !Z.eqb_refl.
  - apply add_review_keeps_unique.
Qed.

(** bob's review of the Tofu Scramble is added; bob's second review of it
    is refused; carol's is added. *)
Lemma unique_recipe_reviewer_enforced_witness :
  exists db1 db2,
    add_review t0 empty_reviews_db (sample_review None 10 2 4) = Ok db1 /\
    add_review t0 db1 (sample_review None 10 2 5) = Raise IntegrityError /\
    add_review t0 db1 (sample_review None 10 3 2) = Ok db2 /\
    length (reviews_tbl db2) = 2%nat /\
    reviews_unique (reviews_tbl db2).
Proof.
  destruct (add_review t0 empty_reviews_db (sample_review None 10 2 4))
    as [db1|] eqn:E1; [|discriminate E1].
  destruct (add_review t0 db1 (sample_review None 10 3 2))
    as [db2|] eqn:E2;
    [|injection E1 as <-; discriminate E2].
  exists db1, db2. split; [reflexivity|]. split; [|split; [exact E2|split]].
  - exact (proj1 (proj2 (unique_recipe_reviewer_enforced
             t0 empty_reviews_db (sample_review None 10 2 4)))
             db1 t0 (sample_review None 10 2 5) E1 eq_refl eq_refl).
  - injection E1 as <-. injection E2 as <-. reflexivity.
  - pose proof (proj2 (proj2 (unique_recipe_reviewer_enforced
             t0 db1 (sample_review None 10 3 2)))) as H2.
    rewrite E2 in H2. apply H2.
    pose proof (proj2 (proj2 (unique_recipe_reviewer_enforced
             t0 empty_reviews_db (sample_review None 10 2 4)))) as H1.
    rewrite E1 in H1. apply H1. exact I.
Defined.

(* ------------------------------------------------------------------ *)
(** ** Deleting a user *)








(* ------------------------------------------------------------------ *)
(** ** The uniqueness of reviews over the runs of the store *)

Lemma step_keeps_reviews_unique db db' :
  step db db' ->
  reviews_unique (reviews_tbl db) -> reviews_unique (reviews_tbl db').
Proof.
  intros [now d r|d r|d x] Hu.
  - now apply add_review_keeps_unique.
  - cbn. now apply reviews_unique_filter.
  - unfold delete_user.
    destruct (negb _); [exact Hu|].
    destruct (dissociate _ _ _ _) as [s2|]; [|exact Hu]. cbn [bind].
    destruct (dissociate _ _ _ _) as [s3|]; [|exact Hu]. cbn.
    now apply reviews_unique_filter.
Qed.

Lemma reachable_keeps_reviews_unique db0 db :
  reachable db0 db ->
  reviews_unique (reviews_tbl db0) -> reviews_unique (reviews_tbl db).
Proof.
  induction 1 as [|d d' _ IH Hstep]; intros Hu; [exact Hu|].
  apply (step_keeps_reviews_unique _ _ Hstep). now apply IH.
Qed.

(* ------------------------------------------------------------------ *)
(** ** Reading back what [json.dumps] writes: numbers *)

Lemma delimited_not_digit rest : delimited rest = true -> not_digit_head rest.
Proof.
  destruct rest as [|c r]; cbn; [trivial|]. unfold COMMA, RBRACKET, RBRACE.
  intros H. unfold is_digit.
  repeat (apply orb_true_iff in H; destruct H as [H|H]);
    apply N.eqb_eq in H; subst c; reflexivity.
Qed.

Lemma take_digits_nondigit rest :
  not_digit_head rest -> take_digits rest = (Nil, rest).
Proof.
  destruct rest as [|c r]; cbn; [reflexivity|]. now intros ->.
Qed.

Lemma take_digits_app s d r rest :
  take_digits s = (d, r) ->
  r <> [] \/ not_digit_head rest ->
  take_digits (s ++ rest) = (d, r ++ rest).
Proof.
  revert d r. induction s as [|c s IH]; intros d r H Hc.
  - cbn in H. injection H as <- <-. cbn.
    destruct Hc as [Hc|Hc]; [congruence|]. now apply take_digits_nondigit.
  - cbn in H |- *. destruct (is_digit c).
    + destruct (take_digits s) as (d', r') eqn:E. injection H as <- <-.
      now rewrite (IH d' r' eq_refl Hc).
    + injection H as <- <-. reflexivity.
Qed.

Lemma take_digits_uint_chars d :
  take_digits (uint_chars d) = (d, []).
Proof.
  induction d; cbn; try reflexivity; now rewrite IHd.
Qed.

Lemma uint_chars_nonnil d : d <> Nil -> uint_chars d <> [].
Proof. destruct d; cbn; congruence. Qed.

(** The digits of a positive number start with a digit that is not 0. *)
Lemma to_uint_head p :
  match Pos.to_uint p with
  | Nil | D0 _ => False
  | _ => True
  end.
Proof.
  pose proof (DecimalPos.Unsigned.to_of (Pos.to_uint p)) as H.
  rewrite DecimalPos.Unsigned.of_to in H. cbn in H.
  pose proof (DecimalPos.Unsigned.to_uint_nonzero p) as Hnz.
  pose proof (DecimalPos.Unsigned.to_uint_nonnil p) as Hnn.
  destruct (Pos.to_uint p) as [|d| | | | | | | | |] eqn:E; try exact I.
  - congruence.
  - unfold unorm in H.
    pose proof (nzhead_nonzero (D0 d)) as Hz.
    destruct (nzhead (D0 d)) eqn:E2;
      try discriminate H; try (exact (Hz _ eq_refl)).
    exact (Hnz H).
Qed.

Lemma match_integer_app s i r rest :
  match_integer s = Some (i, r) ->
  delimited rest = true ->
  match_integer (s ++ rest) = Some (i, r ++ rest).
Proof.
  intros H Hd. destruct s as [|c s]; [discriminate H|].
  unfold match_integer in *; cbn [List.app] in *.
  destruct (N.eqb c 48).
  - injection H as <- <-. reflexivity.
  - destruct (is_digit c) eqn:Ec; [|discriminate H].
    injection H as H. change (c :: s ++ rest) with ((c :: s) ++ rest).
    rewrite (take_digits_app (c :: s) _ _ rest H); [reflexivity|].
    right. now apply delimited_not_digit.
Qed.

Lemma delimited_head rest :
  delimited rest = true ->
  match rest with
  | [] => True
  | c :: _ =>
      is_digit c = false /\ N.eqb c DOT = false /\
      N.eqb c 101 = false /\ N.eqb c 69 = false /\
      N.eqb c 43 = false /\ N.eqb c MINUS = false /\ is_ws c = false /\
      N.eqb c QUOTE = false
  end.
Proof.
  destruct rest as [|c r]; cbn; [trivial|]. unfold COMMA, RBRACKET, RBRACE.
  intros H.
  repeat (apply orb_true_iff in H; destruct H as [H|H]);
    apply N.eqb_eq in H; subst c; repeat split.
Qed.

Lemma match_frac_app_some s f r rest :
  match_frac s = Some (f, r) ->
  delimited rest = true ->
  match_frac (s ++ rest) = Some (f, r ++ rest).
Proof.
  intros H Hd. destruct s as [|d [|c s]]; try discriminate H.
  unfold match_frac in *; cbn [List.app] in *.
  destruct (N.eqb d DOT && is_digit c); [|discriminate H].
  injection H as H. change (c :: s ++ rest) with ((c :: s) ++ rest).
  rewrite (take_digits_app (c :: s) _ _ rest H); [reflexivity|].
  right. now apply delimited_not_digit.
Qed.

Lemma match_frac_app_none s rest :
  match_frac s = None ->
  delimited rest = true ->
  match_frac (s ++ rest) = None.
Proof.
  intros H Hd. pose proof (delimited_head rest Hd) as Hh.
  unfold match_frac in *.
  destruct s as [|d [|c s]]; cbn [List.app].
  - destruct rest as [|d [|c r]]; try reflexivity.
    destruct Hh as (_ & -> & _). reflexivity.
  - destruct rest as [|c r]; [reflexivity|].
    destruct Hh as (-> & _). now rewrite andb_false_r.
  - destruct (N.eqb d DOT && is_digit c); [discriminate H|reflexivity].
Qed.

Lemma exp_sign_app r rest :
  delimited rest = true ->
  exp_sign (r ++ rest) = (fst (exp_sign r), snd (exp_sign r) ++ rest).
Proof.
  intros Hd. pose proof (delimited_head rest Hd) as Hh.
  unfold exp_sign.
  destruct r as [|sg [|c r]]; cbn [List.app].
  - destruct rest as [|sg [|c r]]; try reflexivity.
    destruct Hh as (_ & _ & _ & _ & -> & -> & _). reflexivity.
  - destruct rest as [|c r]; [reflexivity|].
    destruct Hh as (-> & _). now rewrite andb_false_r.
  - destruct ((N.eqb sg 43 || N.eqb sg MINUS) && is_digit c); reflexivity.
Qed.

Lemma match_exp_app_some s n d r rest :
  match_exp s = Some (n, d, r) ->
  delimited rest = true ->
  match_exp (s ++ rest) = Some (n, d, r ++ rest).
Proof.
  intros H Hd. destruct s as [|e s]; [discriminate H|].
  unfold match_exp in *; cbn [List.app] in *.
  destruct (N.eqb e 101 || N.eqb e 69); [|discriminate H].
  rewrite (exp_sign_app s rest Hd).
  destruct (exp_sign s) as (neg, r1). cbn [fst snd].
  destruct (take_digits r1) as (d', r') eqn:E.
  rewrite (take_digits_app r1 _ _ rest E)
    by (right; now apply delimited_not_digit).
  destruct d'; try discriminate H; injection H as <- <- <-; reflexivity.
Qed.

Lemma match_exp_app_none s rest :
  match_exp s = None ->
  delimited rest = true ->
  match_exp (s ++ rest) = None.
Proof.
  intros H Hd. pose proof (delimited_head rest Hd) as Hh.
  unfold match_exp in *.
  destruct s as [|e s]; cbn [List.app].
  - destruct rest as [|c r]; [reflexivity|].
    destruct Hh as (_ & _ & -> & -> & _). reflexivity.
  - destruct (N.eqb e 101 || N.eqb e 69); [|reflexivity].
    rewrite (exp_sign_app s rest Hd).
    destruct (exp_sign s) as (neg, r1). cbn [fst snd].
    destruct (take_digits r1) as (d', r') eqn:E.
    rewrite (take_digits_app r1 _ _ rest E)
      by (right; now apply delimited_not_digit).
    destruct d'; try discriminate H; reflexivity.
Qed.

Lemma match_unsigned_app neg s v rest :
  match_unsigned neg s = Some (v, []) ->
  delimited rest = true ->
  match_unsigned neg (s ++ rest) = Some (v, rest).
Proof.
  intros H Hd. unfold match_unsigned in *.
  destruct (match_integer s) as [(i, s2)|] eqn:Ei; [|discriminate H].
  rewrite (match_integer_app s _ _ rest Ei Hd).
  destruct (match_frac s2) as [(f, s3)|] eqn:Ef.
  - rewrite (match_frac_app_some s2 _ _ rest Ef Hd).
    destruct (match_exp s3) as [((n, d), s4)|] eqn:Ee.
    + rewrite (match_exp_app_some s3 _ _ _ rest Ee Hd).
      injection H as <- ->. reflexivity.
    + rewrite (match_exp_app_none s3 rest Ee Hd).
      injection H as <- ->. reflexivity.
  - rewrite (match_frac_app_none s2 rest Ef Hd).
    destruct (match_exp s2) as [((n, d), s4)|] eqn:Ee.
    + rewrite (match_exp_app_some s2 _ _ _ rest Ee Hd).
      injection H as <- ->. reflexivity.
    + rewrite (match_exp_app_none s2 rest Ee Hd).
      injection H as <- ->. reflexivity.
Qed.

(** A number that fills a text is read the same when a delimiter
    follows. *)
Lemma match_number_app s v rest :
  match_number s = Some (v, []) ->
  delimited rest = true ->
  match_number (s ++ rest) = Some (v, rest).
Proof.
  intros H Hd. unfold match_number in *.
  destruct s as [|c s]; [discriminate H|]. cbn [List.app].
  destruct (N.eqb c MINUS).
  - now apply match_unsigned_app.
  - now apply (match_unsigned_app false (c :: s) v rest).
Qed.

Lemma match_integer_to_uint p :
  match_integer (uint_chars (Pos.to_uint p)) = Some (Pos.to_uint p, []).
Proof.
  unfold match_integer. pose proof (to_uint_head p) as Hh.
  pose proof (take_digits_uint_chars (Pos.to_uint p)) as Ht.
  destruct (Pos.to_uint p); try contradiction; cbn in *; now rewrite Ht.
Qed.

Lemma match_number_int_repr z :
  match_number (int_repr z) = Some (PyInt z, []).
Proof.
  unfold int_repr. pose proof (DecimalZ.of_to z) as Hz.
  destruct z as [|p|p]; [reflexivity| |]; cbn [Z.to_int] in *.
  - unfold match_number. pose proof (to_uint_head p) as Hh.
    pose proof (match_integer_to_uint p) as Hi.
    assert (match_unsigned false (uint_chars (Pos.to_uint p))
            = Some (PyInt (Z.pos p), [])) as Hu.
    { unfold match_unsigned. rewrite Hi. cbn. now rewrite <- Hz. }
    destruct (Pos.to_uint p); try contradiction; exact Hu.
  - unfold match_number. change (N.eqb MINUS MINUS) with true. cbv iota.
    unfold match_unsigned. rewrite (match_integer_to_uint p).
    cbn. now rewrite <- Hz.
Qed.

(* ------------------------------------------------------------------ *)
(** ** Reading back what [json.dumps] writes: strings *)

Lemma hex_value_hex_digit d :
  (d < 16)%N -> hex_value (hex_digit d) = Some d.
Proof.
  intros H. destruct d as [|p]; [reflexivity|].
  repeat (destruct p as [p|p|]; try reflexivity; try (exfalso; lia)).
Qed.

Lemma hex4_u_escape c :
  (c < 65536)%N ->
  hex4 (hex_digit ((c / 4096) mod 16)%N) (hex_digit ((c / 256) mod 16)%N)
       (hex_digit ((c / 16) mod 16)%N) (hex_digit (c mod 16)%N) = Some c.
Proof.
  intros H. unfold hex4.
  rewrite !hex_value_hex_digit by (apply N.mod_lt; discriminate).
  f_equal.
  replace (c / 256)%N with (c / 16 / 16)%N
    by (rewrite N.Div0.div_div; reflexivity).
  replace (c / 4096)%N with (c / 16 / 16 / 16)%N
    by (rewrite !N.Div0.div_div; reflexivity).
  pose proof (N.div_mod' c 16) as H0.
  pose proof (N.div_mod' (c / 16) 16) as H1.
  pose proof (N.div_mod' (c / 16 / 16) 16) as H2.
  pose proof (N.div_mod' (c / 16 / 16 / 16) 16) as H3.
  pose proof (N.mod_lt c 16 ltac:(discriminate)).
  pose proof (N.mod_lt (c / 16) 16 ltac:(discriminate)).
  pose proof (N.mod_lt (c / 16 / 16) 16 ltac:(discriminate)).
  pose proof (N.mod_lt (c / 16 / 16 / 16) 16 ltac:(discriminate)).
  assert (c / 16 / 16 / 16 / 16 = 0)%N as Hz
    by (rewrite !N.Div0.div_div; apply N.div_small; exact H).
  rewrite Hz in H3. lia.
Qed.

Lemma scanstring_quote r : scanstring (QUOTE :: r) = Ok ([], r).
Proof. reflexivity. Qed.

Lemma scanstring_plain c r :
  N.eqb c QUOTE = false -> N.eqb c BACKSLASH = false -> (c <? 32)%N = false ->
  scanstring (c :: r) = ('(x, rest) <- scanstring r ;; Ok (c :: x, rest)).
Proof.
  intros H1 H2 H3. cbn [scanstring]. now rewrite H1, H2, H3.
Qed.

Lemma scanstring_short e d r :
  N.eqb e LETTER_u = false -> short_escape e = Some d ->
  scanstring (BACKSLASH :: e :: r)
  = ('(x, rest) <- scanstring r ;; Ok (d :: x, rest)).
Proof.
  intros H1 H2. cbn [scanstring].
  change (N.eqb BACKSLASH QUOTE) with false.
  change (N.eqb BACKSLASH BACKSLASH) with true. cbv iota.
  now rewrite H1, H2.
Qed.

Lemma scanstring_u_eq h1 h2 h3 h4 r2 :
  scanstring (BACKSLASH :: LETTER_u :: h1 :: h2 :: h3 :: h4 :: r2) =
  match hex4 h1 h2 h3 h4 with
  | None => Raise JSONDecodeError
  | Some cu =>
      if is_high_surrogate cu then
        match r2 with
        | b :: l :: g1 :: g2 :: g3 :: g4 :: r3 =>
            if N.eqb b BACKSLASH && N.eqb l LETTER_u then
              match hex4 g1 g2 g3 g4 with
              | None => Raise JSONDecodeError
              | Some cu2 =>
                  if is_low_surrogate cu2 then
                    '(x, rest) <- scanstring r3 ;;
                    Ok (join_surrogates cu cu2 :: x, rest)
                  else '(x, rest) <- scanstring r2 ;; Ok (cu :: x, rest)
              end
            else '(x, rest) <- scanstring r2 ;; Ok (cu :: x, rest)
        | _ => '(x, rest) <- scanstring r2 ;; Ok (cu :: x, rest)
        end
      else '(x, rest) <- scanstring r2 ;; Ok (cu :: x, rest)
  end.
Proof. reflexivity. Qed.

Lemma scanstring_u_lone c r2 :
  (c < 65536)%N ->
  (is_high_surrogate c = true -> no_low_escape r2) ->
  scanstring (u_escape c ++ r2)
  = ('(x, rest) <- scanstring r2 ;; Ok (c :: x, rest)).
Proof.
  intros Hc Hno. unfold u_escape. cbn [List.app].
  rewrite scanstring_u_eq, (hex4_u_escape c Hc).
  destruct (is_high_surrogate c); [|reflexivity].
  specialize (Hno eq_refl). unfold no_low_escape in Hno.
  destruct r2 as [|b [|l [|g1 [|g2 [|g3 [|g4 r3]]]]]]; try reflexivity.
  destruct Hno as [-> | (cu2 & -> & ->)]; [reflexivity|].
  destruct (N.eqb b BACKSLASH && N.eqb l LETTER_u); reflexivity.
Qed.

Lemma scanstring_u_pair hi lo r3 :
  (hi < 65536)%N -> (lo < 65536)%N ->
  is_high_surrogate hi = true -> is_low_surrogate lo = true ->
  scanstring (u_escape hi ++ u_escape lo ++ r3)
  = ('(x, rest) <- scanstring r3 ;; Ok (join_surrogates hi lo :: x, rest)).
Proof.
  intros Hhi Hlo Hh Hl. unfold u_escape. cbn [List.app].
  rewrite scanstring_u_eq, (hex4_u_escape hi Hhi), Hh.
  change (N.eqb BACKSLASH BACKSLASH && N.eqb LETTER_u LETTER_u) with true.
  cbv iota. now rewrite (hex4_u_escape lo Hlo), Hl.
Qed.

Lemma no_low_escape_escape s rest :
  match s with
  | d :: _ => (d <? 1114112)%N = true /\ is_low_surrogate d = false
  | [] => True
  end ->
  no_low_escape (escape s ++ QUOTE :: rest).
Proof.
  destruct s as [|c s]; intros H.
  - cbn [escape List.app]. unfold no_low_escape.
    split_tail rest; try exact I; now left.
  - destruct H as (Hc & Hlow). cbn [escape].
    rewrite <- app_assoc.
    set (tail := escape s ++ QUOTE :: rest). clearbody tail.
    unfold escape_char.
    destruct (N.eqb c QUOTE);
      [unfold no_low_escape; cbn [List.app]; split_tail tail;
       try exact I; now left|].
    destruct (N.eqb c BACKSLASH) eqn:Eb;
      [unfold no_low_escape; cbn [List.app]; split_tail tail;
       try exact I; now left|].
    destruct (N.eqb c 10);
      [unfold no_low_escape; cbn [List.app]; split_tail tail;
       try exact I; now left|].
    destruct (N.eqb c 13);
      [unfold no_low_escape; cbn [List.app]; split_tail tail;
       try exact I; now left|].
    destruct (N.eqb c 9);
      [unfold no_low_escape; cbn [List.app]; split_tail tail;
       try exact I; now left|].
    destruct (N.eqb c 8);
      [unfold no_low_escape; cbn [List.app]; split_tail tail;
       try exact I; now left|].
    destruct (N.eqb c 12);
      [unfold no_low_escape; cbn [List.app]; split_tail tail;
       try exact I; now left|].
    destruct ((32 <=? c)%N && (c <=? 126)%N).
    { unfold no_low_escape; cbn [List.app]; split_tail tail;
        try exact I; left; now rewrite Eb. }
    destruct (c <? 65536)%N eqn:E16.
    + apply N.ltb_lt in E16. unfold u_escape, no_low_escape. cbn [List.app].
      right. exists c. split; [now apply hex4_u_escape | exact Hlow].
    + apply N.ltb_ge in E16. apply N.ltb_lt in Hc. cbv zeta.
      unfold u_escape at 1. unfold no_low_escape. cbn [List.app].
      right. eexists. split.
      * apply hex4_u_escape.
        pose proof (N.mod_lt ((c - 65536) / 1024) 1024 ltac:(discriminate)).
        set (x := (((c - 65536) / 1024) mod 1024)%N) in *. clearbody x. lia.
      * unfold is_low_surrogate.
        pose proof (N.mod_lt ((c - 65536) / 1024) 1024 ltac:(discriminate)).
        set (x := (((c - 65536) / 1024) mod 1024)%N) in *. clearbody x.
        apply andb_false_iff. left. apply N.leb_gt. lia.
Qed.

Lemma join_surrogates_split c :
  (65536 <= c)%N -> (c < 1114112)%N ->
  let v := (c - 65536)%N in
  let hi := (55296 + (v / 1024) mod 1024)%N in
  let lo := (56320 + v mod 1024)%N in
  (hi < 65536)%N /\ (lo < 65536)%N /\
  is_high_surrogate hi = true /\ is_low_surrogate lo = true /\
  join_surrogates hi lo = c.
Proof.
  intros H1 H2. cbv zeta.
  assert (exists v, v = c - 65536 /\ v < 1048576)%N as (v & Ev & Hv)
    by (eexists; split; [reflexivity|lia]).
  rewrite <- Ev.
  assert (c = v + 65536)%N as -> by lia. clear Ev H1 H2.
  assert (v / 1024 < 1024)%N as Hq
    by (apply N.Div0.div_lt_upper_bound; exact Hv).
  rewrite (N.mod_small (v / 1024) 1024 Hq).
  pose proof (N.div_mod' v 1024) as Hdm.
  pose proof (N.mod_lt v 1024 ltac:(discriminate)) as Hl.
  set (q := (v / 1024)%N) in *. set (r := (v mod 1024)%N) in *.
  clearbody q r.
  unfold is_high_surrogate, is_low_surrogate, join_surrogates.
  repeat split; try lia.
  - apply andb_true_iff. split; apply N.leb_le; lia.
  - apply andb_true_iff. split; apply N.leb_le; lia.
Qed.

Lemma escape_char_scan c tail :
  (c <? 1114112)%N = true ->
  (is_high_surrogate c = true -> no_low_escape tail) ->
  scanstring (escape_char c ++ tail)
  = ('(x, rest) <- scanstring tail ;; Ok (c :: x, rest)).
Proof.
  intros Hc Hno. unfold escape_char.
  destruct (N.eqb_spec c QUOTE) as [->|Hq]; [reflexivity|].
  destruct (N.eqb_spec c BACKSLASH) as [->|Hb]; [reflexivity|].
  destruct (N.eqb_spec c 10) as [->|H10]; [reflexivity|].
  destruct (N.eqb_spec c 13) as [->|H13]; [reflexivity|].
  destruct (N.eqb_spec c 9) as [->|H9]; [reflexivity|].
  destruct (N.eqb_spec c 8) as [->|H8]; [reflexivity|].
  destruct (N.eqb_spec c 12) as [->|H12]; [reflexivity|].
  destruct ((32 <=? c)%N && (c <=? 126)%N) eqn:Ep.
  { apply andb_true_iff in Ep. destruct Ep as (Ep & _).
    apply N.leb_le in Ep. cbn [List.app].
    apply scanstring_plain.
    - now apply N.eqb_neq.
    - now apply N.eqb_neq.
    - apply N.ltb_ge. exact Ep. }
  destruct (c <? 65536)%N eqn:E16.
  - apply N.ltb_lt in E16. now apply scanstring_u_lone.
  - apply N.ltb_ge in E16. apply N.ltb_lt in Hc.
    destruct (join_surrogates_split c E16 Hc) as (Hhi & Hlo & Hh & Hl & Hj).
    cbv zeta. rewrite <- app_assoc.
    rewrite (scanstring_u_pair _ _ tail Hhi Hlo Hh Hl). now rewrite Hj.
Qed.

(** A string is read back from its escaped text. *)
Lemma scanstring_escape s rest :
  str_ok s = true ->
  scanstring (escape s ++ QUOTE :: rest) = Ok (s, rest).
Proof.
  induction s as [|c s IH]; intros Hok; [reflexivity|].
  cbn [str_ok] in Hok.
  apply andb_true_iff in Hok. destruct Hok as (Hok & Hs).
  apply andb_true_iff in Hok. destruct Hok as (Hc & Hpair).
  cbn [escape]. rewrite <- app_assoc.
  rewrite escape_char_scan.
  - now rewrite (IH Hs).
  - exact Hc.
  - intros Hh. rewrite Hh in Hpair. cbn [andb] in Hpair.
    apply no_low_escape_escape.
    destruct s as [|d s']; [exact I|].
    cbn [str_ok] in Hs.
    apply andb_true_iff in Hs. destruct Hs as (Hs & _).
    apply andb_true_iff in Hs. destruct Hs as (Hd & _).
    split; [exact Hd|]. now apply negb_true_iff in Hpair.
Qed.

Lemma scan_encoded_string s rest :
  str_ok s = true ->
  scanstring (escape s ++ [QUOTE] ++ rest) = Ok (s, rest).
Proof. apply scanstring_escape. Qed.

(* ------------------------------------------------------------------ *)
(** ** Reading back what [json.dumps] writes: values *)

(** Induction on a value, with the hypothesis for every element of a list
    or a tuple and every key and value of a dictionary. *)
Lemma pyval_nested_ind (P : pyval -> Prop) :
  P PyNone ->
  (forall b, P (PyBool b)) ->
  (forall z, P (PyInt z)) ->
  (forall f, P (PyFloat f)) ->
  (forall s, P (PyStr s)) ->
  (forall l, Forall P l -> P (PyList l)) ->
  (forall l, Forall P l -> P (PyTuple l)) ->
  (forall kvs, Forall (fun kv => P (fst kv) /\ P (snd kv)) kvs ->
               P (PyDict kvs)) ->
  forall v, P v.
Proof.
  intros HN HB HI HF HS HL HT HD.
  fix IH 1. intros [ | b | z | f | s | l | l | kvs].
  - exact HN.
  - apply HB.
  - apply HI.
  - apply HF.
  - apply HS.
  - apply HL. induction l as [|x l IHl]; constructor; [apply IH | exact IHl].
  - apply HT. induction l as [|x l IHl]; constructor; [apply IH | exact IHl].
  - apply HD. induction kvs as [|[k x] kvs IHk]; constructor;
      [split; apply IH | exact IHk].
Qed.

Lemma skip_ws_good t rest : good_text t -> skip_ws (t ++ rest) = t ++ rest.
Proof.
  destruct t as [|c t]; [intros []|]. intros (H & _).
  cbn [List.app skip_ws]. now rewrite H.
Qed.

Lemma match_number_head c s x :
  match_number (c :: s) = Some x ->
  N.eqb c MINUS = true \/ is_digit c = true.
Proof.
  unfold match_number. destruct (N.eqb c MINUS); [now left|].
  intros H. right. unfold match_unsigned, match_integer in H.
  destruct (N.eqb_spec c 48) as [->|_]; [reflexivity|].
  destruct (is_digit c); [reflexivity|discriminate H].
Qed.

Lemma digit_cases c :
  is_digit c = true ->
  c = 48%N \/ c = 49%N \/ c = 50%N \/ c = 51%N \/ c = 52%N \/
  c = 53%N \/ c = 54%N \/ c = 55%N \/ c = 56%N \/ c = 57%N.
Proof.
  unfold is_digit. intros H. apply andb_true_iff in H.
  destruct H as (H1 & H2). apply N.leb_le in H1. apply N.leb_le in H2. lia.
Qed.

Lemma scan_once_number depth c s x :
  match_number (c :: s) = Some x ->
  scan_once (S depth) (c :: s) = Ok x.
Proof.
  intros H. pose proof (match_number_head c s _ H) as Hc.
  destruct Hc as [Hc|Hc].
  - apply N.eqb_eq in Hc. subst c.
    cbn [scan_once]. change (N.eqb MINUS QUOTE) with false.
    change (N.eqb MINUS LBRACE) with false.
    change (N.eqb MINUS LBRACKET) with false. cbv iota.
    change (literal "null" PyNone (MINUS :: s)) with (@None (pyval * str)).
    change (literal "true" (PyBool true) (MINUS :: s))
      with (@None (pyval * str)).
    change (literal "false" (PyBool false) (MINUS :: s))
      with (@None (pyval * str)).
    cbv iota. now rewrite H.
  - apply digit_cases in Hc.
    repeat (destruct Hc as [Hc|Hc]; [subst c|]); try subst c;
      cbn [scan_once];
      match goal with
      | |- context [match_number (?d :: s)] =>
          change (N.eqb d QUOTE) with false;
          change (N.eqb d LBRACE) with false;
          change (N.eqb d LBRACKET) with false; cbv iota;
          change (literal "null" PyNone (d :: s)) with (@None (pyval * str));
          change (literal "true" (PyBool true) (d :: s))
            with (@None (pyval * str));
          change (literal "false" (PyBool false) (d :: s))
            with (@None (pyval * str));
          cbv iota; now rewrite H
      end.
Qed.

Lemma number_good_text c s x :
  match_number (c :: s) = Some x -> good_text (c :: s).
Proof.
  intros H. destruct (match_number_head c s _ H) as [Hc|Hc].
  - apply N.eqb_eq in Hc. subst c. repeat split.
  - apply digit_cases in Hc.
    repeat (destruct Hc as [Hc|Hc]; [subst c; repeat split|]).
    subst c; repeat split.
Qed.

(** A number that [match_number] reads whole is read back by
    [scan_once]. *)
Lemma number_reads_back v t :
  height v = 0%nat ->
  match_number t = Some (v, []) ->
  good_text t /\ (height v < length t)%nat /\ reads_back v t.
Proof.
  intros Hh H. destruct t as [|c s]; [discriminate H|].
  split; [exact (number_good_text c s _ H)|].
  split; [rewrite Hh; cbn; lia|].
  intros depth rest Hd Hdel. destruct depth as [|depth]; [lia|].
  pose proof (match_number_app (c :: s) v rest H Hdel) as Happ.
  cbn [List.app] in *. now apply scan_once_number.
Qed.

Lemma good_text_app t rest : good_text t -> good_text (t ++ rest).
Proof. destruct t; [intros []|exact id]. Qed.

Lemma encode_items_cons enc x y l :
  encode_items enc (x :: y :: l)
  = (t <- enc x ;; ts <- encode_items enc (y :: l) ;; Ok (t ++ u ", " ++ ts)).
Proof. reflexivity. Qed.

Lemma array_items_encoded l :
  l <> [] ->
  Forall written l ->
  forallb jsonable l = true ->
  exists items,
    encode_items json_dumps l = Ok items /\ good_text items /\
    (length l <= length items)%nat /\
    (max_height l < length items)%nat /\
    forall d n rest,
      (max_height l < d)%nat -> (length l <= n)%nat ->
      array_items (scan_once d) n (items ++ RBRACKET :: rest) = Ok (l, rest).
Proof.
  induction l as [|x l IH]; intros Hne Hall Hjs; [congruence|].
  inversion Hall as [|? ? Hx Hl]; subst.
  cbn [forallb] in Hjs. apply andb_true_iff in Hjs. destruct Hjs as (Hjx & Hjl).
  destruct (Hx Hjx) as (t & Hdump & Hgood & Hht & Hread).
  destruct l as [|y l'].
  - exists t. cbn [encode_items]. rewrite Hdump. cbn [bind].
    split; [reflexivity|]. split; [exact Hgood|].
    split; [destruct t; [destruct Hgood|cbn; lia]|].
    split; [cbn; lia|].
    intros d n rest Hd Hn. destruct n as [|n]; [cbn in Hn; lia|].
    cbn [array_items].
    rewrite (Hread d (RBRACKET :: rest)); [|cbn in Hd; lia|reflexivity].
    reflexivity.
  - destruct (IH ltac:(discriminate) Hl Hjl)
      as (items & Henc & Hgi & Hlen & Hmh & Hrest).
    exists (t ++ u ", " ++ items).
    rewrite encode_items_cons, Hdump. cbn [bind].
    rewrite Henc. cbn [bind].
    split; [reflexivity|]. split; [now apply good_text_app|].
    rewrite !length_app.
    split; [cbn [length] in *; lia|].
    split; [cbn [max_height fold_right length] in *;
            change (fold_right (fun x n => Nat.max (height x) n) O l')
              with (max_height l') in *; lia|].
    intros d n rest Hd Hn. destruct n as [|n]; [cbn in Hn; lia|].
    cbn [array_items]. rewrite <- !app_assoc.
    cbn [max_height fold_right] in Hd.
    change (fold_right (fun x n => Nat.max (height x) n) O l')
      with (max_height l') in Hd.
    rewrite (Hread d); [|lia|reflexivity]. cbn [bind].
    change (u ", " ++ items ++ RBRACKET :: rest)
      with (COMMA :: 32%N :: items ++ RBRACKET :: rest).
    cbn [skip_ws]. change (is_ws COMMA) with false. cbv iota.
    change (N.eqb COMMA RBRACKET) with false.
    change (N.eqb COMMA COMMA) with true. cbv iota.
    cbn [skip_ws]. change (is_ws 32%N) with true. cbv iota.
    rewrite (skip_ws_good items (RBRACKET :: rest) Hgi).
    rewrite (Hrest d n rest); [reflexivity| |cbn [length] in *; lia].
    cbn [max_height fold_right].
    change (fold_right (fun x n => Nat.max (height x) n) O l')
      with (max_height l'). lia.
Qed.

Lemma jsonable_dict kvs : jsonable (PyDict kvs) = members_jsonable kvs.
Proof. reflexivity. Qed.

Lemma height_dict kvs : height (PyDict kvs) = S (members_height kvs).
Proof. reflexivity. Qed.

Lemma str_eqb_sym a b : str_eqb a b = str_eqb b a.
Proof.
  revert b. induction a as [|x a IH]; intros [|y b]; cbn; try reflexivity.
  now rewrite N.eqb_sym, IH.
Qed.

Lemma dict_get_app k d1 d2 :
  dict_get k (d1 ++ d2)
  = match dict_get k d1 with
    | Some v => Some v
    | None => dict_get k d2
    end.
Proof.
  induction d1 as [|[key w] d1 IH]; [reflexivity|].
  cbn [List.app dict_get]. destruct (key_is k key); [reflexivity|exact IH].
Qed.

Lemma dict_mem_app k d1 d2 :
  dict_mem k (d1 ++ d2) = dict_mem k d1 || dict_mem k d2.
Proof.
  unfold dict_mem. rewrite dict_get_app.
  destruct (dict_get k d1); reflexivity.
Qed.

Lemma dict_set_fresh k v d :
  dict_mem k d = false -> dict_set k v d = d ++ [(PyStr k, v)].
Proof.
  induction d as [|[key w] d IH]; intros H; [reflexivity|].
  unfold dict_mem in H. cbn [dict_get] in H. cbn [dict_set List.app].
  destruct (key_is k key); [discriminate H|].
  f_equal. apply IH. exact H.
Qed.

Lemma dict_mem_as_dict k pairs :
  dict_mem k (as_dict pairs) = false ->
  forall p, In p pairs -> str_eqb k (fst p) = false.
Proof.
  induction pairs as [|[k' v] pairs IH]; intros H p Hp; [destruct Hp|].
  unfold dict_mem in H. cbn [as_dict map dict_get fst snd key_is] in H.
  destruct (str_eqb k k') eqn:E; [discriminate H|].
  destruct Hp as [<-|Hp]; [exact E|]. now apply IH.
Qed.

Lemma dict_of_pairs_from_distinct pairs d :
  distinct_keys pairs ->
  (forall p, In p pairs -> dict_mem (fst p) d = false) ->
  dict_of_pairs_from d pairs = d ++ as_dict pairs.
Proof.
  revert d. induction pairs as [|[k v] pairs IH]; intros d Hd Hfresh.
  - cbn. now rewrite List.app_nil_r.
  - destruct Hd as (Hk & Hd). cbn [dict_of_pairs_from].
    rewrite dict_set_fresh by (apply (Hfresh (k, v)); now left).
    rewrite IH; [now rewrite <- app_assoc|exact Hd|].
    intros p Hp. rewrite dict_mem_app.
    rewrite (Hfresh p) by now right.
    unfold dict_mem. cbn [dict_get key_is orb].
    rewrite str_eqb_sym, (dict_mem_as_dict k pairs Hk p Hp). reflexivity.
Qed.

Lemma dict_of_pairs_distinct pairs :
  distinct_keys pairs -> dict_of_pairs pairs = as_dict pairs.
Proof.
  intros H. unfold dict_of_pairs.
  now rewrite dict_of_pairs_from_distinct.
Qed.

Lemma encode_pairs_cons enc k x kv l :
  encode_pairs enc ((k, x) :: kv :: l)
  = (ks <- encode_key k ;;
     t <- enc x ;;
     ts <- encode_pairs enc (kv :: l) ;;
     Ok ((encode_basestring_ascii ks ++ u ": " ++ t) ++ u ", " ++ ts)).
Proof. reflexivity. Qed.

Lemma object_items_encoded kvs :
  kvs <> [] ->
  Forall (fun kv => written (fst kv) /\ written (snd kv)) kvs ->
  members_jsonable kvs = true ->
  exists items pairs,
    encode_pairs json_dumps kvs = Ok (QUOTE :: items) /\
    kvs = as_dict pairs /\ distinct_keys pairs /\
    (length kvs <= length items)%nat /\
    (members_height kvs < length items)%nat /\
    forall d n rest,
      (members_height kvs < d)%nat -> (length kvs <= n)%nat ->
      object_items (scan_once d) n (items ++ RBRACE :: rest)
      = Ok (pairs, rest).
Proof.
  induction kvs as [|[k x] kvs IH]; intros Hne Hall Hjs; [congruence|].
  inversion Hall as [|? ? Hx Hl]; subst. destruct Hx as (_ & Hx).
  cbn [fst snd] in Hx.
  cbn [members_jsonable] in Hjs.
  destruct k as [ | | | |k| | | ]; try discriminate Hjs.
  apply andb_true_iff in Hjs. destruct Hjs as (Hjs & Hjl).
  apply andb_true_iff in Hjs. destruct Hjs as (Hjs & Hjx).
  apply andb_true_iff in Hjs. destruct Hjs as (Hk & Hfresh).
  apply negb_true_iff in Hfresh.
  destruct (Hx Hjx) as (t & Hdump & Hgood & Hht & Hread).
  assert (forall tail,
            delimited tail = true ->
            forall d n, (height x < d)%nat ->
            object_items (scan_once d) (S n)
              ((escape k ++ QUOTE :: COLON :: 32%N :: t) ++ tail)
            = match skip_ws tail with
              | c :: s4 =>
                  if N.eqb c RBRACE then Ok ([(k, x)], s4)
                  else if N.eqb c COMMA then
                    match skip_ws s4 with
                    | q :: s5 =>
                        if N.eqb q QUOTE then
                          '(kvs, rest) <- object_items (scan_once d) n s5 ;;
                          Ok ((k, x) :: kvs, rest)
                        else Raise JSONDecodeError
                    | [] => Raise JSONDecodeError
                    end
                  else Raise JSONDecodeError
              | [] => Raise JSONDecodeError
              end) as Hstep.
  { intros tail Htail d n Hd. cbn [object_items].
    rewrite <- app_assoc. cbn [List.app].
    rewrite (scanstring_escape k _ Hk). cbn [bind].
    cbn [skip_ws]. change (is_ws COLON) with false. cbv iota.
    change (N.eqb COLON COLON) with true. cbv iota.
    cbn [skip_ws]. change (is_ws 32%N) with true. cbv iota.
    rewrite (skip_ws_good t tail Hgood).
    rewrite (Hread d tail Hd Htail). reflexivity. }
  destruct kvs as [|kv kvs'].
  - exists (escape k ++ QUOTE :: COLON :: 32%N :: t), [(k, x)].
    cbn [encode_pairs encode_key]. rewrite Hdump. cbn [bind].
    split.
    { unfold encode_basestring_ascii. cbn [List.app].
      rewrite <- !app_assoc. reflexivity. }
    split; [reflexivity|]. split; [split; [reflexivity|exact I]|].
    rewrite length_app. cbn [length members_height].
    split; [lia|]. split; [lia|].
    intros d n rest Hd Hn. destruct n as [|n]; [lia|].
    rewrite (Hstep (RBRACE :: rest) eq_refl d n ltac:(lia)).
    reflexivity.
  - destruct (IH ltac:(discriminate) Hl Hjl)
      as (items & pairs & Henc & Hkvs & Hdist & Hlen & Hmh & Hrest).
    exists ((escape k ++ QUOTE :: COLON :: 32%N :: t)
            ++ COMMA :: 32%N :: QUOTE :: items), ((k, x) :: pairs).
    rewrite encode_pairs_cons. cbn [encode_key bind]. rewrite Hdump.
    cbn [bind]. rewrite Henc. cbn [bind].
    split.
    { unfold encode_basestring_ascii. cbn [List.app].
      rewrite <- !app_assoc. reflexivity. }
    split; [cbn [as_dict map fst snd]; now rewrite Hkvs|].
    split; [split; [now rewrite <- Hkvs|exact Hdist]|].
    change (members_height ((PyStr k, x) :: kv :: kvs'))
      with (Nat.max (height x) (members_height (kv :: kvs'))).
    change (length ((PyStr k, x) :: kv :: kvs'))
      with (S (length (kv :: kvs'))).
    set (M := members_height (kv :: kvs')) in *.
    set (L := length (kv :: kvs')) in *. clearbody M L.
    rewrite !length_app. cbn [length].
    split; [lia|]. split; [lia|].
    intros d n rest Hd Hn. destruct n as [|n]; [lia|].
    replace (((escape k ++ QUOTE :: COLON :: 32%N :: t)
              ++ COMMA :: 32%N :: QUOTE :: items) ++ RBRACE :: rest)
      with ((escape k ++ QUOTE :: COLON :: 32%N :: t)
            ++ COMMA :: 32%N :: QUOTE :: items ++ RBRACE :: rest)
      by (rewrite <- !app_assoc; reflexivity).
    rewrite (Hstep (COMMA :: 32%N :: QUOTE :: items ++ RBRACE :: rest)
               eq_refl d n ltac:(lia)).
    cbn [List.app skip_ws]. change (is_ws COMMA) with false. cbv iota.
    change (N.eqb COMMA RBRACE) with false.
    change (N.eqb COMMA COMMA) with true. cbv iota.
    cbn [skip_ws]. change (is_ws 32%N) with true. cbv iota.
    cbn [skip_ws]. change (is_ws QUOTE) with false. cbv iota.
    change (N.eqb QUOTE QUOTE) with true. cbv iota.
    rewrite (Hrest d n rest); [reflexivity|lia|lia].
Qed.

Lemma float_eqb_eq a b : float_eqb a b = true -> a = b.
Proof.
  destruct a as [s|s| |s m e], b as [s'|s'| |s' m' e']; cbn;
    try discriminate; try reflexivity.
  - intros H. apply Bool.eqb_prop in H. now subst.
  - intros H. apply Bool.eqb_prop in H. now subst.
  - intros H. apply andb_true_iff in H. destruct H as (H & He).
    apply andb_true_iff in H. destruct H as (Hs & Hm).
    apply Bool.eqb_prop in Hs. apply Pos.eqb_eq in Hm. apply Z.eqb_eq in He.
    now subst.
Qed.

Lemma written_scalar v t :
  height v = 0%nat ->
  json_dumps v = Ok t ->
  match_number t = Some (v, []) ->
  written v.
Proof.
  intros Hh Hd Hm _. exists t. split; [exact Hd|].
  now apply number_reads_back.
Qed.

Lemma max_height_eq l :
  fold_right (fun x n => Nat.max (height x) n) O l = max_height l.
Proof. reflexivity. Qed.

(** Every value that JSON represents is written by [json.dumps] as a text
    that [scan_once] reads back. *)
Lemma dumps_reads_back v : written v.
Proof.
  induction v using pyval_nested_ind.
  - intros _. exists (u "null"). split; [reflexivity|].
    split; [repeat split|]. split; [cbn; lia|].
    intros [|d] rest Hd _; [lia|]. reflexivity.
  - intros _. destruct b.
    + exists (u "true"). split; [reflexivity|].
      split; [repeat split|]. split; [cbn; lia|].
      intros [|d] rest Hd _; [lia|]. reflexivity.
    + exists (u "false"). split; [reflexivity|].
      split; [repeat split|]. split; [cbn; lia|].
      intros [|d] rest Hd _; [lia|]. reflexivity.
  - apply written_scalar with (t := int_repr z); try reflexivity.
    apply match_number_int_repr.
  - intros Hj. pose proof Hj as Hj'.
    cbn [jsonable] in Hj. unfold float_ok in Hj.
    apply andb_true_iff in Hj. destruct Hj as (Hfin & Hm).
    destruct (match_number (float_repr f)) as [[[ | | |g| | | | ] [|? ?]]|] eqn:E;
      try discriminate Hm.
    apply float_eqb_eq in Hm. subst g.
    apply (written_scalar (PyFloat f) (float_repr f));
      [reflexivity| |exact E|exact Hj'].
    destruct f; try discriminate Hfin; reflexivity.
  - intros Hj. cbn [jsonable] in Hj.
    exists (encode_basestring_ascii s). split; [reflexivity|].
    split; [repeat split|].
    split; [cbn; lia|].
    intros [|d] rest Hd _; [lia|].
    unfold encode_basestring_ascii. cbn [List.app scan_once].
    change (N.eqb QUOTE QUOTE) with true. cbv iota.
    rewrite <- app_assoc. cbn [List.app].
    now rewrite (scanstring_escape s rest Hj).
  - intros Hj. cbn [jsonable] in Hj. destruct l as [|x l].
    + exists [LBRACKET; RBRACKET]. split; [reflexivity|].
      split; [repeat split|]. split; [cbn; lia|].
      intros [|d] rest Hd _; [lia|]. reflexivity.
    + destruct (array_items_encoded (x :: l) ltac:(discriminate) H Hj)
        as (items & Henc & Hgood & Hlen & Hmh & Hread).
      exists (LBRACKET :: items ++ [RBRACKET]).
      cbn [json_dumps]. rewrite Henc. cbn [bind].
      split; [reflexivity|]. split; [repeat split|].
      cbn [height]. rewrite max_height_eq.
      split; [cbn [length]; rewrite length_app; cbn [length]; lia|].
      intros [|d] rest Hd _; [lia|].
      change (height (PyList (x :: l))) with (S (max_height (x :: l))) in Hd.
      cbn [List.app scan_once].
      change (N.eqb LBRACKET QUOTE) with false.
      change (N.eqb LBRACKET LBRACE) with false.
      change (N.eqb LBRACKET LBRACKET) with true. cbv iota.
      rewrite <- app_assoc. cbn [List.app].
      unfold JSONArray. rewrite (skip_ws_good items _ Hgood).
      destruct items as [|c r]; [destruct Hgood|].
      destruct Hgood as (_ & _ & Hc & _).
      cbn [List.app]. rewrite Hc.
      change (c :: r ++ RBRACKET :: rest) with ((c :: r) ++ RBRACKET :: rest).
      rewrite Hread; [reflexivity|lia|].
      rewrite length_app. lia.
  - intros Hj. discriminate Hj.
  - intros Hj. rewrite jsonable_dict in Hj. destruct kvs as [|kv kvs].
    + exists [LBRACE; RBRACE]. split; [reflexivity|].
      split; [repeat split|]. split; [cbn; lia|].
      intros [|d] rest Hd _; [lia|]. reflexivity.
    + destruct (object_items_encoded (kv :: kvs) ltac:(discriminate) H Hj)
        as (items & pairs & Henc & Hkvs & Hdist & Hlen & Hmh & Hread).
      exists (LBRACE :: (QUOTE :: items) ++ [RBRACE]).
      cbn [json_dumps]. rewrite Henc. cbn [bind].
      split; [reflexivity|]. split; [repeat split|].
      rewrite height_dict.
      split; [cbn [length List.app]; rewrite length_app; cbn [length]; lia|].
      intros [|d] rest Hd _; [lia|].
      rewrite height_dict in Hd.
      cbn [List.app scan_once].
      change (N.eqb LBRACE QUOTE) with false.
      change (N.eqb LBRACE LBRACE) with true. cbv iota.
      rewrite <- app_assoc. cbn [List.app].
      unfold JSONObject. cbn [skip_ws].
      change (is_ws QUOTE) with false. cbv iota.
      change (N.eqb QUOTE RBRACE) with false.
      change (N.eqb QUOTE QUOTE) with true. cbv iota.
      rewrite Hread; [|lia|cbn [length] in *; rewrite length_app; lia].
      cbn [bind]. rewrite (dict_of_pairs_distinct pairs Hdist).
      now rewrite <- Hkvs.
Qed.

(** [json.loads(json.dumps(v))] is [v], for every value that JSON
    represents; and the text written is never empty. *)
Lemma loads_dumps v :
  jsonable v = true ->
  exists c t, json_dumps v = Ok (c :: t) /\ json_loads (c :: t) = Ok v.
Proof.
  intros Hj. destruct (dumps_reads_back v Hj) as (t & Hd & Hgood & Hh & Hread).
  destruct t as [|c t]; [destruct Hgood|].
  exists c, t. split; [exact Hd|].
  unfold json_loads. destruct Hgood as (Hws & Hbom & _).
  rewrite Hbom. cbn [bind skip_ws]. rewrite Hws.
  pose proof (Hread (S (length (c :: t))) [] ltac:(lia) eq_refl) as Hr.
  rewrite List.app_nil_r in Hr. rewrite Hr. reflexivity.
Qed.

(* ------------------------------------------------------------------ *)
(** ** The bounds of the reader are never reached

    Every value read takes at least one character, so the depth given
    to [scan_once] and the counts given to [array_items] and
    [object_items] are never used up: the reader stops on a text only by
    returning a value or by raising [JSONDecodeError]. *)

Lemma skip_ws_le s : (length (skip_ws s) <= length s)%nat.
Proof.
  induction s as [|c s IH]; cbn [skip_ws length]; [lia|].
  destruct (is_ws c); cbn [length]; lia.
Qed.

Lemma scanstring_bounds n :
  forall s, (length s <= n)%nat ->
    (forall x rest, scanstring s = Ok (x, rest) ->
                    (length rest < length s)%nat) /\
    (forall e, scanstring s = Raise e -> e = JSONDecodeError).
Proof.
  induction n as [|n IH]; intros s Hn.
  - destruct s; [|cbn in Hn; lia]. split; intros; [discriminate|].
    cbn in H. now injection H as <-.
  - destruct s as [|c r]; [split; intros; [discriminate|];
                           cbn in H; now injection H as <-|].
    cbn [length] in Hn.
    assert (forall r',
              (length r' < length (c :: r))%nat ->
              forall c',
              (forall x rest,
                 ('(x, rest) <- scanstring r' ;; Ok (c' :: x, rest))
                 = Ok (x, rest) -> (length rest < length (c :: r))%nat) /\
              (forall e,
                 ('(x, rest) <- scanstring r' ;; Ok (c' :: x, rest))
                 = Raise e -> e = JSONDecodeError)) as Hcont.
    { intros r' Hr' c'. cbn [length] in Hr'.
      destruct (IH r' ltac:(lia)) as (H1 & H2).
      destruct (scanstring r') as [[x0 rest0]|e0] eqn:E; cbn [bind].
      - split; intros; [|discriminate].
        injection H as <- <-. specialize (H1 _ _ eq_refl).
        cbn [length]. lia.
      - split; intros; [discriminate|]. injection H as <-.
        now apply H2. }
    cbn [scanstring].
    destruct (N.eqb c QUOTE).
    { split; intros; [|discriminate]. injection H as <- <-. cbn. lia. }
    destruct (N.eqb c BACKSLASH).
    + destruct r as [|e r1];
        [split; intros; [discriminate|now injection H as <-]|].
      destruct (N.eqb e LETTER_u).
      * destruct r1 as [|h1 [|h2 [|h3 [|h4 r2]]]];
          try (split; intros; [discriminate|now injection H as <-]).
        destruct (hex4 h1 h2 h3 h4) as [cu|];
          [|split; intros; [discriminate|now injection H as <-]].
        destruct (is_high_surrogate cu);
          [|apply Hcont; cbn [length]; lia].
        destruct r2 as [|b [|l [|g1 [|g2 [|g3 [|g4 r3]]]]]];
          try (apply Hcont; cbn [length]; lia).
        destruct (N.eqb b BACKSLASH && N.eqb l LETTER_u);
          [|apply Hcont; cbn [length]; lia].
        destruct (hex4 g1 g2 g3 g4) as [cu2|];
          [|split; intros; [discriminate|now injection H as <-]].
        destruct (is_low_surrogate cu2); apply Hcont; cbn [length]; lia.
      * destruct (short_escape e) as [d|];
          [apply Hcont; cbn [length]; lia|].
        split; intros; [discriminate|now injection H as <-].
    + destruct (c <? 32)%N;
        [split; intros; [discriminate|now injection H as <-]|].
      apply Hcont. cbn [length]. lia.
Qed.

Lemma take_digits_le s d r :
  take_digits s = (d, r) -> (length r <= length s)%nat.
Proof.
  revert d r. induction s as [|c s IH]; intros d r H; cbn in H.
  - injection H as <- <-. cbn. lia.
  - destruct (is_digit c).
    + destruct (take_digits s) as (d', r') eqn:E. injection H as <- <-.
      specialize (IH _ _ eq_refl). cbn [length]. lia.
    + injection H as <- <-. lia.
Qed.

Lemma match_integer_lt s i r :
  match_integer s = Some (i, r) -> (length r < length s)%nat.
Proof.
  unfold match_integer. destruct s as [|c s]; [discriminate|].
  destruct (N.eqb c 48).
  - intros H. injection H as <- <-. cbn. lia.
  - destruct (is_digit c) eqn:Ec; [|discriminate].
    intros H. injection H as H. cbn [take_digits] in H. rewrite Ec in H.
    destruct (take_digits s) as (d', r') eqn:E. injection H as <- <-.
    apply take_digits_le in E. cbn [length]. lia.
Qed.

Lemma match_frac_lt s f r :
  match_frac s = Some (f, r) -> (length r < length s)%nat.
Proof.
  unfold match_frac. destruct s as [|d [|c s]]; try discriminate.
  destruct (N.eqb d DOT && is_digit c); [|discriminate].
  intros H. injection H as H.
  apply (take_digits_le (c :: s)) in H. cbn [length] in *. lia.
Qed.

Lemma exp_sign_le r : (length (snd (exp_sign r)) <= length r)%nat.
Proof.
  unfold exp_sign. destruct r as [|sg [|c r]]; cbn [snd length]; try lia.
  destruct ((N.eqb sg 43 || N.eqb sg MINUS) && is_digit c);
    cbn [snd length]; lia.
Qed.

Lemma match_exp_lt s n d r :
  match_exp s = Some (n, d, r) -> (length r < length s)%nat.
Proof.
  unfold match_exp. destruct s as [|e s]; [discriminate|].
  destruct (N.eqb e 101 || N.eqb e 69); [|discriminate].
  pose proof (exp_sign_le s) as Hs.
  destruct (exp_sign s) as (neg, r1). cbn [snd] in Hs.
  destruct (take_digits r1) as (d', r') eqn:E. apply take_digits_le in E.
  intros H. cbn [length].
  destruct d'; try discriminate H; injection H as <- <- <-; lia.
Qed.

Lemma match_unsigned_lt neg s v rest :
  match_unsigned neg s = Some (v, rest) -> (length rest < length s)%nat.
Proof.
  unfold match_unsigned.
  destruct (match_integer s) as [(i, s2)|] eqn:Ei; [|discriminate].
  apply match_integer_lt in Ei.
  destruct (match_frac s2) as [(f, s3)|] eqn:Ef.
  - apply match_frac_lt in Ef.
    destruct (match_exp s3) as [((n, d), s4)|] eqn:Ee.
    + apply match_exp_lt in Ee. intros H. injection H as <- <-. lia.
    + intros H. injection H as <- <-. lia.
  - destruct (match_exp s2) as [((n, d), s4)|] eqn:Ee.
    + apply match_exp_lt in Ee. intros H. injection H as <- <-. lia.
    + intros H. injection H as <- <-. lia.
Qed.

Lemma match_number_lt s v rest :
  match_number s = Some (v, rest) -> (length rest < length s)%nat.
Proof.
  unfold match_number. destruct s as [|c s]; [discriminate|].
  destruct (N.eqb c MINUS); intros H; apply match_unsigned_lt in H;
    cbn [length] in *; lia.
Qed.

Lemma starts_with_length p s rest :
  starts_with p s = Some rest -> length s = (length p + length rest)%nat.
Proof.
  revert s. induction p as [|c p IH]; intros s H; cbn in H.
  - injection H as <-. reflexivity.
  - destruct s as [|d s]; [discriminate|].
    destruct (N.eqb c d); [|discriminate].
    cbn [length]. now rewrite (IH s H).
Qed.

Lemma literal_lt name v s x rest :
  name <> EmptyString ->
  literal name v s = Some (x, rest) -> (length rest < length s)%nat.
Proof.
  intros Hne. unfold literal.
  destruct (starts_with (u name) s) as [r|] eqn:E; [|discriminate].
  intros H. injection H as <- <-. apply starts_with_length in E.
  destruct name; [congruence|]. cbn in E. lia.
Qed.

Section bounded_scan.

Variable scan : str -> res (pyval * str).
Variable bound : nat.
Hypothesis scan_bounds :
  forall s, (length s <= bound)%nat ->
    (forall v rest, scan s = Ok (v, rest) -> (length rest < length s)%nat) /\
    (forall e, scan s = Raise e -> e = JSONDecodeError).

Lemma array_items_bounds n :
  forall s, (length s <= n)%nat -> (0 < n)%nat -> (length s <= bound)%nat ->
    (forall vs rest, array_items scan n s = Ok (vs, rest) ->
                     (length rest < length s)%nat) /\
    (forall e, array_items scan n s = Raise e -> e = JSONDecodeError).
Proof.
  induction n as [|n IH]; intros s Hn Hpos Hb; [lia|].
  cbn [array_items].
  destruct (scan_bounds s Hb) as (H1 & H2).
  destruct (scan s) as [[v s1]|e0]; cbn [bind];
    [|split; intros; [discriminate|injection H as <-; now apply H2]].
  specialize (H1 _ _ eq_refl). pose proof (skip_ws_le s1) as Hw.
  destruct (skip_ws s1) as [|c s2];
    [split; intros; [discriminate|now injection H as <-]|].
  cbn [length] in Hw.
  destruct (N.eqb c RBRACKET);
    [split; intros; [injection H as <- <-; lia|discriminate]|].
  destruct (N.eqb c COMMA);
    [|split; intros; [discriminate|now injection H as <-]].
  pose proof (skip_ws_le s2) as Hw2.
  destruct (IH (skip_ws s2)) as (I1 & I2); try lia.
  destruct (array_items scan n (skip_ws s2)) as [[vs rest]|e1]; cbn [bind].
  - split; intros; [|discriminate]. injection H as <- <-.
    specialize (I1 _ _ eq_refl). lia.
  - split; intros; [discriminate|]. injection H as <-. now apply I2.
Qed.

Lemma JSONArray_bounds s :
  (length s <= bound)%nat ->
  (forall v rest, JSONArray scan s = Ok (v, rest) ->
                  (length rest < S (length s))%nat) /\
  (forall e, JSONArray scan s = Raise e -> e = JSONDecodeError).
Proof.
  intros Hb. unfold JSONArray. pose proof (skip_ws_le s) as Hw.
  destruct (skip_ws s) as [|c r];
    [split; intros; [discriminate|now injection H as <-]|].
  destruct (N.eqb c RBRACKET);
    [split; intros; [injection H as <- <-; cbn [length] in Hw; lia
                    |discriminate]|].
  destruct (array_items_bounds (length s) (c :: r)) as (I1 & I2);
    try (cbn [length] in *; lia).
  destruct (array_items scan (length s) (c :: r)) as [[vs rest]|e1];
    cbn [bind].
  - split; intros; [|discriminate]. injection H as <- <-.
    specialize (I1 _ _ eq_refl). lia.
  - split; intros; [discriminate|]. injection H as <-. now apply I2.
Qed.

Lemma object_items_bounds n :
  forall s, (length s <= n)%nat -> (0 < n)%nat -> (length s <= bound)%nat ->
    (forall kvs rest, object_items scan n s = Ok (kvs, rest) ->
                      (length rest < length s)%nat) /\
    (forall e, object_items scan n s = Raise e -> e = JSONDecodeError).
Proof.
  induction n as [|n IH]; intros s Hn Hpos Hb; [lia|].
  cbn [object_items].
  destruct (scanstring_bounds (length s) s (le_n _)) as (K1 & K2).
  destruct (scanstring s) as [[key s1]|e0]; cbn [bind];
    [|split; intros; [discriminate|injection H as <-; now apply K2]].
  specialize (K1 _ _ eq_refl). pose proof (skip_ws_le s1) as Hw1.
  destruct (skip_ws s1) as [|c s2];
    [split; intros; [discriminate|now injection H as <-]|].
  cbn [length] in Hw1.
  destruct (N.eqb c COLON);
    [|split; intros; [discriminate|now injection H as <-]].
  pose proof (skip_ws_le s2) as Hw2.
  destruct (scan_bounds (skip_ws s2)) as (H1 & H2); [lia|].
  destruct (scan (skip_ws s2)) as [[v s3]|e0]; cbn [bind];
    [|split; intros; [discriminate|injection H as <-; now apply H2]].
  specialize (H1 _ _ eq_refl). pose proof (skip_ws_le s3) as Hw3.
  destruct (skip_ws s3) as [|d s4];
    [split; intros; [discriminate|now injection H as <-]|].
  cbn [length] in Hw3.
  destruct (N.eqb d RBRACE);
    [split; intros; [injection H as <- <-; lia|discriminate]|].
  destruct (N.eqb d COMMA);
    [|split; intros; [discriminate|now injection H as <-]].
  pose proof (skip_ws_le s4) as Hw4.
  destruct (skip_ws s4) as [|q s5];
    [split; intros; [discriminate|now injection H as <-]|].
  cbn [length] in Hw4.
  destruct (N.eqb q QUOTE);
    [|split; intros; [discriminate|now injection H as <-]].
  destruct (IH s5) as (I1 & I2); try lia.
  destruct (object_items scan n s5) as [[kvs rest]|e1]; cbn [bind].
  - split; intros; [|discriminate]. injection H as <- <-.
    specialize (I1 _ _ eq_refl). lia.
  - split; intros; [discriminate|]. injection H as <-. now apply I2.
Qed.

Lemma JSONObject_bounds s :
  (length s <= bound)%nat ->
  (forall v rest, JSONObject scan s = Ok (v, rest) ->
                  (length rest < S (length s))%nat) /\
  (forall e, JSONObject scan s = Raise e -> e = JSONDecodeError).
Proof.
  intros Hb. unfold JSONObject. pose proof (skip_ws_le s) as Hw.
  destruct (skip_ws s) as [|c r];
    [split; intros; [discriminate|now injection H as <-]|].
  cbn [length] in Hw.
  destruct (N.eqb c RBRACE);
    [split; intros; [injection H as <- <-; lia|discriminate]|].
  destruct (N.eqb c QUOTE);
    [|split; intros; [discriminate|now injection H as <-]].
  destruct (object_items_bounds (length s) r) as (I1 & I2); try lia.
  destruct (object_items scan (length s) r) as [[kvs rest]|e1];
    cbn [bind].
  - split; intros; [|discriminate]. injection H as <- <-.
    specialize (I1 _ _ eq_refl). lia.
  - split; intros; [discriminate|]. injection H as <-. now apply I2.
Qed.

End bounded_scan.

Lemma scan_once_bounds depth :
  forall s, (length s < depth)%nat ->
    (forall v rest, scan_once depth s = Ok (v, rest) ->
                    (length rest < length s)%nat) /\
    (forall e, scan_once depth s = Raise e -> e = JSONDecodeError).
Proof.
  induction depth as [|depth IH]; intros s Hd; [lia|].
  destruct s as [|c r];
    [split; intros; [discriminate|cbn in H; now injection H as <-]|].
  cbn [length] in Hd. cbn [scan_once].
  assert (forall s', (length s' <= length r)%nat ->
            (forall v rest, scan_once depth s' = Ok (v, rest) ->
                            (length rest < length s')%nat) /\
            (forall e, scan_once depth s' = Raise e -> e = JSONDecodeError))
    as Hin by (intros s' Hs'; apply IH; lia).
  destruct (N.eqb c QUOTE).
  { destruct (scanstring_bounds (length r) r (le_n _)) as (K1 & K2).
    destruct (scanstring r) as [[x rest0]|e0]; cbn [bind].
    - split; intros; [|discriminate]. injection H as <- <-.
      specialize (K1 _ _ eq_refl). cbn [length]. lia.
    - split; intros; [discriminate|]. injection H as <-. now apply K2. }
  destruct (N.eqb c LBRACE).
  { apply (JSONObject_bounds _ (length r) Hin r (le_n _)). }
  destruct (N.eqb c LBRACKET).
  { apply (JSONArray_bounds _ (length r) Hin r (le_n _)). }
  repeat match goal with
  | |- context [match literal ?n ?v ?t with _ => _ end] =>
      let E := fresh "E" in
      destruct (literal n v t) as [[? ?]|] eqn:E;
      [apply literal_lt in E; [|discriminate];
       split; [intros ? ? H; injection H as <- <-; exact E
             |intros ? H; discriminate H]|]
  | |- context [match match_number ?t with _ => _ end] =>
      let E := fresh "E" in
      destruct (match_number t) as [[? ?]|] eqn:E;
      [apply match_number_lt in E;
       split; [intros ? ? H; injection H as <- <-; exact E
             |intros ? H; discriminate H]|]
  end.
  split; intros; [discriminate|now injection H as <-].
Qed.

(** [json_loads] either returns a value or raises [JSONDecodeError]: the
    bounds of [scan_once], [array_items] and [object_items] are never
    what stops it. *)
Lemma json_loads_raises_decode_error s e :
  json_loads s = Raise e -> e = JSONDecodeError.
Proof.
  unfold json_loads.
  assert (forall k : res pyval,
            (k = Raise e -> e = JSONDecodeError) ->
            (match s with
             | c :: _ => if N.eqb c BOM then Raise JSONDecodeError else Ok tt
             | [] => Ok tt
             end ;;; k) = Raise e -> e = JSONDecodeError) as Hbom.
  { intros k Hk. destruct s as [|c s']; cbn [bind]; [exact Hk|].
    destruct (N.eqb c BOM); cbn [bind]; [|exact Hk].
    intros H. now injection H as <-. }
  apply Hbom. clear Hbom.
  pose proof (skip_ws_le s) as Hw.
  destruct (scan_once_bounds (S (length s)) (skip_ws s)) as (_ & H2); [lia|].
  destruct (scan_once (S (length s)) (skip_ws s)) as [[v rest]|e0];
    cbn [bind].
  - destruct (skip_ws rest); intros H; [discriminate|now injection H as <-].
  - intros H. injection H as <-. now apply H2.
Qed.

(** A text whose first character is neither whitespace nor the start of
    a JSON value is refused. *)
Lemma json_loads_refuses c s :
  is_ws c = false -> starts_value c = false ->
  json_loads (c :: s) = Raise JSONDecodeError.
Proof.
  intros Hw Hv. unfold starts_value in Hv.
  apply orb_false_iff in Hv as (Hv & Hd). cbn [existsb] in Hv.
  repeat (apply orb_false_iff in Hv as (? & Hv)).
  assert (N.eqb c 48 = false) as Hzero.
  { unfold is_digit in Hd. apply N.eqb_neq. intros ->. discriminate Hd. }
  unfold json_loads. destruct (N.eqb c BOM); [reflexivity|].
  cbn [bind skip_ws]. rewrite Hw. cbn [scan_once].
  unfold literal, match_number, match_unsigned, match_integer.
  change (u "null") with (110 :: u "ull")%N.
  change (u "true") with (116 :: u "rue")%N.
  change (u "false") with (102 :: u "alse")%N.
  change (u "NaN") with (78 :: u "aN")%N.
  change (u "Infinity") with (73 :: u "nfinity")%N.
  change (u "-Infinity") with (MINUS :: u "Infinity")%N.
  cbn [starts_with].
  rewrite !(N.eqb_sym _ c).
  repeat match goal with
  | H : N.eqb c ?x = false |- _ => rewrite ?H; clear H
  end.
  rewrite Hd. reflexivity.
Qed.

(* ------------------------------------------------------------------ *)
(** ** The JSON-encoded columns *)

Lemma decode_column_dumps v empty :
  jsonable v = true ->
  exists t, json_dumps v = Ok t /\ decode_column (Some t) empty = Ok v.
Proof.
  intros Hj. destruct (loads_dumps v Hj) as (c & t & Hd & Hl).
  exists (c :: t). split; [exact Hd|exact Hl].
Qed.




(** C4 fails on the code as the specification states it: on text that is
    not JSON the read accessors raise [JSONDecodeError]. *)
Lemma malformed_text_raises :
  Recipe.get_ingredients legacy_recipe = Raise JSONDecodeError /\
  RecipeSwap.get_offered_recipe_ids truncated_swap = Raise JSONDecodeError /\
  is_ok (Recipe.to_dict sample_db legacy_recipe true) = false.
Proof. repeat split. Qed.

(** C4, as the code has it.  Each read accessor hands a text that is not
    empty to [json.loads]: it returns what [json.loads] returns and
    raises what [json.loads] raises, no accessor catches the error of a
    malformed text.  In particular a text whose first character is
    neither whitespace nor the start of a JSON value makes [json.loads],
    and so every accessor, raise [JSONDecodeError]. *)
Theorem accessors_decode_with_json_loads (c : char) (s : str) :
  (forall self,
     users.dietary_preferences self = Some (c :: s) ->
     User.get_dietary_preferences self = json_loads (c :: s)) /\
  (forall self,
     recipes.ingredients self = Some (c :: s) ->
     Recipe.get_ingredients self = json_loads (c :: s)) /\
  (forall self,
     recipes.tags self = Some (c :: s) ->
     Recipe.get_tags self = json_loads (c :: s)) /\
  (forall self,
     recipes.nutritional_info self = Some (c :: s) ->
     Recipe.get_nutritional_info self = json_loads (c :: s)) /\
  (forall self,
     recipe_swaps.offered_recipe_ids self = Some (c :: s) ->
     RecipeSwap.get_offered_recipe_ids self = json_loads (c :: s)) /\
  (is_ws c = false -> starts_value c = false ->
   json_loads (c :: s) = Raise JSONDecodeError).
Proof.
  repeat split;
    try (intros self H;
         unfold User.get_dietary_preferences, Recipe.get_ingredients,
           Recipe.get_tags, Recipe.get_nutritional_info,
           RecipeSwap.get_offered_recipe_ids;
         rewrite H; reflexivity).
  apply json_loads_refuses.
Qed.

Lemma accessors_decode_with_json_loads_witness :
  Recipe.get_ingredients tofu_scramble
    = Ok (PyList [PyStr (u "tofu"); PyStr (u "turmeric")]) /\
  Recipe.get_ingredients legacy_recipe = Raise JSONDecodeError /\
  RecipeSwap.get_offered_recipe_ids unquoted_swap = Raise JSONDecodeError.
Proof.
  split; [|split].
  - rewrite (proj1 (proj2 (accessors_decode_with_json_loads
               LBRACKET (QUOTE :: u "tofu" ++ QUOTE :: u ", "
                         ++ QUOTE :: u "turmeric" ++ [QUOTE; RBRACKET])))
               tofu_scramble eq_refl).
    reflexivity.
  - rewrite (proj1 (proj2 (accessors_decode_with_json_loads
               116%N (u "ofu, turmeric"))) legacy_recipe eq_refl).
    reflexivity.
  - destruct (accessors_decode_with_json_loads 101%N (u "leven, twelve"))
      as (_ & _ & _ & _ & Hget & Hbad).
    rewrite (Hget unquoted_swap eq_refl).
    exact (Hbad eq_refl eq_refl).
Defined.

(* ================================================================== *)
(** * Further properties of the views *)

(** X1. The keys of a view do not depend on what the row holds: each
    [to_dict] returns the keys of its dictionary display, in the order of
    the source, followed by the keys of the views it embeds ([email] for
    [User.to_dict] with [include_email]).  No view has a key for a
    foreign key column, for [password_hash], [is_active], [is_verified]
    or [last_login]. *)
Theorem view_keys_are_fixed (db : session) :
  (forall self include_email d,
     User.to_dict db self include_email = Ok d ->
     keys d = str_keys (user_keys
                        ++ (if include_email then ["email"%string] else []))) /\
  (forall self include_author d,
     Recipe.to_dict db self include_author = Ok d ->
     keys d = str_keys (recipe_keys
                        ++ embed_key include_author (Recipe.author db self)
                             "author")) /\
  (forall self include_reviewer d,
     Review.to_dict db self include_reviewer = Ok d ->
     keys d = str_keys (review_keys
                        ++ embed_key include_reviewer
                             (Review.reviewer db self) "reviewer")) /\
  (forall self include_users include_recipe d,
     RecipeSwap.to_dict db self include_users include_recipe = Ok d ->
     keys d = str_keys (swap_keys
                        ++ embed_key include_users
                             (RecipeSwap.requester db self) "requester"
                        ++ embed_key include_users
                             (RecipeSwap.owner db self) "owner"
                        ++ embed_key include_recipe
                             (RecipeSwap.recipe db self) "recipe")).
Proof.
  split; [|split; [|split]].
  - intros self b d H. unfold User.to_dict, bind in H.
    destruct (User.get_dietary_preferences self) as [?v|]; [|discriminate].
    destruct b; injection H as <-; reflexivity.
  - intros self b d H. unfold Recipe.to_dict, bind in H.
    destruct (Recipe.get_ingredients self) as [?v|]; [|discriminate].
    destruct (Recipe.get_tags self) as [?v|]; [|discriminate].
    destruct (Recipe.get_nutritional_info self) as [?v|]; [|discriminate].
    destruct (Recipe.average_rating self) as [?v|]; [|discriminate].
    destruct b; [destruct (Recipe.author db self) as [a|];
                 [destruct (User.to_dict db a false) as [?d|]; [|discriminate]|]|];
      injection H as <-; reflexivity.
  - intros self b d H. unfold Review.to_dict, bind in H.
    destruct b; [destruct (Review.reviewer db self) as [a|];
                 [destruct (User.to_dict db a false) as [?d|]; [|discriminate]|]|];
      injection H as <-; reflexivity.
  - intros self bu br d H. unfold RecipeSwap.to_dict, bind in H.
    destruct (RecipeSwap.get_offered_recipe_ids self) as [?v|]; [|discriminate].
    destruct bu, br;
      destruct (RecipeSwap.requester db self) as [rq|];
      destruct (RecipeSwap.owner db self) as [ow|];
      destruct (RecipeSwap.recipe db self) as [rc|];
      try (destruct (User.to_dict db rq false) as [?d|]; [|discriminate]);
      try (destruct (User.to_dict db ow false) as [?d|]; [|discriminate]);
      try (destruct (Recipe.to_dict db rc false) as [?d|]; [|discriminate]);
      injection H as <-; reflexivity.
Qed.

(** bob's request for alice's recipe, viewed with both flags on: the
    eight keys of the display, then [requester], [owner], [recipe]. *)
Lemma view_keys_are_fixed_witness :
  exists d,
    RecipeSwap.to_dict sample_db pending_swap true true = Ok d /\
    keys d = str_keys (swap_keys ++ ["requester"; "owner"; "recipe"]%string).
Proof.
  destruct (RecipeSwap.to_dict sample_db pending_swap true true) as [d|] eqn:E;
    [|discriminate E].
  exists d. split; [reflexivity|].
  exact (proj2 (proj2 (proj2 (view_keys_are_fixed sample_db)))
           pending_swap true true d E).
Defined.

(** X2. Whatever a view holds under [author], [reviewer], [requester] or
    [owner] is the view of the related user made with
    [include_email=False]: it has neither an [email] key nor a
    [password_hash] key. *)
Theorem embedded_user_views_are_public (db : session) :
  (forall self include_author d v,
     Recipe.to_dict db self include_author = Ok d ->
     dict_get (u "author") d = Some v ->
     exists a ad,
       Recipe.author db self = Some a /\
       User.to_dict db a false = Ok ad /\ v = PyDict ad /\
       dict_mem (u "email") ad = false /\
       dict_mem (u "password_hash") ad = false) /\
  (forall self include_reviewer d v,
     Review.to_dict db self include_reviewer = Ok d ->
     dict_get (u "reviewer") d = Some v ->
     exists a ad,
       Review.reviewer db self = Some a /\
       User.to_dict db a false = Ok ad /\ v = PyDict ad /\
       dict_mem (u "email") ad = false /\
       dict_mem (u "password_hash") ad = false) /\
  (forall self include_users include_recipe d v,
     RecipeSwap.to_dict db self include_users include_recipe = Ok d ->
     dict_get (u "requester") d = Some v ->
     exists a ad,
       RecipeSwap.requester db self = Some a /\
       User.to_dict db a false = Ok ad /\ v = PyDict ad /\
       dict_mem (u "email") ad = false /\
       dict_mem (u "password_hash") ad = false) /\
  (forall self include_users include_recipe d v,
     RecipeSwap.to_dict db self include_users include_recipe = Ok d ->
     dict_get (u "owner") d = Some v ->
     exists a ad,
       RecipeSwap.owner db self = Some a /\
       User.to_dict db a false = Ok ad /\ v = PyDict ad /\
       dict_mem (u "email") ad = false /\
       dict_mem (u "password_hash") ad = false).
Proof.
  assert (forall a ad, User.to_dict db a false = Ok ad ->
            dict_mem (u "email") ad = false /\
            dict_mem (u "password_hash") ad = false) as Hpub.
  { intros a ad H. apply User_to_dict_keys in H.
    destruct H as (Hp & He & _). split; assumption. }
  split; [|split; [|split]].
  - intros self b d v H Hget. unfold Recipe.to_dict, bind in H.
    destruct (Recipe.get_ingredients self) as [?v|]; [|discriminate].
    destruct (Recipe.get_tags self) as [?v|]; [|discriminate].
    destruct (Recipe.get_nutritional_info self) as [?v|]; [|discriminate].
    destruct (Recipe.average_rating self) as [?v|]; [|discriminate].
    destruct b; [destruct (Recipe.author db self) as [a|];
                 [destruct (User.to_dict db a false) as [ad|] eqn:E;
                  [|discriminate]|]|];
      injection H as <-; try discriminate Hget.
    injection Hget as <-. exists a, ad.
    destruct (Hpub _ _ E). repeat split; assumption.
  - intros self b d v H Hget. unfold Review.to_dict, bind in H.
    destruct b; [destruct (Review.reviewer db self) as [a|];
                 [destruct (User.to_dict db a false) as [ad|] eqn:E;
                  [|discriminate]|]|];
      injection H as <-; try discriminate Hget.
    injection Hget as <-. exists a, ad.
    destruct (Hpub _ _ E). repeat split; assumption.
  - intros self bu br d v H Hget.
    apply RecipeSwap_to_dict_embeds in H. destruct H as (H & _).
    unfold embedded_user in H.
    destruct bu; [destruct (RecipeSwap.requester db self) as [a|]|];
      try (rewrite H in Hget; discriminate Hget).
    destruct H as (ad & E & Hv). rewrite Hv in Hget. injection Hget as <-.
    exists a, ad. destruct (Hpub _ _ E). repeat split; assumption.
  - intros self bu br d v H Hget.
    apply RecipeSwap_to_dict_embeds in H. destruct H as (_ & H & _).
    unfold embedded_user in H.
    destruct bu; [destruct (RecipeSwap.owner db self) as [a|]|];
      try (rewrite H in Hget; discriminate Hget).
    destruct H as (ad & E & Hv). rewrite Hv in Hget. injection Hget as <-.
    exists a, ad. destruct (Hpub _ _ E). repeat split; assumption.
Qed.

(** The view of the Tofu Scramble embeds alice's view without her
    email. *)
Lemma embedded_user_views_are_public_witness :
  exists d ad,
    Recipe.to_dict sample_db tofu_scramble true = Ok d /\
    dict_get (u "author") d = Some (PyDict ad) /\
    User.to_dict sample_db alice false = Ok ad /\
    dict_mem (u "email") ad = false /\
    dict_mem (u "password_hash") ad = false.
Proof.
  destruct (Recipe.to_dict sample_db tofu_scramble true) as [d|] eqn:E;
    [|discriminate E].
  destruct (dict_get (u "author") d) as [v|] eqn:G;
    [|injection E as <-; discriminate G].
  destruct (proj1 (embedded_user_views_are_public sample_db)
              tofu_scramble true d v E G)
    as (a & ad & Ha & Had & Hv & He & Hp).
  exists d, ad. injection Ha as <-. subst v.
  repeat split; assumption.
Defined.

(** X3. [User.to_dict] reads no private column: two rows with the same
    public profile have the same view (with [include_email], when they
    also have the same email).  In particular [set_password] changes no
    view of the user, whatever the hash function is. *)
Theorem user_view_ignores_private_columns (db : session) :
  (forall a b,
     same_profile a b ->
     User.to_dict db a false = User.to_dict db b false /\
     (users.email a = users.email b ->
      User.to_dict db a true = User.to_dict db b true)) /\
  (forall generate_password_hash self password include_email,
     User.to_dict db (set_password generate_password_hash self password)
       include_email
     = User.to_dict db self include_email).
Proof.
  split.
  - intros a b (Hid & Hu & Hf & Hl & Hb & Hp & Hd & Hc & Ht).
    unfold User.to_dict, User.get_dietary_preferences, User.recipes.
    rewrite Hid, Hu, Hf, Hl, Hb, Hp, Hd, Hc, Ht.
    split; [reflexivity|]. intros ->. reflexivity.
  - intros g self password b. reflexivity.
Qed.

(** alice's view is the same once she is deactivated, verified and has a
    new password hash. *)
Lemma user_view_ignores_private_columns_witness :
  User.to_dict sample_db alice false
  = User.to_dict sample_db
      {| users.id := Some 1; users.username := Some (u "alice");
         users.email := Some (u "alice@example.org");
         users.password_hash := Some (u "scrypt:32768:8:1$salt$other");
         users.first_name := None; users.last_name := None;
         users.bio := None; users.profile_picture := None;
         users.dietary_preferences := None;
         users.cooking_level := Some (u "beginner");
         users.is_active := Some false; users.is_verified := Some true;
         users.created_at := Some t0; users.updated_at := None;
         users.last_login := Some t0 |} false.
Proof.
  apply (proj1 (user_view_ignores_private_columns sample_db)).
  repeat split.
Defined.

(** X4. A user whose [dietary_preferences] column [json.loads] refuses has
    no view, and then neither has any row that embeds that user: the
    recipes of the user viewed with the author, the reviews of the user
    viewed with the reviewer, the swaps the user asks for or is asked
    viewed with the users.  In the same way a swap viewed with its recipe
    has no view when the recipe has none. *)
Theorem failing_view_breaks_embedding_views (db : session) :
  (forall a include_email,
     is_ok (User.to_dict db a include_email)
     = is_ok (User.get_dietary_preferences a)) /\
  (forall a,
     is_ok (User.to_dict db a false) = false ->
     (forall r, Recipe.author db r = Some a ->
                is_ok (Recipe.to_dict db r true) = false) /\
     (forall r, Review.reviewer db r = Some a ->
                is_ok (Review.to_dict db r true) = false) /\
     (forall s include_recipe,
        RecipeSwap.requester db s = Some a \/ RecipeSwap.owner db s = Some a ->
        is_ok (RecipeSwap.to_dict db s true include_recipe) = false)) /\
  (forall r,
     is_ok (Recipe.to_dict db r false) = false ->
     forall s include_users,
       RecipeSwap.recipe db s = Some r ->
       is_ok (RecipeSwap.to_dict db s include_users true) = false).
Proof.
  split; [|split].
  - intros a b. unfold User.to_dict, bind.
    destruct (User.get_dietary_preferences a) as [?v|]; [|reflexivity].
    destruct b; reflexivity.
  - intros a Ha. split; [|split].
    + intros r Hr. unfold Recipe.to_dict, bind. rewrite Hr.
      destruct (Recipe.get_ingredients r) as [?v|]; [|reflexivity].
      destruct (Recipe.get_tags r) as [?v|]; [|reflexivity].
      destruct (Recipe.get_nutritional_info r) as [?v|]; [|reflexivity].
      destruct (Recipe.average_rating r) as [?v|]; [|reflexivity].
      destruct (User.to_dict db a false) as [?d|]; [discriminate Ha|reflexivity].
    + intros r Hr. unfold Review.to_dict, bind. rewrite Hr.
      destruct (User.to_dict db a false) as [?d|]; [discriminate Ha|reflexivity].
    + intros s br Hs. unfold RecipeSwap.to_dict, bind.
      destruct (RecipeSwap.get_offered_recipe_ids s) as [?v|]; [|reflexivity].
      destruct Hs as [Hs|Hs]; rewrite Hs.
      * destruct (User.to_dict db a false) as [?d|]; [discriminate Ha|reflexivity].
      * destruct (RecipeSwap.requester db s) as [rq|];
          [destruct (User.to_dict db rq false) as [?d|]; [|reflexivity]|];
          (destruct (User.to_dict db a false) as [?d|]; [discriminate Ha|reflexivity]).
  - intros r Hr s bu Hs. unfold RecipeSwap.to_dict, bind. rewrite Hs.
    destruct (RecipeSwap.get_offered_recipe_ids s) as [?v|]; [|reflexivity].
    destruct bu;
      [destruct (RecipeSwap.requester db s) as [rq|];
       [destruct (User.to_dict db rq false) as [?d|]; [|reflexivity]|];
       (destruct (RecipeSwap.owner db s) as [ow|];
        [destruct (User.to_dict db ow false) as [?d|]; [|reflexivity]|])|];
      (destruct (Recipe.to_dict db r false) as [?d|]; [discriminate Hr|reflexivity]).
Qed.

(** dave's preferences are not JSON: his recipe, his review and the swap
    he asks for have no view with dave embedded. *)
Lemma failing_view_breaks_embedding_views_witness :
  is_ok (Recipe.to_dict daves_db
           (sample_recipe 14 4 "Seitan Roast" None 0 0) true) = false /\
  is_ok (Review.to_dict daves_db
           (reviews.with_defaults (sample_review None 10 4 5) 1 t0) true)
    = false /\
  is_ok (RecipeSwap.to_dict daves_db (swap_on 103 4 1 10) true false) = false.
Proof.
  destruct (proj1 (proj2 (failing_view_breaks_embedding_views daves_db))
              dave eq_refl) as (Hrec & Hrev & Hswap).
  split; [|split].
  - apply Hrec. reflexivity.
  - apply Hrev. reflexivity.
  - apply Hswap. left. reflexivity.
Defined.

(* ================================================================== *)
(** * Further properties of the store *)

Lemma fk_matches_trans a b c :
  fk_matches a b = true -> fk_matches b c = true -> fk_matches a c = true.
Proof.
  destruct a, b, c; cbn; try discriminate. intros H1 H2.
  apply Z.eqb_eq in H1, H2. apply Z.eqb_eq. congruence.
Qed.

(** A key that names a row still names one once rows with another key
    are removed. *)
Lemma names_after_filter {row : Type} (pk : row -> option Z)
  (gone : option Z) (fk : option Z) (rows : list row) :
  existsb (fun x => fk_matches fk (pk x)) rows = true ->
  fk_matches fk gone = false ->
  existsb (fun x => fk_matches fk (pk x))
          (filter (fun x => negb (fk_matches (pk x) gone)) rows) = true.
Proof.
  intros H Hne. apply existsb_exists in H. destruct H as (x & Hx & Hm).
  apply existsb_exists. exists x. split; [|exact Hm].
  apply filter_In. split; [exact Hx|].
  destruct (fk_matches (pk x) gone) eqn:E; [|reflexivity].
  rewrite (fk_matches_trans _ _ _ Hm E) in Hne. discriminate.
Qed.

Lemma is_recipe_of_filter db self fk :
  is_recipe_of (User.recipes db self) fk = false ->
  names_recipe db fk = true ->
  existsb (fun x => fk_matches fk (recipes.id x))
    (filter (fun r => negb (fk_matches (recipes.author_id r) (users.id self)))
            (recipes_tbl db)) = true.
Proof.
  intros Hgone H. apply existsb_exists in H. destruct H as (x & Hx & Hm).
  apply existsb_exists. exists x. split; [|exact Hm].
  apply filter_In. split; [exact Hx|].
  destruct (fk_matches (recipes.author_id x) (users.id self)) eqn:E;
    [|reflexivity].
  assert (is_recipe_of (User.recipes db self) fk = true) as Hc.
  { apply existsb_exists. exists x. split; [|exact Hm].
    apply filter_In. now split. }
  congruence.
Qed.

Lemma dissociate_not_nullable {row : Type} (refers : row -> bool)
  (set_null : row -> row) (rows rows' : list row) :
  dissociate false refers set_null rows = Ok rows' ->
  rows' = rows /\ forall r, In r rows -> refers r = false.
Proof.
  unfold dissociate. destruct (existsb refers rows) eqn:E; [discriminate|].
  intros H. injection H as <-. split; [reflexivity|].
  intros r Hr. destruct (refers r) eqn:Er; [|reflexivity].
  assert (existsb refers rows = true) by (apply existsb_exists; now exists r).
  congruence.
Qed.

Lemma delete_user_accepted db self db' :
  delete_user db self = Ok db' ->
  db' = without_user db self /\
  forall s, In s (recipe_swaps_tbl db') ->
    fk_matches (recipe_swaps.requester_id s) (users.id self) = false /\
    fk_matches (recipe_swaps.owner_id s) (users.id self) = false.
Proof.
  unfold delete_user. destruct (negb _); [discriminate|].
  unfold recipe_swaps.requester_id_nullable, recipe_swaps.owner_id_nullable.
  fold (User.recipes db self).
  destruct (dissociate false _ _ _) as [s2|] eqn:E2; [|discriminate].
  cbn [bind]. apply dissociate_not_nullable in E2. destruct E2 as (-> & H2).
  destruct (dissociate false _ _ _) as [s3|] eqn:E3; [|discriminate].
  cbn [bind]. apply dissociate_not_nullable in E3. destruct E3 as (-> & H3).
  intros H. injection H as <-. split; [reflexivity|].
  cbn [recipe_swaps_tbl]. intros s Hs. split; [now apply H2|now apply H3].
Qed.

(** X5. Referential integrity is kept by the two deletions, and by the
    INSERT of a review whose recipe and reviewer exist: after
    [delete_recipe] and after [delete_user], whether they succeed or
    raise, every foreign key of every row still names a row. *)
Theorem deletions_keep_foreign_keys (db : session) :
  fk_closed db ->
  (forall r, fk_closed (after db (delete_recipe db r))) /\
  (forall x, fk_closed (after db (delete_user db x))) /\
  (forall now rv,
     names_recipe db (reviews.recipe_id rv) = true ->
     names_user db (reviews.reviewer_id rv) = true ->
     fk_closed (after db (add_review now db rv))).
Proof.
  intros (Hrec & Hrev & Hswap). split; [|split].
  - intros r. cbn [after delete_recipe]. unfold fk_closed, names_user,
      names_recipe. cbn [users_tbl recipes_tbl reviews_tbl recipe_swaps_tbl].
    split; [|split].
    + intros x Hx. apply filter_In in Hx. now apply Hrec.
    + intros x Hx. apply filter_In in Hx. destruct Hx as (Hx & Hne).
      apply negb_true_iff in Hne. destruct (Hrev x Hx) as (H1 & H2).
      split; [|exact H2]. now apply names_after_filter.
    + intros s Hs. apply filter_In in Hs. destruct Hs as (Hs & Hne).
      apply negb_true_iff in Hne. destruct (Hswap s Hs) as (H1 & H2 & H3).
      repeat split; try assumption. now apply names_after_filter.
  - intros x. destruct (delete_user db x) as [db'|] eqn:E; cbn [after];
      [|repeat split; [now apply Hrec|now apply Hrev|now apply Hrev
                       |now apply Hswap|now apply Hswap|now apply Hswap]].
    apply delete_user_accepted in E. destruct E as (-> & Hfree).
    unfold fk_closed, names_user, names_recipe in *.
    cbn [without_user users_tbl recipes_tbl reviews_tbl recipe_swaps_tbl] in *.
    split; [|split].
    + intros r Hr. apply filter_In in Hr. destruct Hr as (Hr & Hne).
      apply negb_true_iff in Hne. apply names_after_filter; [|exact Hne].
      now apply Hrec.
    + intros r Hr. apply filter_In in Hr. destruct Hr as (Hr & Hne).
      apply negb_true_iff, orb_false_iff in Hne. destruct Hne as (Hu & Hg).
      destruct (Hrev r Hr) as (H1 & H2). split.
      * now apply is_recipe_of_filter.
      * now apply names_after_filter.
    + intros s Hs. destruct (Hfree s Hs) as (Hq & Ho).
      apply filter_In in Hs. destruct Hs as (Hs & Hstay).
      unfold recipe_stays in Hstay. apply negb_true_iff in Hstay.
      destruct (Hswap s Hs) as (H1 & H2 & H3). split; [|split].
      * now apply names_after_filter.
      * now apply names_after_filter.
      * now apply is_recipe_of_filter.
  - intros now rv Hr Hu.
    destruct (add_review now db rv) as [db'|] eqn:E; cbn [after];
      [|repeat split; [now apply Hrec|now apply Hrev|now apply Hrev
                       |now apply Hswap|now apply Hswap|now apply Hswap]].
    apply add_review_accepted in E.
    destruct E as (_ & _ & pk & Ht & Husers & Hrecipes & Hswaps).
    unfold fk_closed, names_user, names_recipe in *.
    rewrite Ht, Husers, Hrecipes, Hswaps. split; [exact Hrec|].
    split; [|exact Hswap].
    intros r Hin. apply in_app_or in Hin. destruct Hin as [Hin|[<-|[]]].
    + now apply Hrev.
    + cbn. split; assumption.
Qed.

Lemma sample_db_fk_closed : fk_closed sample_db.
Proof.
  unfold fk_closed. cbn [sample_db users_tbl recipes_tbl reviews_tbl
                         recipe_swaps_tbl].
  repeat split; intros;
    repeat match goal with
    | H : In _ (_ :: _) |- _ => destruct H as [<-|H]
    | H : In _ [] |- _ => destruct H
    end; reflexivity.
Qed.

(** From the sample store: the Tofu Scramble is deleted, then carol, and
    every foreign key is still good. *)
Lemma deletions_keep_foreign_keys_witness :
  fk_closed (after (after sample_db (delete_recipe sample_db tofu_scramble))
               (delete_user
                  (after sample_db (delete_recipe sample_db tofu_scramble))
                  carol)).
Proof.
  apply (deletions_keep_foreign_keys
           (after sample_db (delete_recipe sample_db tofu_scramble))).
  apply (deletions_keep_foreign_keys sample_db).
  exact sample_db_fk_closed.
Defined.

(* ------------------------------------------------------------------ *)
(** ** Primary keys *)

Lemma next_id_above ids z : In (Some z) ids -> z < next_id ids.
Proof.
  unfold next_id. induction ids as [|i ids IH]; intros H; [destruct H|].
  cbn [fold_right]. destruct H as [->|H].
  - lia.
  - specialize (IH H). destruct i; lia.
Qed.

Lemma pk_distinct_filter {row : Type} (pk : row -> option Z)
  (f : row -> bool) (rows : list row) :
  pk_distinct (map pk rows) -> pk_distinct (map pk (filter f rows)).
Proof.
  intros (Hnone & Hnd). split.
  - intros H. apply Hnone. apply in_map_iff in H.
    destruct H as (x & Hx & Hin). apply filter_In in Hin.
    apply in_map_iff. exists x. tauto.
  - clear Hnone. induction rows as [|a rows IH]; cbn; [constructor|].
    inversion Hnd as [|? ? Hn Hnd']; subst.
    destruct (f a); cbn; [|now apply IH]. constructor; [|now apply IH].
    intros H. apply Hn. apply in_map_iff in H.
    destruct H as (x & Hx & Hin). apply filter_In in Hin.
    apply in_map_iff. exists x. tauto.
Qed.

Lemma pk_distinct_app {row : Type} (pk : row -> option Z)
  (rows : list row) (x : row) (z : Z) :
  pk_distinct (map pk rows) ->
  pk x = Some z -> ~ In (Some z) (map pk rows) ->
  pk_distinct (map pk (rows ++ [x])).
Proof.
  intros (Hnone & Hnd) Hx Hfresh. rewrite map_app. cbn [map]. rewrite Hx.
  split.
  - intros H. apply in_app_or in H. destruct H as [H|[H|[]]];
      [now apply Hnone|discriminate H].
  - apply NoDup_app.
    + exact Hnd.
    + constructor; [intros []|constructor].
    + intros y Hy [<-|[]]. now apply Hfresh.
Qed.

Lemma add_review_keeps_pk now db r :
  pk_distinct (map reviews.id (reviews_tbl db)) ->
  pk_distinct (map reviews.id (reviews_tbl (after db (add_review now db r)))).
Proof.
  intros Hpk. unfold add_review.
  destruct (negb (reviews.not_null_columns r)); [exact Hpk|].
  destruct (existsb _ (reviews_tbl db)) eqn:Eid; [exact Hpk|].
  destruct (existsb (reviews.same_recipe_reviewer r) (reviews_tbl db));
    [exact Hpk|].
  cbn [after reviews_tbl].
  set (pk := match reviews.id r with
             | Some i => i
             | None => next_id (map reviews.id (reviews_tbl db))
             end).
  apply (pk_distinct_app reviews.id _ _ pk Hpk); [reflexivity|].
  intros Hin. subst pk. destruct (reviews.id r) as [i|] eqn:Ei.
  - apply in_map_iff in Hin. destruct Hin as (x & Hx & Hin).
    assert (existsb (fun x => fk_matches (Some i) (reviews.id x))
                    (reviews_tbl db) = true) as Hc.
    { apply existsb_exists. exists x. split; [exact Hin|].
      rewrite Hx. cbn. apply Z.eqb_refl. }
    congruence.
  - apply next_id_above in Hin. lia.
Qed.

(* ------------------------------------------------------------------ *)
(** ** Deleting a recipe *)



Lemma filter_one_out {row : Type} (pk : row -> option Z)
  (rows : list row) (r : row) :
  pk_distinct (map pk rows) -> In r rows ->
  exists l1 l2,
    rows = l1 ++ r :: l2 /\
    filter (fun x => negb (fk_matches (pk x) (pk r))) rows = l1 ++ l2.
Proof.
  intros (Hnone & Hnd) Hin. apply in_split in Hin.
  destruct Hin as (l1 & l2 & ->). exists l1, l2. split; [reflexivity|].
  rewrite map_app in Hnd, Hnone. cbn [map] in Hnd, Hnone.
  pose proof (NoDup_remove_2 _ _ _ Hnd) as Hfresh.
  assert (forall x, In x (l1 ++ l2) -> fk_matches (pk x) (pk r) = false)
    as Hother.
  { intros x Hx. destruct (fk_matches (pk x) (pk r)) eqn:E; [|reflexivity].
    exfalso. apply Hfresh. rewrite <- map_app.
    apply in_map_iff. exists x. split; [|exact Hx].
    destruct (pk x), (pk r); cbn in E; try discriminate.
    apply Z.eqb_eq in E. now subst. }
  assert (fk_matches (pk r) (pk r) = true) as Hself.
  { destruct (pk r) eqn:E; [cbn; apply Z.eqb_refl|].
    exfalso. apply Hnone. apply in_or_app. right. now left. }
  rewrite filter_app. cbn [filter]. rewrite Hself. cbn [negb].
  rewrite !forallb_filter_id; [reflexivity| |].
  - apply forallb_forall. intros x Hx. rewrite Hother; [reflexivity|].
    apply in_or_app. now right.
  - apply forallb_forall. intros x Hx. rewrite Hother; [reflexivity|].
    apply in_or_app. now left.
Qed.

(** X7. With distinct primary keys, deleting a recipe of the table lowers
    the number of recipes of its author ([recipe_count] in the author's
    view) by one, and changes that of no other user. *)
Theorem delete_recipe_lowers_recipe_count (db : session) (r : recipes.row) :
  pk_distinct (map recipes.id (recipes_tbl db)) ->
  In r (recipes_tbl db) ->
  forall a,
    (length (User.recipes (after db (delete_recipe db r)) a)
     + (if fk_matches (recipes.author_id r) (users.id a) then 1 else 0)
     = length (User.recipes db a))%nat.
Proof.
  intros Hpk Hin a. cbn [after delete_recipe]. unfold User.recipes.
  cbn [recipes_tbl].
  destruct (filter_one_out recipes.id _ r Hpk Hin) as (l1 & l2 & Hl & Hf).
  rewrite Hf, Hl, !filter_app, !length_app. cbn [filter].
  destruct (fk_matches (recipes.author_id r) (users.id a)); cbn [length]; lia.
Qed.

(** alice wrote one recipe, the Tofu Scramble; once it is deleted she has
    none, and bob still has his one. *)
Lemma delete_recipe_lowers_recipe_count_witness :
  length (User.recipes (after sample_db (delete_recipe sample_db tofu_scramble))
            alice) = 0%nat /\
  length (User.recipes (after sample_db (delete_recipe sample_db tofu_scramble))
            bob) = 1%nat.
Proof.
  assert (pk_distinct (map recipes.id (recipes_tbl sample_db))) as Hpk.
  { split; [intros [H|[H|[]]]; discriminate H|].
    repeat constructor; cbn; intuition discriminate. }
  assert (In tofu_scramble (recipes_tbl sample_db)) as Hin by (now left).
  pose proof (delete_recipe_lowers_recipe_count sample_db tofu_scramble
                Hpk Hin alice) as Ha.
  pose proof (delete_recipe_lowers_recipe_count sample_db tofu_scramble
                Hpk Hin bob) as Hb.
  cbn in Ha, Hb. cbn. split; lia.
Defined.

(* ------------------------------------------------------------------ *)
(** ** Reviews and the rating of a recipe *)

(** X8. Nothing in the models updates [rating_sum] and [rating_count] from
    the reviews: adding a review leaves the recipes table, and so the
    view of every recipe with its [average_rating] and [rating_count], as
    they were, while the recipe reviewed has one review more. *)
Theorem add_review_leaves_rating_aggregate
  (now : datetime) (db : session) (rv : reviews.row) (db' : session) :
  add_review now db rv = Ok db' ->
  recipes_tbl db' = recipes_tbl db /\
  (forall r include_author,
     Recipe.to_dict db' r include_author = Recipe.to_dict db r include_author) /\
  (forall r,
     fk_matches (reviews.recipe_id rv) (recipes.id r) = true ->
     length (Recipe.reviews db' r) = S (length (Recipe.reviews db r))).
Proof.
  intros H. apply add_review_accepted in H.
  destruct H as (_ & _ & pk & Ht & Hu & Hr & _).
  split; [exact Hr|]. split.
  - intros r b. unfold Recipe.to_dict, Recipe.author, get_user, User.to_dict,
      User.recipes. now rewrite Hu, Hr.
  - intros r Hm. unfold Recipe.reviews. rewrite Ht, filter_app, length_app.
    cbn [filter reviews.with_defaults reviews.recipe_id]. rewrite Hm.
    cbn [length]. lia.
Qed.

(** The Tofu Scramble carries [rating_sum = 6], [rating_count = 2]; a
    first review is added to an empty reviews table, and the view of the
    recipe is the same. *)
Lemma add_review_leaves_rating_aggregate_witness :
  exists db',
    add_review t0 empty_reviews_db (sample_review None 10 2 4) = Ok db' /\
    length (Recipe.reviews db' tofu_scramble) = 1%nat /\
    Recipe.to_dict db' tofu_scramble false
    = Recipe.to_dict empty_reviews_db tofu_scramble false.
Proof.
  destruct (add_review t0 empty_reviews_db (sample_review None 10 2 4))
    as [db'|] eqn:E; [|discriminate E].
  exists db'. split; [reflexivity|].
  destruct (add_review_leaves_rating_aggregate _ _ _ _ E) as (_ & Hv & Hn).
  split; [|apply Hv].
  rewrite (Hn tofu_scramble eq_refl). reflexivity.
Defined.

(* ------------------------------------------------------------------ *)
(** ** Relationships and their backrefs *)

Lemma find_fk_some {row : Type} (pk : row -> option Z) fk rows a :
  find (fun x => fk_matches fk (pk x)) rows = Some a ->
  In a rows /\ fk_matches fk (pk a) = true.
Proof. apply find_some. Qed.

Lemma find_fk_unique {row : Type} (pk : row -> option Z) fk rows a :
  pk_distinct (map pk rows) -> In a rows -> fk_matches fk (pk a) = true ->
  find (fun x => fk_matches fk (pk x)) rows = Some a.
Proof.
  intros (_ & Hnd) Hin Hm. induction rows as [|x rows IH]; [destruct Hin|].
  cbn [map] in Hnd. inversion Hnd as [|? ? Hx Hnd']; subst.
  cbn [find]. destruct Hin as [->|Hin]; [now rewrite Hm|].
  destruct (fk_matches fk (pk x)) eqn:E; [|now apply IH].
  exfalso. apply Hx. apply in_map_iff. exists a. split; [|exact Hin].
  destruct fk, (pk a), (pk x); cbn in Hm, E; try discriminate.
  apply Z.eqb_eq in Hm, E. congruence.
Qed.

Lemma inverse_relations_fk {child parent : Type}
  (children : list child) (parents : list parent)
  (pk : parent -> option Z) (fk : child -> option Z) :
  inverse_relations children parents pk
    (fun p => filter (fun c => fk_matches (fk c) (pk p)) children)
    (fun c => find (fun p => fk_matches (fk c) (pk p)) parents).
Proof.
  split.
  - intros c p Hc Hone. apply find_fk_some in Hone. destruct Hone as (Hp & Hm).
    split; [exact Hp|]. apply filter_In. now split.
  - intros Hpk c p Hp Hc. apply filter_In in Hc. destruct Hc as (_ & Hm).
    now apply find_fk_unique.
Qed.

(** X9. Each relationship and its [backref] agree: [User.recipes] with
    [Recipe.author], [User.reviews] with [Review.reviewer],
    [User.sent_swaps] with [RecipeSwap.requester], [User.received_swaps]
    with [RecipeSwap.owner], [Recipe.reviews] with [Review.recipe], and
    [Recipe.swaps] with [RecipeSwap.recipe]. *)
Theorem backrefs_agree (db : session) :
  inverse_relations (recipes_tbl db) (users_tbl db) users.id
    (User.recipes db) (Recipe.author db) /\
  inverse_relations (reviews_tbl db) (users_tbl db) users.id
    (User.reviews db) (Review.reviewer db) /\
  inverse_relations (recipe_swaps_tbl db) (users_tbl db) users.id
    (User.sent_swaps db) (RecipeSwap.requester db) /\
  inverse_relations (recipe_swaps_tbl db) (users_tbl db) users.id
    (User.received_swaps db) (RecipeSwap.owner db) /\
  inverse_relations (reviews_tbl db) (recipes_tbl db) recipes.id
    (Recipe.reviews db) (Review.recipe db) /\
  inverse_relations (recipe_swaps_tbl db) (recipes_tbl db) recipes.id
    (Recipe.swaps db) (RecipeSwap.recipe db).
Proof.
  split; [|split; [|split; [|split; [|split]]]].
  - exact (inverse_relations_fk _ _ users.id recipes.author_id).
  - exact (inverse_relations_fk _ _ users.id reviews.reviewer_id).
  - exact (inverse_relations_fk _ _ users.id recipe_swaps.requester_id).
  - exact (inverse_relations_fk _ _ users.id recipe_swaps.owner_id).
  - exact (inverse_relations_fk _ _ recipes.id reviews.recipe_id).
  - exact (inverse_relations_fk _ _ recipes.id recipe_swaps.recipe_id).
Qed.

(** alice is the owner of bob's swap request, and the request is among
    the swaps she received. *)
Lemma backrefs_agree_witness :
  In pending_swap (User.received_swaps sample_db alice) /\
  RecipeSwap.owner sample_db pending_swap = Some alice.
Proof.
  destruct (backrefs_agree sample_db) as (_ & _ & _ & (Hone & Hmany) & _).
  assert (In pending_swap (User.received_swaps sample_db alice)) as Hin.
  { apply (Hone pending_swap alice); [now left|reflexivity]. }
  split; [exact Hin|].
  apply Hmany; [|now left|exact Hin].
  split; [intros [H|[H|[H|[]]]]; discriminate H|].
  repeat constructor; cbn; intuition discriminate.
Defined.

(* ------------------------------------------------------------------ *)
(** ** Deleting a user after a recipe *)



(* ================================================================== *)
(** * Further properties of the encoded columns *)

(** ** When the write accessors raise *)








(* ------------------------------------------------------------------ *)
(** ** What the write accessors store is printable ASCII *)

Lemma printable_app a b : printable (a ++ b) = printable a && printable b.
Proof. apply forallb_app. Qed.

Lemma printable_uint_chars d : printable (uint_chars d) = true.
Proof. induction d; cbn; auto. Qed.

Lemma printable_int_repr z : printable (int_repr z) = true.
Proof.
  unfold int_repr. destruct (Z.to_int z); cbn [printable forallb];
    [|cbn]; apply printable_uint_chars.
Qed.

Lemma printable_strip_zeros l :
  printable l = true -> printable (strip_zeros l) = true.
Proof.
  induction l as [|c r IH]; [reflexivity|]. cbn [printable forallb].
  intros H. apply andb_true_iff in H. destruct H as (Hc & Hr).
  cbn [strip_zeros]. specialize (IH Hr).
  destruct (strip_zeros r) as [|c' r'].
  - destruct (N.eqb c 48); [reflexivity|]. cbn. now rewrite Hc.
  - cbn [printable forallb] in *. now rewrite Hc.
Qed.

Lemma printable_zeros n : printable (zeros n) = true.
Proof.
  unfold zeros. induction (Z.to_nat n) as [|k IH]; [reflexivity|exact IH].
Qed.

Lemma printable_firstn n l :
  printable l = true -> printable (firstn n l) = true.
Proof.
  revert l. induction n as [|n IH]; intros [|c l] H; try reflexivity.
  cbn [printable forallb firstn] in *. apply andb_true_iff in H.
  destruct H as (Hc & Hl). rewrite Hc. now apply IH.
Qed.

Lemma printable_skipn n l :
  printable l = true -> printable (skipn n l) = true.
Proof.
  revert l. induction n as [|n IH]; intros [|c l] H; try reflexivity;
    [exact H|].
  cbn [printable forallb skipn] in *. apply andb_true_iff in H.
  apply IH. tauto.
Qed.

Lemma printable_format_repr ds decpt :
  printable ds = true -> printable (format_repr ds decpt) = true.
Proof.
  intros H. unfold format_repr.
  destruct (Z.leb decpt (-4) || Z.ltb 16 decpt).
  - rewrite !printable_app. apply andb_true_iff. split.
    + destruct ds as [|d [|d' r]]; [reflexivity|exact H|].
      cbn [printable forallb] in *. apply andb_true_iff in H.
      destruct H as (-> & ->). reflexivity.
    + apply andb_true_iff. split.
      * destruct (Z.ltb (decpt - 1) 0); reflexivity.
      * destruct (Z.ltb (Z.abs (decpt - 1)) 10);
          [cbn [printable forallb]|]; apply printable_int_repr.
  - destruct (Z.leb decpt 0).
    + change (printable (zeros (- decpt) ++ ds) = true).
      rewrite printable_app, printable_zeros. exact H.
    + destruct (Z.leb (Z.of_nat (length ds)) decpt).
      * rewrite !printable_app, H, printable_zeros. reflexivity.
      * rewrite printable_app, printable_firstn by exact H.
        change (printable (skipn (Z.to_nat decpt) ds) = true).
        now apply printable_skipn.
Qed.

Lemma printable_encode_float f : printable (encode_float f) = true.
Proof.
  destruct f as [[|]|[|]| |s m e]; try reflexivity.
  unfold encode_float, float_repr.
  destruct (shortest_digits 16 m e (decimal_exponent m e) 1) as (d, q).
  rewrite printable_app. apply andb_true_iff. split.
  - destruct s; reflexivity.
  - apply printable_format_repr, printable_strip_zeros, printable_int_repr.
Qed.

Lemma printable_hex_digit d :
  (d < 16)%N -> ((32 <=? hex_digit d) && (hex_digit d <=? 126))%N = true.
Proof.
  intros H. unfold hex_digit. destruct (N.ltb_spec d 10);
    apply andb_true_iff; split; apply N.leb_le; lia.
Qed.

Lemma printable_u_escape c : printable (u_escape c) = true.
Proof.
  unfold u_escape. cbn [printable forallb].
  rewrite !printable_hex_digit by (apply N.mod_lt; lia). reflexivity.
Qed.

Lemma printable_escape_char c : printable (escape_char c) = true.
Proof.
  unfold escape_char.
  repeat match goal with
  | |- context [if N.eqb c ?x then _ else _] =>
      destruct (N.eqb c x); [reflexivity|]
  end.
  destruct ((32 <=? c)%N && (c <=? 126)%N) eqn:E.
  - cbn. now rewrite E.
  - destruct (c <? 65536)%N; [apply printable_u_escape|].
    cbv zeta. rewrite printable_app, !printable_u_escape. reflexivity.
Qed.

Lemma printable_escape s : printable (escape s) = true.
Proof.
  induction s as [|c s IH]; [reflexivity|].
  cbn [escape]. now rewrite printable_app, printable_escape_char.
Qed.

Lemma printable_basestring s : printable (encode_basestring_ascii s) = true.
Proof.
  unfold encode_basestring_ascii.
  change (printable (escape s ++ [QUOTE]) = true).
  now rewrite printable_app, printable_escape.
Qed.

Lemma printable_encode_items l t :
  Forall (fun v => forall t, json_dumps v = Ok t -> printable t = true) l ->
  encode_items json_dumps l = Ok t -> printable t = true.
Proof.
  intros H. revert t. induction H as [|x r Hx _ IH]; intros t Ht.
  - now injection Ht as <-.
  - destruct r as [|y r].
    + cbn [encode_items] in Ht. destruct (json_dumps x) as [tx|]; [|discriminate].
      injection Ht as <-. now apply Hx.
    + rewrite encode_items_cons in Ht.
      destruct (json_dumps x) as [tx|]; [|discriminate]. cbn [bind] in Ht.
      destruct (encode_items json_dumps (y :: r)) as [ts|]; [|discriminate].
      injection Ht as <-. rewrite !printable_app.
      change (printable (44%N :: 32%N :: ts)) with (printable ts).
      rewrite (Hx tx eq_refl), (IH ts eq_refl). reflexivity.
Qed.

Lemma printable_encode_pairs kvs t :
  Forall (fun kv =>
            (forall t, json_dumps (fst kv) = Ok t -> printable t = true) /\
            (forall t, json_dumps (snd kv) = Ok t -> printable t = true)) kvs ->
  encode_pairs json_dumps kvs = Ok t -> printable t = true.
Proof.
  intros H. revert t. induction H as [|[k x] r (_ & Hx) _ IH]; intros t Ht.
  - now injection Ht as <-.
  - cbn [snd] in Hx. destruct r as [|kv r].
    + cbn [encode_pairs] in Ht.
      destruct (encode_key k) as [ks|]; [|discriminate]. cbn [bind] in Ht.
      destruct (json_dumps x) as [tx|]; [|discriminate].
      injection Ht as <-.
      change (printable (encode_basestring_ascii ks ++ u ": " ++ tx) = true).
      rewrite !printable_app.
      now rewrite printable_basestring, (Hx tx eq_refl).
    + rewrite encode_pairs_cons in Ht.
      destruct (encode_key k) as [ks|]; [|discriminate]. cbn [bind] in Ht.
      destruct (json_dumps x) as [tx|]; [|discriminate]. cbn [bind] in Ht.
      destruct (encode_pairs json_dumps (kv :: r)) as [ts|]; [|discriminate].
      injection Ht as <-.
      change (printable ((encode_basestring_ascii ks ++ u ": " ++ tx)
                         ++ u ", " ++ ts) = true).
      rewrite !printable_app.
      now rewrite printable_basestring, (Hx tx eq_refl), (IH ts eq_refl).
Qed.

Lemma printable_json_dumps v t : json_dumps v = Ok t -> printable t = true.
Proof.
  revert t.
  induction v as [ | b | z | f | s | l IH | l IH | kvs IH]
    using pyval_nested_ind; intros t H; cbn [json_dumps] in H.
  - now injection H as <-.
  - destruct b; now injection H as <-.
  - injection H as <-. apply printable_int_repr.
  - injection H as <-. apply printable_encode_float.
  - injection H as <-. apply printable_basestring.
  - destruct (encode_items json_dumps l) as [ts|] eqn:E; [|discriminate].
    injection H as <-. change (printable (ts ++ [RBRACKET]) = true).
    now rewrite printable_app, (printable_encode_items l ts IH E).
  - destruct (encode_items json_dumps l) as [ts|] eqn:E; [|discriminate].
    injection H as <-. change (printable (ts ++ [RBRACKET]) = true).
    now rewrite printable_app, (printable_encode_items l ts IH E).
  - destruct (encode_pairs json_dumps kvs) as [ts|] eqn:E; [|discriminate].
    injection H as <-. change (printable (ts ++ [RBRACE]) = true).
    now rewrite printable_app, (printable_encode_pairs kvs ts IH E).
Qed.

(** X12. Whatever value a write accessor is given, the text it stores in the
    column is printable ASCII: [json.dumps] escapes every control
    character and every character beyond ASCII. *)
Theorem write_accessors_store_printable_ascii (v : pyval) :
  (forall self self',
     User.set_dietary_preferences self v = Ok self' ->
     exists t, users.dietary_preferences self' = Some t /\
               printable t = true) /\
  (forall self self',
     Recipe.set_ingredients self v = Ok self' ->
     exists t, recipes.ingredients self' = Some t /\ printable t = true) /\
  (forall self self',
     Recipe.set_tags self v = Ok self' ->
     exists t, recipes.tags self' = Some t /\ printable t = true) /\
  (forall self self',
     Recipe.set_nutritional_info self v = Ok self' ->
     exists t, recipes.nutritional_info self' = Some t /\
               printable t = true) /\
  (forall self self',
     RecipeSwap.set_offered_recipe_ids self v = Ok self' ->
     exists t, recipe_swaps.offered_recipe_ids self' = Some t /\
               printable t = true).
Proof.
  unfold User.set_dietary_preferences, Recipe.set_ingredients,
    Recipe.set_tags, Recipe.set_nutritional_info,
    RecipeSwap.set_offered_recipe_ids.
  repeat split; intros self self' H;
    (destruct (json_dumps v) as [t|] eqn:E; [|discriminate H]);
    injection H as <-; exists t;
    (split; [reflexivity|exact (printable_json_dumps v t E)]).
Qed.

(** Tags with an accent, a line feed and an emoji are stored as ASCII. *)
Lemma write_accessors_store_printable_ascii_witness :
  exists self' t,
    Recipe.set_tags tofu_scramble accented = Ok self' /\
    recipes.tags self' = Some t /\ printable t = true /\
    t = LBRACKET :: QUOTE :: u "cr\u00e8me\n" ++ QUOTE :: u ", "
        ++ QUOTE :: u "\ud83d\ude00" ++ [QUOTE; RBRACKET].
Proof.
  destruct (Recipe.set_tags tofu_scramble accented) as [self'|] eqn:E;
    [|discriminate E].
  destruct (proj1 (proj2 (proj2 (write_accessors_store_printable_ascii
                                   accented))) tofu_scramble self' E)
    as (t & Ht & Hp).
  exists self', t. split; [reflexivity|]. split; [exact Ht|].
  split; [exact Hp|].
  injection E as <-. cbn in Ht. injection Ht as <-. reflexivity.
Defined.

(* ------------------------------------------------------------------ *)
(** ** What comes back for a tuple and for a key that is not a string *)









(* ------------------------------------------------------------------ *)
(** ** What the read accessors return *)

Lemma str_eqb_eq a b : str_eqb a b = true -> a = b.
Proof.
  revert b. induction a as [|x a IH]; intros [|y b] H; cbn in H;
    try discriminate; [reflexivity|].
  apply andb_true_iff in H. destruct H as (Hx & Hab).
  apply N.eqb_eq in Hx. now rewrite Hx, (IH b Hab).
Qed.

Lemma json_shaped_dict kvs : json_shaped (PyDict kvs) = members_shaped kvs.
Proof. reflexivity. Qed.

Lemma dict_mem_set k' k v d :
  dict_mem k' (dict_set k v d) = dict_mem k' d || str_eqb k' k.
Proof.
  induction d as [|[key w] d IH].
  - unfold dict_mem. cbn. now destruct (str_eqb k' k).
  - cbn [dict_set]. unfold dict_mem in *.
    destruct (key_is k key) eqn:Ek; cbn [dict_get].
    + destruct (key_is k' key) eqn:Ek'; [reflexivity|].
      destruct (str_eqb k' k) eqn:E; [|now rewrite orb_false_r].
      apply str_eqb_eq in E. subst k'. congruence.
    + destruct (key_is k' key); [reflexivity|exact IH].
Qed.

Lemma members_shaped_set k v d :
  members_shaped d = true -> json_shaped v = true ->
  members_shaped (dict_set k v d) = true.
Proof.
  intros Hd Hv. induction d as [|[key w] d IH]; cbn [dict_set].
  - cbn. now rewrite Hv.
  - cbn [members_shaped] in Hd.
    destruct key as [ | | | |k0| | | ]; try discriminate Hd.
    apply andb_true_iff in Hd. destruct Hd as (Hd & Hr).
    apply andb_true_iff in Hd. destruct Hd as (Hfresh & Hw).
    cbn [key_is]. destruct (str_eqb k k0) eqn:E; cbn [members_shaped].
    + now rewrite Hfresh, Hv, Hr.
    + rewrite dict_mem_set, str_eqb_sym, E, orb_false_r, Hfresh, Hw.
      now apply IH.
Qed.

Lemma members_shaped_of_pairs pairs d :
  members_shaped d = true ->
  Forall (fun p => json_shaped (snd p) = true) pairs ->
  members_shaped (dict_of_pairs_from d pairs) = true.
Proof.
  intros Hd H. revert d Hd.
  induction H as [|[k v] pairs Hv _ IH]; intros d Hd; [exact Hd|].
  cbn [dict_of_pairs_from]. apply IH. now apply members_shaped_set.
Qed.

Section shaped_scan.

Variable scan : str -> res (pyval * str).
Hypothesis scan_shaped :
  forall s v rest, scan s = Ok (v, rest) -> json_shaped v = true.

Lemma array_items_shaped n :
  forall s vs rest,
    array_items scan n s = Ok (vs, rest) -> forallb json_shaped vs = true.
Proof.
  induction n as [|n IH]; intros s vs rest H; [discriminate H|].
  cbn [array_items] in H.
  destruct (scan s) as [[v s1]|] eqn:E; [|discriminate H]. cbn [bind] in H.
  apply scan_shaped in E.
  destruct (skip_ws s1) as [|c s2]; [discriminate H|].
  destruct (N.eqb c RBRACKET).
  { injection H as <- <-. cbn. now rewrite E. }
  destruct (N.eqb c COMMA); [|discriminate H].
  destruct (array_items scan n (skip_ws s2)) as [[vs' rest']|] eqn:Ea;
    [|discriminate H].
  injection H as <- <-. cbn [forallb]. rewrite E. exact (IH _ _ _ Ea).
Qed.

Lemma object_items_shaped n :
  forall s kvs rest,
    object_items scan n s = Ok (kvs, rest) ->
    Forall (fun p => json_shaped (snd p) = true) kvs.
Proof.
  induction n as [|n IH]; intros s kvs rest H; [discriminate H|].
  cbn [object_items] in H.
  destruct (scanstring s) as [[key s1]|]; [|discriminate H]. cbn [bind] in H.
  destruct (skip_ws s1) as [|c s2]; [discriminate H|].
  destruct (N.eqb c COLON); [|discriminate H].
  destruct (scan (skip_ws s2)) as [[v s3]|] eqn:E; [|discriminate H].
  cbn [bind] in H. apply scan_shaped in E.
  destruct (skip_ws s3) as [|d s4]; [discriminate H|].
  destruct (N.eqb d RBRACE).
  { injection H as <- <-. constructor; [exact E|constructor]. }
  destruct (N.eqb d COMMA); [|discriminate H].
  destruct (skip_ws s4) as [|q s5]; [discriminate H|].
  destruct (N.eqb q QUOTE); [|discriminate H].
  destruct (object_items scan n s5) as [[kvs' rest']|] eqn:Eo;
    [|discriminate H].
  injection H as <- <-. constructor; [exact E|exact (IH _ _ _ Eo)].
Qed.

Lemma JSONArray_shaped s v rest :
  JSONArray scan s = Ok (v, rest) -> json_shaped v = true.
Proof.
  unfold JSONArray. destruct (skip_ws s) as [|c r]; [discriminate|].
  destruct (N.eqb c RBRACKET); [intros H; now injection H as <- <-|].
  destruct (array_items scan (length s) (c :: r)) as [[vs rest']|] eqn:E;
    [|discriminate].
  intros H. injection H as <- <-. exact (array_items_shaped _ _ _ _ E).
Qed.

Lemma JSONObject_shaped s v rest :
  JSONObject scan s = Ok (v, rest) -> json_shaped v = true.
Proof.
  unfold JSONObject. destruct (skip_ws s) as [|c r]; [discriminate|].
  destruct (N.eqb c RBRACE); [intros H; now injection H as <- <-|].
  destruct (N.eqb c QUOTE); [|discriminate].
  destruct (object_items scan (length s) r) as [[kvs rest']|] eqn:E;
    [|discriminate].
  intros H. injection H as <- <-. rewrite json_shaped_dict.
  apply members_shaped_of_pairs; [reflexivity|].
  exact (object_items_shaped _ _ _ _ E).
Qed.

End shaped_scan.

Lemma match_number_shaped s v rest :
  match_number s = Some (v, rest) -> json_shaped v = true.
Proof.
  assert (forall neg t, match_unsigned neg t = Some (v, rest) ->
                        json_shaped v = true) as Hu.
  { intros neg t. unfold match_unsigned.
    destruct (match_integer t) as [(i, s2)|]; [|discriminate].
    destruct (match_frac s2) as [(f, r)|];
      destruct (match_exp _) as [((n, d), r')|];
      intros H; injection H as <- <-; reflexivity. }
  unfold match_number. destruct s as [|c s]; [discriminate|].
  destruct (N.eqb c MINUS); apply Hu.
Qed.

Lemma literal_shaped name v s x rest :
  json_shaped v = true -> literal name v s = Some (x, rest) ->
  json_shaped x = true.
Proof.
  intros Hv. unfold literal. destruct (starts_with (u name) s); [|discriminate].
  intros H. now injection H as <- <-.
Qed.

Lemma scan_once_shaped depth :
  forall s v rest, scan_once depth s = Ok (v, rest) -> json_shaped v = true.
Proof.
  induction depth as [|depth IH]; intros s v rest H; [discriminate H|].
  destruct s as [|c r]; [discriminate H|]. cbn [scan_once] in H.
  destruct (N.eqb c QUOTE).
  { destruct (scanstring r) as [[x rest0]|]; [|discriminate H].
    now injection H as <- <-. }
  destruct (N.eqb c LBRACE); [exact (JSONObject_shaped _ IH _ _ _ H)|].
  destruct (N.eqb c LBRACKET); [exact (JSONArray_shaped _ IH _ _ _ H)|].
  repeat match type of H with
  | context [match literal ?n ?x ?t with _ => _ end] =>
      let E := fresh "E" in
      destruct (literal n x t) as [[? ?]|] eqn:E;
      [injection H as <- <-;
       eapply literal_shaped; [|exact E]; reflexivity|]
  | context [match match_number ?t with _ => _ end] =>
      let E := fresh "E" in
      destruct (match_number t) as [[? ?]|] eqn:E;
      [injection H as <- <-; exact (match_number_shaped _ _ _ E)|]
  end.
  discriminate H.
Qed.

Lemma json_loads_shaped s v : json_loads s = Ok v -> json_shaped v = true.
Proof.
  unfold json_loads.
  destruct (match s with
            | c :: _ => if N.eqb c BOM then Raise JSONDecodeError else Ok tt
            | [] => Ok tt
            end); [|discriminate].
  cbn [bind].
  destruct (scan_once (S (length s)) (skip_ws s)) as [[x rest]|] eqn:E;
    [|discriminate]. cbn [bind].
  destruct (skip_ws rest); [|discriminate].
  intros H. injection H as <-. exact (scan_once_shaped _ _ _ _ E).
Qed.

(** X14. Whatever the column holds, a value a read accessor returns is a
    value of JSON: it holds no tuple, and in every mapping in it the keys
    are [str]s and no key occurs twice. *)
Theorem read_accessors_return_json_values (v : pyval) :
  (forall self, User.get_dietary_preferences self = Ok v ->
                json_shaped v = true) /\
  (forall self, Recipe.get_ingredients self = Ok v -> json_shaped v = true) /\
  (forall self, Recipe.get_tags self = Ok v -> json_shaped v = true) /\
  (forall self, Recipe.get_nutritional_info self = Ok v ->
                json_shaped v = true) /\
  (forall self, RecipeSwap.get_offered_recipe_ids self = Ok v ->
                json_shaped v = true).
Proof.
  assert (forall c empty, json_shaped empty = true ->
            decode_column c empty = Ok v -> json_shaped v = true) as Hcol.
  { intros [[|ch r]|] empty He H; cbn [decode_column] in H;
      try (injection H as <-; exact He).
    exact (json_loads_shaped _ _ H). }
  repeat split; intros self; apply Hcol; reflexivity.
Qed.

(** A column that holds an object with the key [a] twice reads as a
    mapping with the key once, holding the last value. *)
Lemma read_accessors_return_json_values_witness :
  Recipe.get_nutritional_info
    (Recipe.with_encoded bobs_chili None None
       (Some (LBRACE :: QUOTE :: u "a" ++ QUOTE :: u ": 1, "
              ++ QUOTE :: u "a" ++ QUOTE :: u ": [2]" ++ [RBRACE])))
  = Ok (PyDict [(PyStr (u "a"), PyList [PyInt 2])]) /\
  json_shaped (PyDict [(PyStr (u "a"), PyList [PyInt 2])]) = true.
Proof.
  split; [reflexivity|].
  apply (proj1 (proj2 (proj2 (proj2 (read_accessors_return_json_values
                  (PyDict [(PyStr (u "a"), PyList [PyInt 2])])))))
           (Recipe.with_encoded bobs_chili None None
              (Some (LBRACE :: QUOTE :: u "a" ++ QUOTE :: u ": 1, "
                     ++ QUOTE :: u "a" ++ QUOTE :: u ": [2]" ++ [RBRACE])))).
  reflexivity.
Defined.

(* ------------------------------------------------------------------ *)
(** ** A column of blanks *)

Lemma skip_ws_blank s : forallb is_ws s = true -> skip_ws s = [].
Proof.
  induction s as [|c s IH]; [reflexivity|]. cbn [forallb skip_ws].
  intros H. apply andb_true_iff in H. destruct H as (-> & H). now apply IH.
Qed.

Lemma json_loads_blank c s :
  forallb is_ws (c :: s) = true -> json_loads (c :: s) = Raise JSONDecodeError.
Proof.
  intros H. unfold json_loads. destruct (N.eqb c BOM); [reflexivity|].
  cbn [bind]. now rewrite (skip_ws_blank _ H).
Qed.

(** X15. Only NULL and the empty string read as empty.  A column that holds
    nothing but spaces, tabs and line ends is true for [if self.column:],
    [json.loads] finds no value in it, and the read accessor raises
    [JSONDecodeError]. *)
Theorem blank_column_is_not_empty (c : char) (s : str) :
  forallb is_ws (c :: s) = true ->
  (forall self, users.dietary_preferences self = Some (c :: s) ->
     User.get_dietary_preferences self = Raise JSONDecodeError) /\
  (forall self, recipes.ingredients self = Some (c :: s) ->
     Recipe.get_ingredients self = Raise JSONDecodeError) /\
  (forall self, recipes.tags self = Some (c :: s) ->
     Recipe.get_tags self = Raise JSONDecodeError) /\
  (forall self, recipes.nutritional_info self = Some (c :: s) ->
     Recipe.get_nutritional_info self = Raise JSONDecodeError) /\
  (forall self, recipe_swaps.offered_recipe_ids self = Some (c :: s) ->
     RecipeSwap.get_offered_recipe_ids self = Raise JSONDecodeError).
Proof.
  intros H. pose proof (json_loads_blank c s H) as Hl.
  unfold User.get_dietary_preferences, Recipe.get_ingredients,
    Recipe.get_tags, Recipe.get_nutritional_info,
    RecipeSwap.get_offered_recipe_ids.
  repeat split; intros self ->; exact Hl.
Qed.

(** A recipe whose tags column holds one space has no tags to read. *)
Lemma blank_column_is_not_empty_witness :
  Recipe.get_tags (Recipe.with_encoded bobs_chili None (Some (u " ")) None)
  = Raise JSONDecodeError.
Proof.
  apply (proj1 (proj2 (proj2 (blank_column_is_not_empty 32%N [] eq_refl)))).
  reflexivity.
Defined.

(* ================================================================== *)
(** * The views as JSON *)













(* ------------------------------------------------------------------ *)
(** ** What is written shows in the view *)




(* ================================================================== *)
(** * The rating of a recipe: failures and defaults *)

Lemma int_truediv_raises a b e :
  b <> 0 -> int_truediv a b = Raise e -> e = OverflowError.
Proof.
  intros Hb. unfold int_truediv.
  destruct (Z.eqb_spec b 0) as [->|_]; [contradiction|].
  destruct (is_finite _); [discriminate|]. intros H. now injection H as <-.
Qed.

Lemma float_round_raises x n e :
  float_round x n = Raise e -> e = OverflowError.
Proof.
  unfold float_round. destruct x as [| | |s m ex]; try discriminate.
  destruct (decimal_units m ex n); try discriminate.
  destruct (is_finite _); [discriminate|]. intros H. now injection H as <-.
Qed.

(** X18. The guard [rating_count == 0] keeps the division from ever raising
    [ZeroDivisionError].  [average_rating] raises [TypeError] exactly when
    [rating_count] is NULL, or [rating_sum] is NULL and [rating_count] is
    not 0 (with [rating_count] 0 it returns 0 whatever [rating_sum] is);
    with both columns set its only failure is the [OverflowError] of a
    quotient too large for a float. *)
Theorem average_rating_failures (self : recipes.row) :
  (recipes.rating_count self = None ->
   Recipe.average_rating self = Raise TypeError) /\
  (recipes.rating_sum self = None ->
   Recipe.average_rating self
   = match recipes.rating_count self with
     | Some 0 => Ok (PyInt 0)
     | _ => Raise TypeError
     end) /\
  (forall e,
     Recipe.average_rating self = Raise e ->
     e <> ZeroDivisionError /\
     (e = TypeError <->
      recipes.rating_count self = None \/
      recipes.rating_sum self = None) /\
     (e <> TypeError -> e = OverflowError)).
Proof.
  unfold Recipe.average_rating. split; [|split].
  - intros ->. now destruct (recipes.rating_sum self).
  - intros ->. now destruct (recipes.rating_count self) as [[| |]|].
  - intros e H.
    destruct (recipes.rating_count self) as [c|] eqn:Ec;
      [|destruct (recipes.rating_sum self); injection H as <-;
        repeat split; try discriminate; auto; contradiction].
    destruct (recipes.rating_sum self) as [s|] eqn:Es;
      [|destruct c; [discriminate H| |]; injection H as <-;
        repeat split; try discriminate; auto; contradiction].
    assert (c <> 0 /\
            (q <- int_truediv s c ;; r <- float_round q 1 ;; Ok (PyFloat r))
            = Raise e) as (Hc & H').
    { destruct c; [discriminate H| |]; split; try exact H; discriminate. }
    assert (e = OverflowError) as ->.
    { destruct (int_truediv s c) as [q|e0] eqn:Eq; cbn [bind] in H'.
      - destruct (float_round q 1) as [r|e1] eqn:Er; [discriminate H'|].
        injection H' as <-. exact (float_round_raises _ _ _ Er).
      - injection H' as <-. exact (int_truediv_raises _ _ _ Hc Eq). }
    repeat split; try discriminate.
    intros [Hn|Hn]; discriminate Hn.
Qed.

(** A recipe not yet inserted, with no rating column set, has no
    [average_rating]: the property raises [TypeError]. *)
Lemma average_rating_failures_witness :
  Recipe.average_rating (new_recipe 1 "Miso Soup" (u "[]"))
  = Raise TypeError.
Proof.
  apply (proj1 (average_rating_failures (new_recipe 1 "Miso Soup" (u "[]")))).
  reflexivity.
Defined.

Lemma add_recipe_accepted now db r db' :
  add_recipe now db r = Ok db' ->
  recipe_not_null_columns r = true /\
  exists pk,
    ~ In (Some pk) (map recipes.id (recipes_tbl db)) /\
    recipes_tbl db' = recipes_tbl db ++ [recipe_with_defaults r pk now] /\
    users_tbl db' = users_tbl db /\
    reviews_tbl db' = reviews_tbl db /\
    recipe_swaps_tbl db' = recipe_swaps_tbl db.
Proof.
  unfold add_recipe. intros H.
  destruct (recipe_not_null_columns r); [|discriminate H]. cbn [negb] in H.
  destruct (existsb _ (recipes_tbl db)) eqn:Eid; [discriminate H|].
  injection H as <-. split; [reflexivity|].
  exists (match recipes.id r with
          | Some i => i
          | None => next_id (map recipes.id (recipes_tbl db))
          end).
  split; [|repeat split].
  intros Hin. destruct (recipes.id r) as [i|] eqn:Ei.
  - apply in_map_iff in Hin. destruct Hin as (x & Hx & Hin).
    assert (existsb (fun y => fk_matches (Some i) (recipes.id y))
                    (recipes_tbl db) = true) as Hc.
    { apply existsb_exists. exists x. split; [exact Hin|].
      rewrite Hx. cbn. apply Z.eqb_refl. }
    congruence.
  - apply next_id_above in Hin. lia.
Qed.

(** X19. The defaults of [rating_sum] and [rating_count] are applied by the
    INSERT: a recipe built without them has no [average_rating] before it
    is added (the property raises [TypeError]) and the average 0 once it
    is; its key is new, the other rows are as they were, and the number of
    recipes of its author is one more. *)
Theorem inserted_recipe_is_rated_zero
  (now : datetime) (db : session) (r : recipes.row) (db' : session) :
  add_recipe now db r = Ok db' ->
  recipes.rating_count r = None ->
  Recipe.average_rating r = Raise TypeError /\
  exists pk,
    ~ In (Some pk) (map recipes.id (recipes_tbl db)) /\
    recipes_tbl db' = recipes_tbl db ++ [recipe_with_defaults r pk now] /\
    Recipe.average_rating (recipe_with_defaults r pk now) = Ok (PyInt 0) /\
    (forall a,
       fk_matches (recipes.author_id r) (users.id a) = true ->
       length (User.recipes db' a) = S (length (User.recipes db a))).
Proof.
  intros H Hc. split.
  - unfold Recipe.average_rating. rewrite Hc.
    now destruct (recipes.rating_sum r).
  - apply add_recipe_accepted in H. destruct H as (_ & pk & Hpk & Ht & _).
    exists pk. split; [exact Hpk|]. split; [exact Ht|]. split.
    + unfold Recipe.average_rating. cbn. now rewrite Hc.
    + intros a Ha. unfold User.recipes. rewrite Ht, filter_app, length_app.
      cbn [filter recipe_with_defaults recipes.author_id]. rewrite Ha.
      cbn [length]. lia.
Qed.

(** alice adds a Miso Soup to the sample store: it gets the key 12, the
    average 0, and alice has two recipes. *)
Lemma inserted_recipe_is_rated_zero_witness :
  exists db' r',
    add_recipe t0 sample_db (new_recipe 1 "Miso Soup" (u "[]")) = Ok db' /\
    recipes_tbl db' = recipes_tbl sample_db ++ [r'] /\
    recipes.id r' = Some 12 /\
    Recipe.average_rating r' = Ok (PyInt 0) /\
    length (User.recipes db' alice) = 2%nat.
Proof.
  destruct (add_recipe t0 sample_db (new_recipe 1 "Miso Soup" (u "[]")))
    as [db'|] eqn:E; [|discriminate E].
  destruct (inserted_recipe_is_rated_zero _ _ _ _ E eq_refl)
    as (_ & pk & _ & Ht & Havg & Hn).
  exists db', (recipe_with_defaults (new_recipe 1 "Miso Soup" (u "[]")) pk t0).
  split; [reflexivity|]. split; [exact Ht|].
  split; [|split; [exact Havg|exact (Hn alice eq_refl)]].
  injection E as <-.
  apply (f_equal (fun l => map recipes.id l)) in Ht. cbn in Ht.
  injection Ht as <-. reflexivity.
Defined.

(* ================================================================== *)
(** * The unique columns of the users table *)

Lemma text_matches_sym a b : text_matches a b = text_matches b a.
Proof. destruct a, b; cbn; try reflexivity. apply str_eqb_sym. Qed.

Lemma users_unique_app rows x :
  users_unique rows ->
  (forall y, In y rows ->
     text_matches (users.username x) (users.username y) = false /\
     text_matches (users.email x) (users.email y) = false) ->
  users_unique (rows ++ [x]).
Proof.
  induction rows as [|a rows IH]; intros Hu Hx; cbn.
  - split; [intros y []|exact I].
  - destruct Hu as (Ha & Hu). split.
    + intros y Hy. apply in_app_or in Hy. destruct Hy as [Hy|[<-|[]]].
      * now apply Ha.
      * rewrite (text_matches_sym (users.username a)),
          (text_matches_sym (users.email a)). apply Hx. now left.
    + apply IH; [exact Hu|]. intros y Hy. apply Hx. now right.
Qed.

Lemma existsb_false_in {A : Type} (f : A -> bool) (l : list A) x :
  existsb f l = false -> In x l -> f x = false.
Proof.
  intros H Hx. destruct (f x) eqn:E; [|reflexivity].
  assert (existsb f l = true) by (apply existsb_exists; now exists x).
  congruence.
Qed.

Lemma add_user_keeps_unique now db x :
  users_unique (users_tbl db) ->
  users_unique (users_tbl (after db (add_user now db x))).
Proof.
  intros Hu. unfold add_user.
  destruct (negb (user_not_null_columns x)); [exact Hu|].
  destruct (existsb _ (users_tbl db)); [exact Hu|].
  destruct (existsb (fun y0 => text_matches (users.username x) _)
                    (users_tbl db)) eqn:Eu; [exact Hu|].
  destruct (existsb (fun y0 => text_matches (users.email x) _)
                    (users_tbl db)) eqn:Ee; [exact Hu|].
  cbn [after users_tbl]. apply users_unique_app; [exact Hu|].
  intros y Hy. cbn [user_with_defaults users.username users.email].
  split.
  - exact (existsb_false_in _ _ y Eu Hy).
  - exact (existsb_false_in _ _ y Ee Hy).
Qed.

(** X20. [username] and [email] are declared [unique=True] and
    [nullable=False], with [password_hash]: the INSERT of a user whose
    username or whose email a row already holds, or who lacks one of the
    three, raises [IntegrityError] and adds nothing; so a table in which
    no two users share a username or an email stays so. *)
Theorem unique_username_and_email_enforced
  (now : datetime) (db : session) (x : users.row) :
  (forall y,
     In y (users_tbl db) ->
     text_matches (users.username x) (users.username y) = true \/
     text_matches (users.email x) (users.email y) = true ->
     add_user now db x = Raise IntegrityError /\
     after db (add_user now db x) = db) /\
  (users.username x = None \/ users.email x = None \/
   users.password_hash x = None ->
   add_user now db x = Raise IntegrityError) /\
  (users_unique (users_tbl db) ->
   users_unique (users_tbl (after db (add_user now db x)))).
Proof.
  split; [|split].
  - intros y Hy Hsame.
    assert (add_user now db x = Raise IntegrityError) as ->;
      [|split; reflexivity].
    unfold add_user.
    destruct (negb (user_not_null_columns x)); [reflexivity|].
    destruct (existsb _ (users_tbl db)); [reflexivity|].
    destruct (existsb (fun y0 => text_matches (users.username x) _)
                      (users_tbl db)) eqn:Eu; [reflexivity|].
    destruct (existsb (fun y0 => text_matches (users.email x) _)
                      (users_tbl db)) eqn:Ee; [reflexivity|].
    pose proof (existsb_false_in _ _ y Eu Hy) as Hu.
    pose proof (existsb_false_in _ _ y Ee Hy) as He.
    cbv beta in Hu, He. destruct Hsame; congruence.
  - intros Hnull. unfold add_user, user_not_null_columns.
    destruct Hnull as [ -> | [ -> | -> ] ]; [reflexivity| |].
    + now destruct (users.username x).
    + now destruct (users.username x), (users.email x).
  - apply add_user_keeps_unique.
Qed.

(** A second alice, with another email, is refused by the sample store;
    dave is added, with the defaults of his profile. *)
Lemma unique_username_and_email_enforced_witness :
  add_user t0 sample_db (new_user "alice" "alice@example.org")
  = Raise IntegrityError /\
  (exists db',
     add_user t0 sample_db (new_user "dave" "dave@example.com") = Ok db' /\
     map users.id (users_tbl db') = [Some 1; Some 2; Some 3; Some 4] /\
     map users.cooking_level (users_tbl db')
     = [Some (u "beginner"); Some (u "beginner"); Some (u "beginner");
        Some (u "beginner")]) /\
  users_unique (users_tbl (after sample_db
     (add_user t0 sample_db (new_user "dave" "dave@example.com")))).
Proof.
  destruct (unique_username_and_email_enforced t0 sample_db
              (new_user "alice" "alice@example.org")) as (Hdup & _ & _).
  split; [exact (proj1 (Hdup alice (or_introl eq_refl) (or_introl eq_refl)))|].
  split; [eexists; split; [reflexivity|split; reflexivity]|].
  apply (unique_username_and_email_enforced t0 sample_db
           (new_user "dave" "dave@example.com")).
  cbn. repeat split; intros;
    repeat match goal with
    | H : _ \/ _ |- _ => destruct H as [<-|H]
    | H : False |- _ => destruct H
    end; split; reflexivity.
Defined.

(* ================================================================== *)
(** * The status of a new swap *)

(** X21. The default of [status] is applied by the INSERT: a swap added
    without a status is stored as [pending], with no [completed_at]
    unless it was given one; a swap that lacks its requester, its owner
    or its recipe is refused.  The view of the stored swap shows
    [pending]. *)
Theorem inserted_swap_is_pending
  (now : datetime) (db : session) (s : recipe_swaps.row) :
  (recipe_swaps.requester_id s = None \/ recipe_swaps.owner_id s = None \/
   recipe_swaps.recipe_id s = None ->
   add_swap now db s = Raise IntegrityError) /\
  (forall db',
     add_swap now db s = Ok db' ->
     recipe_swaps.status s = None ->
     exists s',
       recipe_swaps_tbl db' = recipe_swaps_tbl db ++ [s'] /\
       recipe_swaps.status s' = Some (u "pending") /\
       recipe_swaps.completed_at s' = recipe_swaps.completed_at s /\
       (forall d,
          RecipeSwap.to_dict db' s' false false = Ok d ->
          dict_get (u "status") d = Some (PyStr (u "pending")) /\
          dict_get (u "completed_at") d
          = Some (py_iso (recipe_swaps.completed_at s)))).
Proof.
  split.
  - intros Hnull. unfold add_swap, swap_not_null_columns.
    destruct Hnull as [ -> | [ -> | -> ] ]; [reflexivity| |].
    + now destruct (recipe_swaps.requester_id s).
    + now destruct (recipe_swaps.requester_id s), (recipe_swaps.owner_id s).
  - intros db' H Hst. unfold add_swap in H.
    destruct (negb (swap_not_null_columns s)); [discriminate H|].
    destruct (existsb _ (recipe_swaps_tbl db)); [discriminate H|].
    injection H as <-. eexists. split; [reflexivity|].
    cbn [RecipeSwap.insert_defaults swap_with_key recipe_swaps.status
         recipe_swaps.completed_at].
    rewrite Hst. split; [reflexivity|]. split; [reflexivity|].
    intros d Hd. unfold RecipeSwap.to_dict, bind in Hd.
    destruct (RecipeSwap.get_offered_recipe_ids _) as [ids|]; [|discriminate].
    injection Hd as <-.
    cbn [RecipeSwap.insert_defaults swap_with_key recipe_swaps.status
         recipe_swaps.completed_at].
    rewrite Hst. split; reflexivity.
Qed.

(** bob's request for the Tofu Scramble, added to a store without swaps,
    is stored as pending. *)
Lemma inserted_swap_is_pending_witness :
  exists db' s',
    add_swap t0 empty_reviews_db (new_swap (Some 2) (Some 1) (Some 10))
      = Ok db' /\
    recipe_swaps_tbl db' = [s'] /\
    recipe_swaps.status s' = Some (u "pending") /\
    recipe_swaps.completed_at s' = None.
Proof.
  destruct (add_swap t0 empty_reviews_db (new_swap (Some 2) (Some 1) (Some 10)))
    as [db'|] eqn:E; [|discriminate E].
  destruct (proj2 (inserted_swap_is_pending t0 empty_reviews_db
                     (new_swap (Some 2) (Some 1) (Some 10))) db' E eq_refl)
    as (s' & Ht & Hs & Hc & _).
  exists db', s'. split; [reflexivity|]. repeat split; assumption.
Defined.

(* ================================================================== *)
(** * The declared constraints along the runs of the store *)

Lemma users_unique_filter f rows :
  users_unique rows -> users_unique (filter f rows).
Proof.
  induction rows as [|a rows IH]; intros Hu; cbn; [exact I|].
  destruct Hu as (Ha & Hu). destruct (f a); cbn; [|now apply IH].
  split; [|now apply IH].
  intros y Hy. apply filter_In in Hy. now apply Ha.
Qed.

Lemma in_filter_in {A : Type} (f : A -> bool) (P : A -> Prop) (l : list A) :
  (forall x, In x l -> P x) -> forall x, In x (filter f l) -> P x.
Proof. intros H x Hx. apply filter_In in Hx. now apply H. Qed.

Lemma in_app_one {A : Type} (P : A -> Prop) (l : list A) (a : A) :
  (forall x, In x l -> P x) -> P a -> forall x, In x (l ++ [a]) -> P x.
Proof.
  intros H Ha x Hx. apply in_app_or in Hx.
  destruct Hx as [Hx|[<-|[]]]; [now apply H|exact Ha].
Qed.

(** The key an INSERT gives a row is not in the table. *)
Lemma insert_key_fresh {row : Type} (pk : row -> option Z)
  (given : option Z) (rows : list row) :
  existsb (fun y => fk_matches given (pk y)) rows = false ->
  ~ In (Some (match given with
              | Some i => i
              | None => next_id (map pk rows)
              end)) (map pk rows).
Proof.
  intros E Hin. destruct given as [i|].
  - apply in_map_iff in Hin. destruct Hin as (x & Hx & Hin).
    pose proof (existsb_false_in _ _ x E Hin) as Hc.
    cbv beta in Hc. rewrite Hx in Hc. cbn in Hc.
    now rewrite Z.eqb_refl in Hc.
  - apply next_id_above in Hin. lia.
Qed.

Lemma add_user_keeps db now x :
  constraints_hold db -> constraints_hold (after db (add_user now db x)).
Proof.
  intros H.
  pose proof (add_user_keeps_unique now db x (users_are_unique _ H)) as Hu.
  unfold add_user in *.
  destruct (negb (user_not_null_columns x)) eqn:En; [exact H|].
  destruct (existsb _ (users_tbl db)) eqn:Eid; [exact H|].
  destruct (existsb (fun y0 => text_matches (users.username x) _)
                    (users_tbl db)); [exact H|].
  destruct (existsb (fun y0 => text_matches (users.email x) _)
                    (users_tbl db)); [exact H|].
  cbn [after] in *. destruct H as [Hupk Hrpk Hvpk Hspk Hunn Hrnn Hvnn Hsnn Huu Hru]. constructor;
    cbn [users_tbl recipes_tbl reviews_tbl recipe_swaps_tbl]; try assumption.
  - eapply (pk_distinct_app users.id); [exact Hupk|reflexivity|].
    now apply insert_key_fresh.
  - apply in_app_one; [assumption|].
    apply negb_false_iff in En. exact En.
Qed.

Lemma add_recipe_keeps db now r :
  constraints_hold db -> constraints_hold (after db (add_recipe now db r)).
Proof.
  intros H. unfold add_recipe.
  destruct (negb (recipe_not_null_columns r)) eqn:En; [exact H|].
  destruct (existsb _ (recipes_tbl db)) eqn:Eid; [exact H|].
  cbn [after]. destruct H as [Hupk Hrpk Hvpk Hspk Hunn Hrnn Hvnn Hsnn Huu Hru]. constructor;
    cbn [users_tbl recipes_tbl reviews_tbl recipe_swaps_tbl]; try assumption.
  - eapply (pk_distinct_app recipes.id); [exact Hrpk|reflexivity|].
    now apply insert_key_fresh.
  - apply in_app_one; [assumption|].
    apply negb_false_iff in En. exact En.
Qed.

Lemma add_review_keeps db now r :
  constraints_hold db -> constraints_hold (after db (add_review now db r)).
Proof.
  intros H.
  pose proof (add_review_keeps_unique now db r (reviews_are_unique _ H)) as Hu.
  pose proof (add_review_keeps_pk now db r (reviews_pk _ H)) as Hpk.
  destruct (add_review now db r) as [db'|] eqn:E; cbn [after] in *;
    [|exact H].
  apply add_review_accepted in E.
  destruct E as (Hnn & _ & pk & Ht & Husers & Hrecipes & Hswaps).
  destruct H as [Hupk Hrpk Hvpk Hspk Hunn Hrnn Hvnn Hsnn Huu Hru]. constructor; rewrite ?Husers, ?Hrecipes, ?Hswaps;
    try assumption.
  rewrite Ht. apply in_app_one; [assumption|exact Hnn].
Qed.

Lemma add_swap_keeps db now s :
  constraints_hold db -> constraints_hold (after db (add_swap now db s)).
Proof.
  intros H. unfold add_swap.
  destruct (negb (swap_not_null_columns s)) eqn:En; [exact H|].
  destruct (existsb _ (recipe_swaps_tbl db)) eqn:Eid; [exact H|].
  cbn [after]. destruct H as [Hupk Hrpk Hvpk Hspk Hunn Hrnn Hvnn Hsnn Huu Hru]. constructor;
    cbn [users_tbl recipes_tbl reviews_tbl recipe_swaps_tbl]; try assumption.
  - eapply (pk_distinct_app recipe_swaps.id); [exact Hspk|reflexivity|].
    now apply insert_key_fresh.
  - apply in_app_one; [assumption|].
    apply negb_false_iff in En. exact En.
Qed.

Lemma delete_recipe_keeps db r :
  constraints_hold db -> constraints_hold (after db (delete_recipe db r)).
Proof.
  intros [Hupk Hrpk Hvpk Hspk Hunn Hrnn Hvnn Hsnn Huu Hru]. cbn [after delete_recipe]. constructor;
    cbn [users_tbl recipes_tbl reviews_tbl recipe_swaps_tbl];
    try assumption;
    try (apply pk_distinct_filter; assumption);
    try (apply in_filter_in; assumption).
  now apply reviews_unique_filter.
Qed.

Lemma delete_user_keeps db x :
  constraints_hold db -> constraints_hold (after db (delete_user db x)).
Proof.
  intros H. destruct (delete_user db x) as [db'|] eqn:E; cbn [after];
    [|exact H].
  apply delete_user_accepted in E. destruct E as (-> & _).
  destruct H as [Hupk Hrpk Hvpk Hspk Hunn Hrnn Hvnn Hsnn Huu Hru]. unfold without_user. constructor;
    cbn [users_tbl recipes_tbl reviews_tbl recipe_swaps_tbl];
    try (apply pk_distinct_filter; assumption);
    try (apply in_filter_in; assumption).
  - now apply users_unique_filter.
  - now apply reviews_unique_filter.
Qed.

(** X22. The constraints the model classes declare are invariants of the
    store: along every run of INSERTs of users, recipes, reviews and swaps
    and of DELETEs of recipes and users, each accepted or refused, the
    primary keys stay distinct, the [nullable=False] columns stay set, no
    two users share a username or an email, and no two reviews share a
    (recipe, reviewer) pair. *)
Theorem declared_constraints_hold_along_runs (db0 db : session) :
  constraints_hold db0 -> runs db0 db -> constraints_hold db.
Proof.
  intros H0. induction 1 as [|d d' _ IH Hop]; [exact H0|].
  destruct Hop.
  - now apply add_user_keeps.
  - now apply add_recipe_keeps.
  - now apply add_review_keeps.
  - now apply add_swap_keeps.
  - now apply delete_recipe_keeps.
  - now apply delete_user_keeps.
Qed.

Lemma empty_db_constraints : constraints_hold empty_db.
Proof.
  constructor; cbn; try (split; [intros []|constructor]);
    try (intros ? []); exact I.
Qed.

(** At the end of the run [busy_db] the store holds alice and carol
    only, and satisfies the constraints. *)
Lemma declared_constraints_hold_along_runs_witness :
  map users.username (users_tbl busy_db)
  = [Some (u "alice"); Some (u "carol")] /\
  constraints_hold busy_db.
Proof.
  split; [reflexivity|].
  apply (declared_constraints_hold_along_runs empty_db);
    [exact empty_db_constraints|].
  unfold busy_db. cbv zeta.
  eapply runs_step; [|apply op_delete_user].
  eapply runs_step; [|apply op_delete_recipe].
  eapply runs_step; [|apply op_delete_user].
  eapply runs_step; [|apply op_add_user].
  eapply runs_step; [|apply op_add_swap].
  eapply runs_step; [|apply op_add_review].
  eapply runs_step; [|apply op_add_review].
  eapply runs_step; [|apply op_add_recipe].
  eapply runs_step; [|apply op_add_user].
  eapply runs_step; [|apply op_add_user].
  eapply runs_step; [|apply op_add_user].
  apply runs_start.
Defined.
